(** * crda: Central Regulatory Domain Agent

    A shallow embedding of [crda.c] and the properties of its trusted
    database loader: the bounded pointer resolver [get_file_ptr], the
    country code validation, the signature check over the compiled-in
    keys, the walk over the country table and the rule collection, and the
    netlink attribute tree that [main] builds.

    Conventions of the embedding.
    - A C [int] is a [Z] in [-2^31, 2^31); conversions to [int] are written
      [to_int], conversions to an unsigned 32-bit type [to_u32], and to
      [size_t] [to_size_t].  Signed arithmetic that leaves the range wraps
      (what the usual compilers produce for this code).
    - The mapped file is a [list byte]; a read outside of it is the outcome
      [Fault].
    - A [__be32] is the four bytes it occupies in memory, in file order;
      [ntohl] is their big-endian value, whatever the host's byte order.
    - A run of the program is a trace of the observable events (diagnostics
      and calls into the libraries) together with how it ended. *)

From Stdlib Require Import ZArith List String Ascii Bool Lia.
From Stdlib Require Import Strings.Byte.
Import ListNotations.

Local Open Scope Z_scope.

(** ** Machine integers *)

Module CInt.

Definition INT_MIN : Z := - 2 ^ 31.
Definition INT_MAX : Z := 2 ^ 31 - 1.

(** Conversion to [int] (two's complement). *)
Definition to_int (z : Z) : Z := (z + 2 ^ 31) mod 2 ^ 32 - 2 ^ 31.

(** Conversion to [__u32] / [unsigned int]. *)
Definition to_u32 (z : Z) : Z := z mod 2 ^ 32.

(** Conversion to [size_t]. *)
Definition to_size_t (z : Z) : Z := z mod 2 ^ 64.

Definition is_int (z : Z) : Prop := INT_MIN <= z <= INT_MAX.

End CInt.
Import CInt.

(** ** Bytes and network-order words *)

Definition u8 (b : byte) : Z := Z.of_N (Byte.to_N b).

(** The byte of value [z mod 256]. *)
Definition byte_of_Z (z : Z) : byte :=
  match Byte.of_N (Z.to_N (z mod 256)) with
  | Some b => b
  | None => x00
  end.

Record be32 : Type := Be32 { be_b0 : byte; be_b1 : byte; be_b2 : byte; be_b3 : byte }.

Definition ntohl (x : be32) : Z :=
  Z.lor (Z.shiftl (u8 (be_b0 x)) 24)
   (Z.lor (Z.shiftl (u8 (be_b1 x)) 16)
     (Z.lor (Z.shiftl (u8 (be_b2 x)) 8) (u8 (be_b3 x)))).

Definition htonl (z : Z) : be32 :=
  Be32 (byte_of_Z (Z.shiftr z 24)) (byte_of_Z (Z.shiftr z 16))
       (byte_of_Z (Z.shiftr z 8)) (byte_of_Z z).

(** The constant [0] passed where a [__be32] is expected. *)
Definition be32_zero : be32 := Be32 x00 x00 x00 x00.

Definition be32_bytes (x : be32) : list byte :=
  [be_b0 x; be_b1 x; be_b2 x; be_b3 x].

(** ** The mapped file *)

Module Mem.

(** [n] bytes of the file starting at offset [off]; [None] when any of
    them lies outside the file. *)
Definition load_bytes (db : list byte) (off n : Z) : option (list byte) :=
  if (0 <=? off) && (0 <=? n) && (off + n <=? Z.of_nat (List.length db))
  then Some (firstn (Z.to_nat n) (skipn (Z.to_nat off) db))
  else None.

Definition load_be32 (db : list byte) (off : Z) : option be32 :=
  match load_bytes db off 4 with
  | Some [a; b; c; d] => Some (Be32 a b c d)
  | _ => None
  end.

(** The bytes of the NUL-terminated string that starts the list; [None]
    when the list ends before a NUL is met. *)
Fixpoint strz (l : list byte) : option (list byte) :=
  match l with
  | [] => None
  | b :: l' =>
      if Byte.eqb b x00 then Some []
      else match strz l' with
           | Some s => Some (b :: s)
           | None => None
           end
  end.

Definition load_strz (db : list byte) (off : Z) : option (list byte) :=
  if (0 <=? off) && (off <=? Z.of_nat (List.length db))
  then strz (skipn (Z.to_nat off) db)
  else None.

End Mem.

(** ** Netlink messages

    libnl lays attributes out one after the other; [nla_nest_start] opens a
    container that [nla_nest_end] closes over everything put since.  The
    message under construction is the list of finished top-level attributes
    and the stack of containers still open, innermost first. *)

Module Netlink.

#[warnings="-register-all"] Inductive nlattr : Type :=
| NlaU32 (attrtype : Z) (value : Z)
| NlaString (attrtype : Z) (value : list byte)
| NlaNested (attrtype : Z) (body : list nlattr).

Record nl_msg : Type := NlMsg {
  nm_family : Z;
  nm_cmd : Z;
  nm_attrs : list nlattr;
  nm_open : list (Z * list nlattr)
}.

Definition nlmsg_empty : nl_msg := NlMsg 0 0 [] [].

Definition genlmsg_put (family cmd : Z) (m : nl_msg) : nl_msg :=
  NlMsg family cmd (nm_attrs m) (nm_open m).

(** Append one attribute at the current end of the message. *)
Definition nla_append (a : nlattr) (m : nl_msg) : nl_msg :=
  match nm_open m with
  | [] => NlMsg (nm_family m) (nm_cmd m) (nm_attrs m ++ [a]) []
  | (t, body) :: rest =>
      NlMsg (nm_family m) (nm_cmd m) (nm_attrs m) ((t, body ++ [a]) :: rest)
  end.

Definition nest_open (attrtype : Z) (m : nl_msg) : nl_msg :=
  NlMsg (nm_family m) (nm_cmd m) (nm_attrs m) ((attrtype, []) :: nm_open m).

Definition nla_nest_end (m : nl_msg) : nl_msg :=
  match nm_open m with
  | [] => m
  | (t, body) :: rest =>
      nla_append (NlaNested t body)
        (NlMsg (nm_family m) (nm_cmd m) (nm_attrs m) rest)
  end.

End Netlink.
Import Netlink.

(** ** Build configuration and the world outside the program *)

Record pubkey : Type := PubKey { key_e : Z; key_n : Z }.

(** Which of [USE_OPENSSL] / [USE_GCRYPT] the program is compiled with, and
    the [keys] table of the included [keys-ssl.c] / [keys-gcrypt.c]. *)
Inductive backend : Type :=
| NO_CRYPTO
| USE_OPENSSL (keys : list pubkey)
| USE_GCRYPT (keys : list pubkey).

(** Constants of [regdb.h] and [linux/nl80211.h]. *)
Record headers : Type := Headers {
  REGDB_MAGIC : Z;
  REGDB_VERSION : Z;
  NL80211_CMD_SET_REG : Z;
  NL80211_ATTR_REG_ALPHA2 : Z;
  NL80211_ATTR_REG_RULES : Z;
  NL80211_ATTR_REG_RULE_FLAGS : Z;
  NL80211_ATTR_FREQ_RANGE_START : Z;
  NL80211_ATTR_FREQ_RANGE_END : Z;
  NL80211_ATTR_FREQ_RANGE_MAX_BW : Z;
  NL80211_ATTR_POWER_RULE_MAX_ANT_GAIN : Z;
  NL80211_ATTR_POWER_RULE_MAX_EIRP : Z
}.

(** How [nl_wait_for_ack] ends: it returns a code, or the kernel answers
    with an error message for which the library runs the error callback. *)
Inductive ack_reply : Type :=
| AckReturn (r : Z)
| AckError (err_error : Z).

(** What the process finds around it: its arguments and environment, the
    database file, and how each library call answers. *)
Record world : Type := World {
  argc : Z;
  getenv_COUNTRY : option string;
  (* libnl *)
  nl_handle_alloc_ok : bool;
  genl_connect_ok : bool;
  genl_ctrl_alloc_cache_ok : bool;
  genl_ctrl_search_by_name_ok : bool;
  genl_family_get_id : Z;
  nlmsg_alloc_ok : bool;
  nla_room : nl_msg -> bool;
  nl_cb_alloc_ok : bool;
  nl_send_auto_complete : nl_msg -> Z;
  nl_wait_for_ack : ack_reply;
  (* the database file *)
  open_ok : bool;
  fstat_ok : bool;
  mmap_ok : bool;
  regdb : list byte;
  (* OpenSSL *)
  RSA_new_ok : bool;
  SHA1_ok : bool;
  SHA1 : list byte -> list byte;
  RSA_size : pubkey -> Z;
  RSA_verify : pubkey -> list byte -> list byte -> bool;
  (* libgcrypt *)
  gcry_md_hash_buffer : list byte -> list byte;
  gcry_sexp_build_data_ok : bool;
  gcry_sexp_build_sig_ok : bool;
  gcry_mpi_scan_ok : pubkey -> bool;
  gcry_sexp_build_key_ok : pubkey -> bool;
  gcry_pk_verify : pubkey -> list byte -> list byte -> bool
}.

(** ** Runs: a trace and an outcome *)

Inductive event : Type :=
| Stderr (fmt : string) (args : list Z)
| Perror (s : string)
| Call (fn : string)
| CallLen (fn : string) (len : Z)
| CallKey (fn : string) (k : pubkey)
| Send (msg : nl_msg).

Inductive outcome (A : Type) : Type :=
| Cont (a : A)          (* the statement completed, control goes on *)
| Return (r : Z)        (* [main] returned [r] *)
| Exit (status : Z)     (* [exit(status)] was called *)
| Fault.                (* a read outside the mapped file *)
Arguments Cont {A} a.
Arguments Return {A} r.
Arguments Exit {A} status.
Arguments Fault {A}.

Record run (A : Type) : Type := Run { trace : list event; result : outcome A }.
Arguments Run {A} trace result.
Arguments trace {A} r.
Arguments result {A} r.

Definition ret {A} (a : A) : run A := Run [] (Cont a).

Definition bind {A B} (m : run A) (f : A -> run B) : run B :=
  match result m with
  | Cont a => let k := f a in Run (trace m ++ trace k) (result k)
  | Return r => Run (trace m) (Return r)
  | Exit c => Run (trace m) (Exit c)
  | Fault => Run (trace m) Fault
  end.

Declare Scope run_scope.
Delimit Scope run_scope with run.
Notation "x <- m ;; k" := (bind m (fun x => k))
  (at level 61, m at next level, right associativity) : run_scope.
Notation "m ;; k" := (bind m (fun _ => k))
  (at level 61, right associativity) : run_scope.
Local Open Scope run_scope.

Definition emit (e : event) : run unit := Run [e] (Cont tt).
Definition fprintf_stderr (fmt : string) (args : list Z) : run unit :=
  emit (Stderr fmt args).
Definition perror (s : string) : run unit := emit (Perror s).
Definition c_return {A} (r : Z) : run A := Run [] (Return r).
Definition c_exit {A} (status : Z) : run A := Run [] (Exit status).
Definition fault {A} : run A := Run [] Fault.

(** A read through a pointer: the bytes when they lie inside the mapped
    file, and [Fault] otherwise.  The run of the model ends there; what the
    process does after such a read depends on the memory behind the file
    and is not described.  Properties of the runs that go on are thus
    properties of the runs whose reads stay inside the file. *)
Definition of_load {A} (o : option A) : run A :=
  match o with
  | Some v => ret v
  | None => fault
  end.

(** [errno.h] (Linux). *)
Definition ENOENT : Z := 2.
Definition EIO : Z := 5.
Definition ENOMEM : Z := 12.
Definition EINVAL : Z := 22.
Definition ENOLINK : Z := 67.

(** ** Layout of the database file *)

(** [regdb.h], which declares the structures of the file, is not among
    the sources: the sizes and the field offsets below follow the "Binary
    database layout" paragraph of the specification, where every field but
    [alpha2] is a 32-bit word in network byte order. *)
Module Layout.

(** Modelled from the spec: [struct regdb_file_header], missing with
    [regdb.h]; header {magic, version, signature_length, country_table_ptr,
    country_count}. *)
Definition sizeof_header : Z := 20.
Definition off_magic : Z := 0.
Definition off_version : Z := 4.
Definition off_signature_length : Z := 8.
Definition off_reg_country_ptr : Z := 12.
Definition off_reg_country_num : Z := 16.

(** Modelled from the spec: [struct regdb_file_reg_country], missing with
    [regdb.h]; country {alpha2[2], padding, rule_collection_ptr}. *)
Definition sizeof_reg_country : Z := 8.
Definition off_alpha2 : Z := 0.
Definition off_reg_collection_ptr : Z := 4.

(** Modelled from the spec: [struct regdb_file_reg_rules_collection],
    missing with [regdb.h]; rule collection {rule_count, rule_ptrs[]}, the
    size being that of the count alone. *)
Definition sizeof_rcoll : Z := 4.
Definition off_reg_rule_num : Z := 0.
Definition off_reg_rule_ptrs : Z := 4.

(** Modelled from the spec: [struct regdb_file_reg_rule], missing with
    [regdb.h]; rule {flags, freq_range_ptr, power_rule_ptr}. *)
Definition sizeof_reg_rule : Z := 12.
Definition off_flags : Z := 0.
Definition off_freq_range_ptr : Z := 4.
Definition off_power_rule_ptr : Z := 8.

(** Modelled from the spec: [struct regdb_file_freq_range], missing with
    [regdb.h]; frequency range {start, end, max_bw}. *)
Definition sizeof_freq_range : Z := 12.
Definition off_start_freq : Z := 0.
Definition off_end_freq : Z := 4.
Definition off_max_bandwidth : Z := 8.

(** Modelled from the spec: [struct regdb_file_power_rule], missing with
    [regdb.h]; power rule {max_antenna_gain, max_eirp}. *)
Definition sizeof_power_rule : Z := 8.
Definition off_max_antenna_gain : Z := 0.
Definition off_max_eirp : Z := 4.

Definition sizeof_be32 : Z := 4.

End Layout.
Import Layout.

(** ** The program *)

(** A C truth value. *)
Definition c_true (z : Z) : bool := negb (z =? 0).

(** [s[i]] for a C string: the character, or the terminating NUL at index
    [length s]. *)
Definition char_at (s : string) (i : nat) : Z :=
  match String.get i s with
  | Some c => Z.of_N (N_of_ascii c)
  | None => 0
  end.

Definition isalpha_upper (letter : Z) : Z :=
  if (65 <=? letter) && (letter <=? 90) then 1 else 0.

Definition is_alpha2 (alpha2 : string) : Z :=
  if c_true (isalpha_upper (char_at alpha2 0)) && c_true (isalpha_upper (char_at alpha2 1))
  then 1 else 0.

Definition is_world_regdom (alpha2 : string) : Z :=
  if (char_at alpha2 0 =? 48) && (char_at alpha2 1 =? 48) then 1 else 0.

(** [memcpy(alpha2, env_country, 2)]. *)
Definition memcpy2 (env_country : string) : list byte :=
  [byte_of_Z (char_at env_country 0); byte_of_Z (char_at env_country 1)].

(** [get_file_ptr]: the pointer returned is [db + p], represented by the
    offset [p].  [dblen - structlen] is an [int]; the comparison with the
    [__u32] [p] converts it to unsigned. *)
Definition get_file_ptr (db : list byte) (dblen structlen : Z) (ptr : be32) : run Z :=
  let p := ntohl ptr in
  if to_u32 (to_int (dblen - structlen)) <? p then
    fprintf_stderr "Invalid database file, bad pointer!" [] ;;
    c_exit 3
  else ret p.

Definition load_be32 (db : list byte) (off : Z) : run be32 :=
  of_load (Mem.load_be32 db off).

Section Program.

Variable h : headers.
Variable w : world.

Definition nla_put (a : nlattr) (msg : nl_msg) : option nl_msg :=
  if nla_room w msg then Some (nla_append a msg) else None.

Definition nla_nest_start (attrtype : Z) (msg : nl_msg) : option nl_msg :=
  if nla_room w msg then Some (nest_open attrtype msg) else None.

(** [NLA_PUT_U32] inside [put_reg_rule]: on failure, [goto nla_put_failure],
    which returns -1. *)
Definition NLA_PUT_U32 (msg : nl_msg) (attrtype value : Z)
    (k : nl_msg -> run (Z * nl_msg)) : run (Z * nl_msg) :=
  match nla_put (NlaU32 attrtype value) msg with
  | Some msg' => k msg'
  | None => ret (-1, msg)
  end.

Definition put_reg_rule (db : list byte) (dblen : Z) (ruleptr : be32) (msg : nl_msg)
  : run (Z * nl_msg) :=
  rule <- get_file_ptr db dblen sizeof_reg_rule ruleptr ;;
  freq_range_ptr <- load_be32 db (rule + off_freq_range_ptr) ;;
  freq <- get_file_ptr db dblen sizeof_freq_range freq_range_ptr ;;
  power_rule_ptr <- load_be32 db (rule + off_power_rule_ptr) ;;
  power <- get_file_ptr db dblen sizeof_power_rule power_rule_ptr ;;
  flags <- load_be32 db (rule + off_flags) ;;
  NLA_PUT_U32 msg (NL80211_ATTR_REG_RULE_FLAGS h) (ntohl flags) (fun msg =>
  start_freq <- load_be32 db (freq + off_start_freq) ;;
  NLA_PUT_U32 msg (NL80211_ATTR_FREQ_RANGE_START h) (ntohl start_freq) (fun msg =>
  end_freq <- load_be32 db (freq + off_end_freq) ;;
  NLA_PUT_U32 msg (NL80211_ATTR_FREQ_RANGE_END h) (ntohl end_freq) (fun msg =>
  max_bandwidth <- load_be32 db (freq + off_max_bandwidth) ;;
  NLA_PUT_U32 msg (NL80211_ATTR_FREQ_RANGE_MAX_BW h) (ntohl max_bandwidth) (fun msg =>
  max_antenna_gain <- load_be32 db (power + off_max_antenna_gain) ;;
  NLA_PUT_U32 msg (NL80211_ATTR_POWER_RULE_MAX_ANT_GAIN h) (ntohl max_antenna_gain) (fun msg =>
  max_eirp <- load_be32 db (power + off_max_eirp) ;;
  NLA_PUT_U32 msg (NL80211_ATTR_POWER_RULE_MAX_EIRP h) (ntohl max_eirp) (fun msg =>
  ret (0, msg))))))).

Definition nl80211_init : run Z :=
  emit (Call "nl_handle_alloc") ;;
  if negb (nl_handle_alloc_ok w) then
    fprintf_stderr "Failed to allocate netlink handle." [] ;;
    ret (- ENOMEM)
  else
    emit (Call "genl_connect") ;;
    if negb (genl_connect_ok w) then
      fprintf_stderr "Failed to connect to generic netlink." [] ;;
      emit (Call "nl_handle_destroy") ;;
      ret (- ENOLINK)
    else
      emit (Call "genl_ctrl_alloc_cache") ;;
      if negb (genl_ctrl_alloc_cache_ok w) then
        fprintf_stderr "Failed to allocate generic netlink cache." [] ;;
        emit (Call "nl_handle_destroy") ;;
        ret (- ENOMEM)
      else
        emit (Call "genl_ctrl_search_by_name") ;;
        if negb (genl_ctrl_search_by_name_ok w) then
          fprintf_stderr "nl80211 not found." [] ;;
          emit (Call "nl_cache_free") ;;
          emit (Call "nl_handle_destroy") ;;
          ret (- ENOENT)
        else ret 0.

Definition nl80211_cleanup : run unit :=
  emit (Call "genl_family_put") ;;
  emit (Call "nl_cache_free") ;;
  emit (Call "nl_handle_destroy").

(** The callback registered for netlink error messages. *)
Definition error_handler {A} (err_error : Z) : run A :=
  fprintf_stderr "nl80211 error %d" [err_error] ;;
  c_exit err_error.

(** The labels at the end of [main]. *)
Definition goto_out {A} (r : Z) : run A :=
  nl80211_cleanup ;; c_return r.

Definition goto_nla_put_failure {A} (r : Z) : run A :=
  emit (Call "nlmsg_free") ;; goto_out r.

Definition goto_cb_out {A} (r : Z) : run A :=
  emit (Call "nl_cb_put") ;; goto_nla_put_failure r.

End Program.

Section Main.

Variable h : headers.
Variable crypto : backend.
Variable w : world.

(** *** Signature verification, OpenSSL build *)

(** The loop [for (i = 0; i < sizeof(keys)/sizeof(keys[0]); i++)] over
    [keys[i]]; the result is the final value of [ok]. *)
Fixpoint openssl_try_keys (db : list byte) (dblen siglen : Z) (hash : list byte)
    (keys : list pubkey) : run bool :=
  match keys with
  | [] => ret false
  | k :: rest =>
      if negb (RSA_size w k =? siglen) then
        openssl_try_keys db dblen siglen hash rest
      else
        emit (CallKey "RSA_verify" k) ;;
        sig <- of_load (Mem.load_bytes db dblen (to_u32 siglen)) ;;
        if RSA_verify w k hash sig then ret true
        else openssl_try_keys db dblen siglen hash rest
  end.

Definition verify_openssl (db : list byte) (dblen siglen : Z) (keys : list pubkey)
  : run unit :=
  emit (Call "RSA_new") ;;
  if negb (RSA_new_ok w) then
    fprintf_stderr "Failed to create RSA key" [] ;;
    goto_out (- EINVAL)
  else
    emit (CallLen "SHA1" dblen) ;;
    signed <- of_load (Mem.load_bytes db 0 (to_size_t dblen)) ;;
    if negb (SHA1_ok w) then
      fprintf_stderr "Failed to calculate SHA sum" [] ;;
      goto_out (- EINVAL)
    else
      let hash := SHA1 w signed in
      ok <- openssl_try_keys db dblen siglen hash keys ;;
      if negb ok then
        fprintf_stderr "Database signature wrong" [] ;;
        goto_out (- EINVAL)
      else
        emit (Call "RSA_free") ;;
        match keys with
        | k0 :: _ => emit (CallKey "BN_print_fp" k0)
        | [] => ret tt
        end.

(** *** Signature verification, libgcrypt build *)

(** The loop over [i]; its body builds the key from [keys[0]] ([key0])
    at every iteration.  [iter] is what remains of the table to count. *)
Fixpoint gcrypt_try_keys (key0 : pubkey) (data signature : list byte)
    (iter : list pubkey) : run bool :=
  match iter with
  | [] => ret false
  | _ :: rest =>
      emit (CallKey "gcry_mpi_scan" key0) ;;
      if negb (gcry_mpi_scan_ok w key0) then
        fprintf_stderr "failed to convert numbers" [] ;;
        c_return 2
      else
        emit (CallKey "gcry_sexp_build" key0) ;;
        if negb (gcry_sexp_build_key_ok w key0) then
          fprintf_stderr "failed to build rsa key" [] ;;
          c_return 2
        else
          emit (CallKey "gcry_pk_verify" key0) ;;
          if gcry_pk_verify w key0 data signature then ret true
          else gcrypt_try_keys key0 data signature rest
  end.

Definition verify_gcrypt (db : list byte) (dblen siglen : Z) (keys : list pubkey)
  : run unit :=
  emit (Call "gcry_check_version") ;;
  emit (CallLen "gcry_md_hash_buffer" dblen) ;;
  signed <- of_load (Mem.load_bytes db 0 (to_size_t dblen)) ;;
  let hash := gcry_md_hash_buffer w signed in
  emit (Call "gcry_sexp_build data") ;;
  if negb (gcry_sexp_build_data_ok w) then
    fprintf_stderr "failed to build data expression" [] ;;
    c_return 2
  else
    emit (Call "gcry_sexp_build sig-val") ;;
    signature <- of_load (Mem.load_bytes db dblen (to_size_t siglen)) ;;
    if negb (gcry_sexp_build_sig_ok w) then
      fprintf_stderr "failed to build signature expression" [] ;;
      c_return 2
    else
      ok <- gcrypt_try_keys (hd (PubKey 0 0) keys) hash signature keys ;;
      if negb ok then
        fprintf_stderr "Database signature wrong" [] ;;
        c_return 2
      else ret tt.

Definition verify_signature (db : list byte) (dblen siglen : Z) : run unit :=
  match crypto with
  | NO_CRYPTO => ret tt
  | USE_OPENSSL keys => verify_openssl db dblen siglen keys
  | USE_GCRYPT keys => verify_gcrypt db dblen siglen keys
  end.

(** *** The country table *)

(** [memcmp(country->alpha2, alpha2, 2) == 0], on the two bytes loaded
    from the record and the two bytes of [alpha2]. *)
Fixpoint alpha2_eqb (a b : list byte) : bool :=
  match a, b with
  | [], [] => true
  | x :: a', y :: b' => Byte.eqb x y && alpha2_eqb a' b'
  | _, _ => false
  end.

(** The loop [for (i = 0; i < num_countries; i++)], [n] iterations left;
    the result is the index of the matching record ([found_country] set)
    or [None]. *)
Fixpoint scan_countries (db : list byte) (countries : Z) (alpha2 : list byte)
    (n : nat) (i : Z) : run (option Z) :=
  match n with
  | O => ret None
  | S n' =>
      let country := countries + sizeof_reg_country * i in
      code <- of_load (Mem.load_bytes db (country + off_alpha2) 2) ;;
      if alpha2_eqb code alpha2 then ret (Some i)
      else scan_countries db countries alpha2 n' (i + 1)
  end.

(** Lines 364-380: resolve the table, scan it; the result is the index
    [i] and the pointer [country] of the match. *)
Definition find_country (db : list byte) (dblen header : Z) (alpha2 : list byte)
  : run (Z * Z) :=
  reg_country_num <- load_be32 db (header + off_reg_country_num) ;;
  let num_countries := to_int (ntohl reg_country_num) in
  reg_country_ptr <- load_be32 db (header + off_reg_country_ptr) ;;
  countries <- get_file_ptr db dblen
                 (to_int (to_size_t (sizeof_reg_country * to_size_t num_countries)))
                 reg_country_ptr ;;
  found <- scan_countries db countries alpha2 (Z.to_nat num_countries) 0 ;;
  match found with
  | None =>
      fprintf_stderr "failed to find a country match in regulatory database" [] ;;
      c_return (-1)
  | Some i => ret (i, countries + sizeof_reg_country * i)
  end.

(** *** The netlink message *)

(** The tail of [main] from [nl_cb_alloc] on: send the message and wait
    for the acknowledgement. *)
Definition main_send (msg : nl_msg) (r : Z) : run Empty_set :=
  emit (Call "nl_cb_alloc") ;;
  if negb (nl_cb_alloc_ok w) then goto_cb_out r
  else
    emit (Send msg) ;;
    let r := nl_send_auto_complete w msg in
    if r <? 0 then
      fprintf_stderr "failed to send regulatory request: %d" [r] ;;
      goto_cb_out r
    else
      emit (Call "nl_wait_for_ack") ;;
      match nl_wait_for_ack w with
      | AckError e => error_handler e
      | AckReturn r =>
          if r <? 0 then
            fprintf_stderr "failed to set regulatory domain: %d" [r] ;;
            goto_cb_out r
          else goto_cb_out r
      end.

(** The loop [for (j = 0; j < num_rules; j++)], [n] iterations left.  It
    either completes with the message, or leaves [main] through
    [nla_put_failure]. *)
Fixpoint rules_loop (db : list byte) (dblen i rcoll : Z) (n : nat) (j r : Z)
    (msg : nl_msg) : run (Z * nl_msg) :=
  match n with
  | O => ret (r, msg)
  | S n' =>
      match nla_nest_start w i msg with
      | None => goto_nla_put_failure r
      | Some msg =>
          ruleptr <- load_be32 db (rcoll + off_reg_rule_ptrs + sizeof_be32 * j) ;;
          rm <- put_reg_rule h w db dblen ruleptr msg ;;
          let r := fst rm in
          let msg := snd rm in
          if c_true r then goto_nla_put_failure r
          else rules_loop db dblen i rcoll n' (j + 1) r (nla_nest_end msg)
      end
  end.

(** Lines 382-420: allocate the message, resolve the rule collection
    twice, put the country code and the rules. *)
Definition build_message (db : list byte) (dblen i country r : Z)
  : run (Z * nl_msg) :=
  emit (Call "nlmsg_alloc") ;;
  if negb (nlmsg_alloc_ok w) then
    fprintf_stderr "failed to allocate netlink msg" [] ;;
    c_return (-1)
  else
    emit (Call "genlmsg_put") ;;
    let msg := genlmsg_put (genl_family_get_id w) (NL80211_CMD_SET_REG h) nlmsg_empty in
    reg_collection_ptr <- load_be32 db (country + off_reg_collection_ptr) ;;
    rcoll <- get_file_ptr db dblen (to_int sizeof_rcoll) reg_collection_ptr ;;
    reg_rule_num <- load_be32 db (rcoll + off_reg_rule_num) ;;
    let num_rules := to_int (ntohl reg_rule_num) in
    reg_collection_ptr <- load_be32 db (country + off_reg_collection_ptr) ;;
    rcoll <- get_file_ptr db dblen
               (to_int (to_size_t (sizeof_rcoll + to_size_t num_rules * sizeof_be32)))
               reg_collection_ptr ;;
    alpha2 <- of_load (Mem.load_strz db (country + off_alpha2)) ;;
    match nla_put w (NlaString (NL80211_ATTR_REG_ALPHA2 h) alpha2) msg with
    | None => goto_nla_put_failure r
    | Some msg =>
        match nla_nest_start w (NL80211_ATTR_REG_RULES h) msg with
        | None => goto_nla_put_failure (-1)
        | Some msg =>
            rm <- rules_loop db dblen i rcoll (Z.to_nat num_rules) 0 r msg ;;
            ret (fst rm, nla_nest_end (snd rm))
        end
    end.

(** [dblen = stat.st_size]: the length of the file, as an [int]. *)
Definition st_size_int : Z := to_int (Z.of_nat (List.length (regdb w))).

(** [mmap(NULL, dblen, PROT_READ, MAP_PRIVATE, fd, 0)]: the first [dblen]
    bytes of the file (all of it, for a file below 2 GiB). *)
Definition mapped_db : list byte :=
  firstn (Z.to_nat (to_size_t st_size_int)) (regdb w).

(** Lines 228-272: map the file, check the header, take the signature
    off [dblen].  The result is the mapped file with the adjusted [dblen],
    [siglen] and the header pointer. *)
Definition load_header : run (list byte * Z * Z * Z) :=
  emit (Call "open") ;;
  if negb (open_ok w) then
    perror "failed to open db file" ;;
    goto_out (- ENOENT)
  else
    emit (Call "fstat") ;;
    if negb (fstat_ok w) then
      perror "failed to fstat db file" ;;
      goto_out (- EIO)
    else
      let dblen := st_size_int in
      emit (CallLen "mmap" dblen) ;;
      if negb (mmap_ok w) then
        perror "failed to mmap db file" ;;
        goto_out (- EIO)
      else
        let db := mapped_db in
        header <- get_file_ptr db dblen (to_int sizeof_header) be32_zero ;;
        magic <- load_be32 db (header + off_magic) ;;
        if negb (ntohl magic =? to_u32 (REGDB_MAGIC h)) then
          fprintf_stderr "Invalid database magic" [] ;;
          goto_out (- EINVAL)
        else
          version <- load_be32 db (header + off_version) ;;
          if negb (ntohl version =? to_u32 (REGDB_VERSION h)) then
            fprintf_stderr "Invalid database version" [] ;;
            goto_out (- EINVAL)
          else
            signature_length <- load_be32 db (header + off_signature_length) ;;
            let siglen := to_int (ntohl signature_length) in
            let dblen := to_int (dblen - siglen) in
            if to_size_t dblen <=? sizeof_header then
              fprintf_stderr "Invalid signature length %d" [siglen] ;;
              goto_out (- EINVAL)
            else ret (db, dblen, siglen, header).

(** Lines 228-452. *)
Definition main_db (alpha2 : list byte) : run Empty_set :=
  hd <- load_header ;;
  let '(db, dblen, siglen, header) := hd in
  verify_signature db dblen siglen ;;
  ic <- find_country db dblen header alpha2 ;;
  rm <- build_message db dblen (fst ic) (snd ic) 0 ;;
  main_send (snd rm) (fst rm).

(** The statement among the declarations of [main], compiled in with
    [USE_GCRYPT]. *)
Definition main_declarations : run unit :=
  match crypto with
  | USE_GCRYPT _ => emit (Call "gcry_check_version")
  | _ => ret tt
  end.

Definition main : run Empty_set :=
  main_declarations ;;
  if negb (argc w =? 1) then
    fprintf_stderr "Usage: %s" [] ;;
    c_return (- EINVAL)
  else
    match getenv_COUNTRY w with
    | None =>
        fprintf_stderr "COUNTRY environment variable not set." [] ;;
        c_return (- EINVAL)
    | Some env_country =>
        if negb (c_true (is_alpha2 env_country))
           && negb (c_true (is_world_regdom env_country)) then
          fprintf_stderr "Invalid alpha2 set in COUNTRY" [] ;;
          c_return (- EINVAL)
        else
          let alpha2 := memcpy2 env_country in
          r <- nl80211_init w ;;
          if c_true r then c_return (- EIO)
          else main_db alpha2
    end.

End Main.

(** ** Concrete builds, worlds and database files *)

Module Fixtures.

(** The values of [linux/nl80211.h]; magic and version as in the
    specification's scenario. *)
Definition hdrs : headers :=
  {| REGDB_MAGIC := 0x52474442;
     REGDB_VERSION := 19;
     NL80211_CMD_SET_REG := 26;
     NL80211_ATTR_REG_ALPHA2 := 33;
     NL80211_ATTR_REG_RULES := 34;
     NL80211_ATTR_REG_RULE_FLAGS := 1;
     NL80211_ATTR_FREQ_RANGE_START := 2;
     NL80211_ATTR_FREQ_RANGE_END := 3;
     NL80211_ATTR_FREQ_RANGE_MAX_BW := 4;
     NL80211_ATTR_POWER_RULE_MAX_ANT_GAIN := 5;
     NL80211_ATTR_POWER_RULE_MAX_EIRP := 6 |}.

Definition be (z : Z) : list byte := be32_bytes (htonl z).

Definition chars (s : string) : list byte := list_byte_of_string s.

Definition key_a : pubkey := PubKey 65537 1001.
Definition key_b : pubkey := PubKey 65537 2002.

(** A world in which every library call succeeds, [COUNTRY] is [country],
    the database file is [db], keys are 4 bytes wide and exactly the key
    [signer] verifies a signature. *)
Definition world_of (country : string) (db : list byte) (signer : pubkey) : world :=
  {| argc := 1;
     getenv_COUNTRY := Some country;
     nl_handle_alloc_ok := true;
     genl_connect_ok := true;
     genl_ctrl_alloc_cache_ok := true;
     genl_ctrl_search_by_name_ok := true;
     genl_family_get_id := 17;
     nlmsg_alloc_ok := true;
     nla_room := fun _ => true;
     nl_cb_alloc_ok := true;
     nl_send_auto_complete := fun _ => 0;
     nl_wait_for_ack := AckReturn 0;
     open_ok := true;
     fstat_ok := true;
     mmap_ok := true;
     regdb := db;
     RSA_new_ok := true;
     SHA1_ok := true;
     SHA1 := fun _ => [];
     RSA_size := fun _ => 4;
     RSA_verify := fun k _ _ => (key_n k =? key_n signer);
     gcry_md_hash_buffer := fun _ => [];
     gcry_sexp_build_data_ok := true;
     gcry_sexp_build_sig_ok := true;
     gcry_mpi_scan_ok := fun _ => true;
     gcry_sexp_build_key_ok := fun _ => true;
     gcry_pk_verify := fun k _ _ => (key_n k =? key_n signer) |}.

(** One country, "US", with one rule; followed by a 4-byte signature. *)
Definition db_us : list byte :=
  (* 0: header *)
  be 0x52474442 ++ be 19 ++ be 4 ++ be 20 ++ be 1 ++
  (* 20: country table *)
  chars "US" ++ [x00; x00] ++ be 28 ++
  (* 28: rule collection *)
  be 1 ++ be 36 ++
  (* 36: rule *)
  be 0 ++ be 48 ++ be 60 ++
  (* 48: frequency range *)
  be 2400000 ++ be 2483500 ++ be 40000 ++
  (* 60: power rule *)
  be 0 ++ be 2000 ++
  (* 68: signature *)
  [x01; x02; x03; x04].

(** A 24-byte file whose header declares a signature of 100 bytes. *)
Definition db_siglen_100 : list byte :=
  be 0x52474442 ++ be 19 ++ be 100 ++ be 20 ++ be 0 ++
  [x00; x00; x00; x00].

(** A header declaring 1000 countries, a table of one ("DE"), and a 4-byte
    signature: 32 bytes, 28 of them usable. *)
Definition db_count_1000 : list byte :=
  be 0x52474442 ++ be 19 ++ be 4 ++ be 20 ++ be 1000 ++
  chars "DE" ++ [x00; x00] ++ be 28 ++
  [x01; x02; x03; x04].

(** As [db_us], with the rule pointer of the collection beyond the file. *)
Definition db_bad_rule_ptr : list byte :=
  be 0x52474442 ++ be 19 ++ be 4 ++ be 20 ++ be 1 ++
  chars "US" ++ [x00; x00] ++ be 28 ++
  be 1 ++ be 4096 ++
  be 0 ++ be 48 ++ be 60 ++
  be 2400000 ++ be 2483500 ++ be 40000 ++
  be 0 ++ be 2000 ++
  [x01; x02; x03; x04].

(** Three countries, "US" listed twice with different rule collections
    (of one rule and of no rule). *)
Definition db_duplicate_us : list byte :=
  (* 0: header *)
  be 0x52474442 ++ be 19 ++ be 4 ++ be 20 ++ be 3 ++
  (* 20: country table *)
  chars "DE" ++ [x00; x00] ++ be 44 ++
  chars "US" ++ [x00; x00] ++ be 48 ++
  chars "US" ++ [x00; x00] ++ be 44 ++
  (* 44: empty rule collection *)
  be 0 ++
  (* 48: rule collection of two rules *)
  be 2 ++ be 60 ++ be 72 ++
  (* 60: rule, 72: rule *)
  be 1 ++ be 84 ++ be 108 ++
  be 2 ++ be 96 ++ be 108 ++
  (* 84, 96: frequency ranges *)
  be 2400000 ++ be 2483500 ++ be 40000 ++
  be 5150000 ++ be 5250000 ++ be 80000 ++
  (* 108: power rule *)
  be 300 ++ be 2000 ++
  (* 116: signature *)
  [x01; x02; x03; x04].

Definition calls_before_open : list event :=
  [Call "nl_handle_alloc"; Call "genl_connect";
   Call "genl_ctrl_alloc_cache"; Call "genl_ctrl_search_by_name"].

(** The message sent for "US" from [db_duplicate_us]. *)
Definition msg_duplicate_us : nl_msg :=
  {| nm_family := 17;
     nm_cmd := 26;
     nm_attrs :=
       [NlaString 33 (chars "US");
        NlaNested 34
          [NlaNested 1
             [NlaU32 1 1; NlaU32 2 2400000; NlaU32 3 2483500;
              NlaU32 4 40000; NlaU32 5 300; NlaU32 6 2000];
           NlaNested 1
             [NlaU32 1 2; NlaU32 2 5150000; NlaU32 3 5250000;
              NlaU32 4 80000; NlaU32 5 300; NlaU32 6 2000]]];
     nm_open := [] |}.

(** A 10-byte file: magic, version, and two more bytes. *)
Definition db_10_bytes : list byte :=
  be 0x52474442 ++ be 19 ++ [x00; x00].

(** A 24-byte file whose signed part is exactly the header: the header
    declares a signature of 4 bytes. *)
Definition db_header_only : list byte :=
  be 0x52474442 ++ be 19 ++ be 4 ++ be 20 ++ be 0 ++
  [x01; x02; x03; x04].

(** As [db_us], with a rule count whose top bit is set. *)
Definition db_count_top_bit : list byte :=
  be 0x52474442 ++ be 19 ++ be 4 ++ be 20 ++ be 1 ++
  chars "US" ++ [x00; x00] ++ be 28 ++
  be 0xFFFFFFFF ++ be 36 ++
  be 0 ++ be 48 ++ be 60 ++
  be 2400000 ++ be 2483500 ++ be 40000 ++
  be 0 ++ be 2000 ++
  [x01; x02; x03; x04].

(** The message sent for "US" from [db_count_top_bit]. *)
Definition msg_no_rules : nl_msg :=
  {| nm_family := 17;
     nm_cmd := 26;
     nm_attrs := [NlaString 33 (chars "US"); NlaNested 34 []];
     nm_open := [] |}.

(** The world [w] with a generic netlink that refuses the connection. *)
Definition netlink_down (w : world) : world :=
  {| argc := argc w;
     getenv_COUNTRY := getenv_COUNTRY w;
     nl_handle_alloc_ok := nl_handle_alloc_ok w;
     genl_connect_ok := false;
     genl_ctrl_alloc_cache_ok := genl_ctrl_alloc_cache_ok w;
     genl_ctrl_search_by_name_ok := genl_ctrl_search_by_name_ok w;
     genl_family_get_id := genl_family_get_id w;
     nlmsg_alloc_ok := nlmsg_alloc_ok w;
     nla_room := nla_room w;
     nl_cb_alloc_ok := nl_cb_alloc_ok w;
     nl_send_auto_complete := nl_send_auto_complete w;
     nl_wait_for_ack := nl_wait_for_ack w;
     open_ok := open_ok w;
     fstat_ok := fstat_ok w;
     mmap_ok := mmap_ok w;
     regdb := regdb w;
     RSA_new_ok := RSA_new_ok w;
     SHA1_ok := SHA1_ok w;
     SHA1 := SHA1 w;
     RSA_size := RSA_size w;
     RSA_verify := RSA_verify w;
     gcry_md_hash_buffer := gcry_md_hash_buffer w;
     gcry_sexp_build_data_ok := gcry_sexp_build_data_ok w;
     gcry_sexp_build_sig_ok := gcry_sexp_build_sig_ok w;
     gcry_mpi_scan_ok := gcry_mpi_scan_ok w;
     gcry_sexp_build_key_ok := gcry_sexp_build_key_ok w;
     gcry_pk_verify := gcry_pk_verify w |}.

(** The world [w] with a netlink message that has no room for any
    attribute. *)
Definition no_room (w : world) : world :=
  {| argc := argc w;
     getenv_COUNTRY := getenv_COUNTRY w;
     nl_handle_alloc_ok := nl_handle_alloc_ok w;
     genl_connect_ok := genl_connect_ok w;
     genl_ctrl_alloc_cache_ok := genl_ctrl_alloc_cache_ok w;
     genl_ctrl_search_by_name_ok := genl_ctrl_search_by_name_ok w;
     genl_family_get_id := genl_family_get_id w;
     nlmsg_alloc_ok := nlmsg_alloc_ok w;
     nla_room := fun _ => false;
     nl_cb_alloc_ok := nl_cb_alloc_ok w;
     nl_send_auto_complete := nl_send_auto_complete w;
     nl_wait_for_ack := nl_wait_for_ack w;
     open_ok := open_ok w;
     fstat_ok := fstat_ok w;
     mmap_ok := mmap_ok w;
     regdb := regdb w;
     RSA_new_ok := RSA_new_ok w;
     SHA1_ok := SHA1_ok w;
     SHA1 := SHA1 w;
     RSA_size := RSA_size w;
     RSA_verify := RSA_verify w;
     gcry_md_hash_buffer := gcry_md_hash_buffer w;
     gcry_sexp_build_data_ok := gcry_sexp_build_data_ok w;
     gcry_sexp_build_sig_ok := gcry_sexp_build_sig_ok w;
     gcry_mpi_scan_ok := gcry_mpi_scan_ok w;
     gcry_sexp_build_key_ok := gcry_sexp_build_key_ok w;
     gcry_pk_verify := gcry_pk_verify w |}.

(** The world [w] started with [n] as [argc]. *)
Definition with_argc (n : Z) (w : world) : world :=
  {| argc := n;
     getenv_COUNTRY := getenv_COUNTRY w;
     nl_handle_alloc_ok := nl_handle_alloc_ok w;
     genl_connect_ok := genl_connect_ok w;
     genl_ctrl_alloc_cache_ok := genl_ctrl_alloc_cache_ok w;
     genl_ctrl_search_by_name_ok := genl_ctrl_search_by_name_ok w;
     genl_family_get_id := genl_family_get_id w;
     nlmsg_alloc_ok := nlmsg_alloc_ok w;
     nla_room := nla_room w;
     nl_cb_alloc_ok := nl_cb_alloc_ok w;
     nl_send_auto_complete := nl_send_auto_complete w;
     nl_wait_for_ack := nl_wait_for_ack w;
     open_ok := open_ok w;
     fstat_ok := fstat_ok w;
     mmap_ok := mmap_ok w;
     regdb := regdb w;
     RSA_new_ok := RSA_new_ok w;
     SHA1_ok := SHA1_ok w;
     SHA1 := SHA1 w;
     RSA_size := RSA_size w;
     RSA_verify := RSA_verify w;
     gcry_md_hash_buffer := gcry_md_hash_buffer w;
     gcry_sexp_build_data_ok := gcry_sexp_build_data_ok w;
     gcry_sexp_build_sig_ok := gcry_sexp_build_sig_ok w;
     gcry_mpi_scan_ok := gcry_mpi_scan_ok w;
     gcry_sexp_build_key_ok := gcry_sexp_build_key_ok w;
     gcry_pk_verify := gcry_pk_verify w |}.

End Fixtures.

(** ** Validation of the requested country code *)

Definition upper_letter (c : ascii) : Prop := 65 <= Z.of_N (N_of_ascii c) <= 90.

(** The requested code as the interface describes it: a 2-letter uppercase
    alpha-2 code, or the sentinel "00". *)
Definition alpha2_or_world (s : string) : Prop :=
  (exists c0 c1, s = String c0 (String c1 EmptyString) /\ upper_letter c0 /\ upper_letter c1)
  \/ s = "00"%string.

(** What the program looks at: the first two characters of the string. *)
Definition first_two_upper (s : string) : Prop :=
  65 <= char_at s 0 <= 90 /\ 65 <= char_at s 1 <= 90.

Definition first_two_zero (s : string) : Prop :=
  char_at s 0 = 48 /\ char_at s 1 = 48.

Definition invalid_alpha2 : run Empty_set :=
  Run [Stderr "Invalid alpha2 set in COUNTRY" []] (Return (- EINVAL)).

Definition char_byte (c : ascii) : byte := byte_of_Z (Z.of_N (N_of_ascii c)).

(** The diagnostic of [get_file_ptr]. *)
Definition bad_pointer : event := Stderr "Invalid database file, bad pointer!" [].

(** ** The country table, as the specification reads it *)

(** The 2-byte code of record [i] of the table at [countries]. *)
Definition country_code (db : list byte) (countries i : Z) : option (list byte) :=
  Mem.load_bytes db (countries + sizeof_reg_country * i + off_alpha2) 2.

(** Record [i] is the first of the [n] records whose code is [alpha2]. *)
Definition first_match (db : list byte) (countries : Z) (alpha2 : list byte)
    (n i : Z) : Prop :=
  0 <= i < n /\
  country_code db countries i = Some alpha2 /\
  forall k, 0 <= k < i -> country_code db countries k <> Some alpha2.

Definition no_match (db : list byte) (countries : Z) (alpha2 : list byte)
    (n : Z) : Prop :=
  forall k, 0 <= k < n -> country_code db countries k <> Some alpha2.

Definition country_not_found : run (Z * Z) :=
  Run [Stderr "failed to find a country match in regulatory database" []]
      (Return (-1)).

(** ** The rules of a collection, as the specification reads them *)

Record reg_rule : Type := RegRule {
  rr_flags : Z;
  rr_start_freq : Z;
  rr_end_freq : Z;
  rr_max_bandwidth : Z;
  rr_max_antenna_gain : Z;
  rr_max_eirp : Z
}.

(** The 32-bit field stored at [off], in host byte order. *)
Definition field (db : list byte) (off : Z) : option Z :=
  option_map ntohl (Mem.load_be32 db off).

(** The rule record at [rule] with its frequency range and power rule. *)
Definition rule_at (db : list byte) (rule : Z) : option reg_rule :=
  match field db (rule + off_flags),
        field db (rule + off_freq_range_ptr),
        field db (rule + off_power_rule_ptr) with
  | Some flags, Some freq, Some power =>
      match field db (freq + off_start_freq),
            field db (freq + off_end_freq),
            field db (freq + off_max_bandwidth),
            field db (power + off_max_antenna_gain),
            field db (power + off_max_eirp) with
      | Some s, Some e, Some bw, Some gain, Some eirp =>
          Some (RegRule flags s e bw gain eirp)
      | _, _, _, _, _ => None
      end
  | _, _, _ => None
  end.

(** The [n] rules that the pointers [j], [j+1], ... of the collection at
    [rcoll] designate, in the order of the pointers. *)
Fixpoint decode_rules (db : list byte) (rcoll : Z) (n : nat) (j : Z)
  : option (list reg_rule) :=
  match n with
  | O => Some []
  | S n' =>
      match field db (rcoll + off_reg_rule_ptrs + sizeof_be32 * j) with
      | Some rule =>
          match rule_at db rule, decode_rules db rcoll n' (j + 1) with
          | Some r, Some rs => Some (r :: rs)
          | _, _ => None
          end
      | None => None
      end
  end.

(** The six attributes of a rule. *)
Definition rule_attrs (h : headers) (r : reg_rule) : list nlattr :=
  [NlaU32 (NL80211_ATTR_REG_RULE_FLAGS h) (rr_flags r);
   NlaU32 (NL80211_ATTR_FREQ_RANGE_START h) (rr_start_freq r);
   NlaU32 (NL80211_ATTR_FREQ_RANGE_END h) (rr_end_freq r);
   NlaU32 (NL80211_ATTR_FREQ_RANGE_MAX_BW h) (rr_max_bandwidth r);
   NlaU32 (NL80211_ATTR_POWER_RULE_MAX_ANT_GAIN h) (rr_max_antenna_gain r);
   NlaU32 (NL80211_ATTR_POWER_RULE_MAX_EIRP h) (rr_max_eirp r)].

(** A run that sends no message. *)
Definition quiet {A} (m : run A) : Prop := forall msg, ~ In (Send msg) (trace m).

(** ** Where the process can be terminated from *)

Definition nl80211_error (err_error : Z) : event :=
  Stderr "nl80211 error %d" [err_error].

(** A run that ends in [exit] does so either in [get_file_ptr], with
    status 3 right after its diagnostic, or in [error_handler], with the
    error code that the netlink reply carried. *)
Definition exit_origin (w : world) {A} (m : run A) : Prop :=
  forall status,
    result m = Exit status ->
    (status = 3 /\ exists t, trace m = t ++ [bad_pointer])
    \/
    (nl_wait_for_ack w = AckError status /\
     exists t, trace m = t ++ [nl80211_error status]).

(** ** The key table, as the specification reads it *)

(** The keys on which the signature is checked, in table order, up to and
    including the first that verifies it; [size_ok] is the guard on the
    key size of the OpenSSL build. *)
Fixpoint keys_tried (size_ok verifies : pubkey -> bool) (keys : list pubkey)
  : list pubkey :=
  match keys with
  | [] => []
  | k :: rest =>
      if size_ok k then
        k :: (if verifies k then [] else keys_tried size_ok verifies rest)
      else keys_tried size_ok verifies rest
  end.

(** ** The decoder, as the specification describes it *)

(** The resolver of the specification: a record of [record_size] bytes at
    [offset] is granted when it ends inside the usable length. *)
Definition resolve (usable_len record_size offset : Z) : option Z :=
  if offset + record_size <=? usable_len then Some offset else None.

(** Step 5 of the decoder: the rule record, then its frequency range and
    its power rule, each resolved on its own. *)
Definition decode_rule (db : list byte) (dblen ruleptr : Z) : option reg_rule :=
  match resolve dblen sizeof_reg_rule ruleptr with
  | None => None
  | Some rule =>
      match field db (rule + off_freq_range_ptr) with
      | None => None
      | Some freq_ptr =>
          match resolve dblen sizeof_freq_range freq_ptr with
          | None => None
          | Some freq =>
              match field db (rule + off_power_rule_ptr) with
              | None => None
              | Some power_ptr =>
                  match resolve dblen sizeof_power_rule power_ptr with
                  | None => None
                  | Some power => rule_at db rule
                  end
              end
          end
      end
  end.

(** The rules behind the pointers [j], [j+1], ... of a collection. *)
Fixpoint decode_rule_list (db : list byte) (dblen rcoll : Z) (n : nat) (j : Z)
  : option (list reg_rule) :=
  match n with
  | O => Some []
  | S n' =>
      match field db (rcoll + off_reg_rule_ptrs + sizeof_be32 * j) with
      | None => None
      | Some ruleptr =>
          match decode_rule db dblen ruleptr,
                decode_rule_list db dblen rcoll n' (j + 1) with
          | Some r, Some rs => Some (r :: rs)
          | _, _ => None
          end
      end
  end.

(** Steps 4 and 5: resolve the collection header of the country record at
    [country], read the count, resolve the collection again with room for
    that many pointers, and decode the rules in order. *)
Definition decode_collection (db : list byte) (dblen country : Z)
  : option (list reg_rule) :=
  match field db (country + off_reg_collection_ptr) with
  | None => None
  | Some ptr =>
      match resolve dblen sizeof_rcoll ptr with
      | None => None
      | Some rcoll =>
          match field db (rcoll + off_reg_rule_num) with
          | None => None
          | Some rule_count =>
              match resolve dblen (sizeof_rcoll + rule_count * sizeof_be32) ptr with
              | None => None
              | Some rcoll =>
                  decode_rule_list db dblen rcoll (Z.to_nat rule_count) 0
              end
          end
      end
  end.

(** The attribute tree for a country code and its rules: the code, then
    the rules container with one nested container of attribute type
    [attrtype] per rule. *)
Definition attribute_tree (h : headers) (attrtype : Z) (alpha2 : list byte)
    (rules : list reg_rule) : list nlattr :=
  [NlaString (NL80211_ATTR_REG_ALPHA2 h) alpha2;
   NlaNested (NL80211_ATTR_REG_RULES h)
     (map (fun rule => NlaNested attrtype (rule_attrs h rule)) rules)].

(** ** Expected results on the concrete files *)

(** The two rules of the first "US" record of [db_duplicate_us]. *)
Definition rules_duplicate_us : list reg_rule :=
  [RegRule 1 2400000 2483500 40000 300 2000;
   RegRule 2 5150000 5250000 80000 300 2000].

(** ** Runs that stay inside the file *)

(** A run that makes no read outside the mapped file. *)
Definition no_fault {A} (m : run A) : Prop := result m <> Fault.

(** ** Releasing the message *)

(** A run in which the event [e] does not occur. *)
Definition avoids {A} (e : event) (m : run A) : Prop := ~ In e (trace m).

(** What [nla_put_failure] and [out] do before [main] returns. *)
Definition release_calls : list event :=
  [Call "nlmsg_free"; Call "genl_family_put"; Call "nl_cache_free";
   Call "nl_handle_destroy"].

(** A run that, when it makes [main] return, has just freed the message
    and cleaned up netlink. *)
Definition released {A} (m : run A) : Prop :=
  forall r, result m = Return r -> exists t, trace m = t ++ release_calls.

(** The same, for the runs in which the message was set up. *)
Definition released_once_put {A} (m : run A) : Prop :=
  forall r, result m = Return r -> In (Call "genlmsg_put") (trace m) ->
            exists t, trace m = t ++ release_calls.

(** ** Failures that [main] handles itself *)

(** What the failure branches of [main] do first: they print a diagnostic
    (other than the two that precede [exit]), or they jump to one of the
    labels [cb_out], [nla_put_failure] and [out], whose first statements
    are the calls of [nl_cb_put], of [nlmsg_free] and, in
    [nl80211_cleanup], of [genl_family_put].  A failed attribute put and a
    failed [nl_cb_alloc] jump without a diagnostic. *)
Definition failure_mark (e : event) : bool :=
  match e with
  | Stderr fmt _ =>
      negb (String.eqb fmt "Invalid database file, bad pointer!")
      && negb (String.eqb fmt "nl80211 error %d")
  | Perror _ => true
  | Call fn =>
      String.eqb fn "nl_cb_put" || String.eqb fn "nlmsg_free"
      || String.eqb fn "genl_family_put"
  | CallLen _ _ => false
  | CallKey _ _ => false
  | Send _ => false
  end.

(** A run in which such a mark is followed by [main] returning. *)
Definition returns_on_failure {A} (m : run A) : Prop :=
  forall e, failure_mark e = true -> In e (trace m) ->
            exists r, result m = Return r.

(** The world [w] in which every attribute put finds room in the
    message; runs in [w] are compared with runs in it to tell what a
    failed put changes. *)
Definition all_room (w : world) : world :=
  {| argc := argc w;
     getenv_COUNTRY := getenv_COUNTRY w;
     nl_handle_alloc_ok := nl_handle_alloc_ok w;
     genl_connect_ok := genl_connect_ok w;
     genl_ctrl_alloc_cache_ok := genl_ctrl_alloc_cache_ok w;
     genl_ctrl_search_by_name_ok := genl_ctrl_search_by_name_ok w;
     genl_family_get_id := genl_family_get_id w;
     nlmsg_alloc_ok := nlmsg_alloc_ok w;
     nla_room := fun _ => true;
     nl_cb_alloc_ok := nl_cb_alloc_ok w;
     nl_send_auto_complete := nl_send_auto_complete w;
     nl_wait_for_ack := nl_wait_for_ack w;
     open_ok := open_ok w;
     fstat_ok := fstat_ok w;
     mmap_ok := mmap_ok w;
     regdb := regdb w;
     RSA_new_ok := RSA_new_ok w;
     SHA1_ok := SHA1_ok w;
     SHA1 := SHA1 w;
     RSA_size := RSA_size w;
     RSA_verify := RSA_verify w;
     gcry_md_hash_buffer := gcry_md_hash_buffer w;
     gcry_sexp_build_data_ok := gcry_sexp_build_data_ok w;
     gcry_sexp_build_sig_ok := gcry_sexp_build_sig_ok w;
     gcry_mpi_scan_ok := gcry_mpi_scan_ok w;
     gcry_sexp_build_key_ok := gcry_sexp_build_key_ok w;
     gcry_pk_verify := gcry_pk_verify w |}.

(** A run that made [main] return without having sent a message. *)
Definition returned_unsent {A} (m : run A) : Prop :=
  (exists r, result m = Return r) /\ quiet m.

(** * Properties *)

(** ** Machine integers and bytes *)

Lemma to_int_range z : is_int (to_int z).
Proof.
  unfold is_int, to_int, INT_MIN, INT_MAX.
  pose proof (Z.mod_pos_bound (z + 2 ^ 31) (2 ^ 32) ltac:(lia)). lia.
Qed.

Lemma to_int_id z : is_int z -> to_int z = z.
Proof.
  unfold is_int, to_int, INT_MIN, INT_MAX. intros H.
  rewrite Z.mod_small; lia.
Qed.

Lemma to_u32_nonneg z : 0 <= z < 2 ^ 32 -> to_u32 z = z.
Proof. intros H. unfold to_u32. now apply Z.mod_small. Qed.

Lemma to_u32_neg z : - 2 ^ 32 <= z < 0 -> to_u32 z = z + 2 ^ 32.
Proof.
  intros H. unfold to_u32.
  symmetry. apply Z.mod_unique with (q := -1); lia.
Qed.

Lemma to_size_t_nonneg z : 0 <= z < 2 ^ 64 -> to_size_t z = z.
Proof. intros H. unfold to_size_t. now apply Z.mod_small. Qed.

Lemma to_size_t_neg z : - 2 ^ 64 <= z < 0 -> to_size_t z = z + 2 ^ 64.
Proof.
  intros H. unfold to_size_t.
  symmetry. apply Z.mod_unique with (q := -1); lia.
Qed.

Lemma u8_range b : 0 <= u8 b < 256.
Proof.
  unfold u8. pose proof (Byte.to_N_bounded b). lia.
Qed.

Lemma ntohl_range x : 0 <= ntohl x < 2 ^ 32.
Proof.
  unfold ntohl.
  pose proof (u8_range (be_b0 x)). pose proof (u8_range (be_b1 x)).
  pose proof (u8_range (be_b2 x)). pose proof (u8_range (be_b3 x)).
  assert (Hlt : forall a n, 0 <= a < 256 -> 0 <= n -> 0 <= Z.shiftl a n < 2 ^ (8 + n)).
  { intros a n Ha Hn. rewrite Z.shiftl_mul_pow2 by lia.
    rewrite Z.pow_add_r by lia. change (2 ^ 8) with 256.
    pose proof (Z.pow_pos_nonneg 2 n ltac:(lia) Hn). nia. }
  assert (Hor : forall a b n, 0 < n -> 0 <= a < 2 ^ n -> 0 <= b < 2 ^ n ->
                              0 <= Z.lor a b < 2 ^ n).
  { intros a b n Hn Ha Hb. split.
    - apply Z.lor_nonneg; lia.
    - destruct (Z.eq_dec (Z.lor a b) 0) as [->|Hnz].
      + apply Z.pow_pos_nonneg; lia.
      + apply Z.log2_lt_pow2.
        * assert (0 <= Z.lor a b) by (apply Z.lor_nonneg; lia). lia.
        * rewrite Z.log2_lor by lia.
          apply Z.max_lub_lt.
          -- destruct (Z.eq_dec a 0) as [->|]; [simpl; lia|].
             apply Z.log2_lt_pow2; lia.
          -- destruct (Z.eq_dec b 0) as [->|]; [simpl; lia|].
             apply Z.log2_lt_pow2; lia. }
  pose proof (Hlt _ 24 H ltac:(lia)) as H24.
  pose proof (Hlt _ 16 H0 ltac:(lia)) as H16.
  pose proof (Hlt _ 8 H1 ltac:(lia)) as H8.
  change (8 + 24) with 32 in H24. change (8 + 16) with 24 in H16.
  change (8 + 8) with 16 in H8.
  apply Hor; [lia | lia |].
  assert (0 <= Z.lor (Z.shiftl (u8 (be_b1 x)) 16)
                (Z.lor (Z.shiftl (u8 (be_b2 x)) 8) (u8 (be_b3 x))) < 2 ^ 24).
  { apply Hor; [lia | lia |].
    assert (0 <= Z.lor (Z.shiftl (u8 (be_b2 x)) 8) (u8 (be_b3 x)) < 2 ^ 16).
    { apply Hor; lia. }
    lia. }
  lia.
Qed.

(** ** The mapped file *)

Lemma load_bytes_length db off n v :
  Mem.load_bytes db off n = Some v -> Z.of_nat (List.length v) = n.
Proof.
  unfold Mem.load_bytes.
  destruct ((0 <=? off) && (0 <=? n) && (off + n <=? Z.of_nat (List.length db))) eqn:E;
    [|discriminate].
  intros [= <-].
  apply andb_true_iff in E as [E E3]. apply andb_true_iff in E as [E1 E2].
  apply Z.leb_le in E1, E2, E3.
  rewrite length_firstn, length_skipn. lia.
Qed.

Lemma load_bytes_in_bounds db off n :
  0 <= off -> 0 <= n -> off + n <= Z.of_nat (List.length db) ->
  exists v, Mem.load_bytes db off n = Some v.
Proof.
  intros H1 H2 H3. unfold Mem.load_bytes.
  apply Z.leb_le in H1, H2, H3. rewrite H1, H2, H3. simpl. eauto.
Qed.

Lemma load_bytes_some db off n v :
  Mem.load_bytes db off n = Some v ->
  0 <= off /\ 0 <= n /\ off + n <= Z.of_nat (List.length db).
Proof.
  unfold Mem.load_bytes.
  destruct ((0 <=? off) && (0 <=? n) && (off + n <=? Z.of_nat (List.length db))) eqn:E;
    [|discriminate].
  intros _.
  apply andb_true_iff in E as [E E3]. apply andb_true_iff in E as [E1 E2].
  apply Z.leb_le in E1, E2, E3. auto.
Qed.

Lemma field_some db off x :
  field db off = Some x ->
  exists v, Mem.load_be32 db off = Some v /\ ntohl v = x.
Proof.
  unfold field. destruct (Mem.load_be32 db off) as [v|]; simpl; [|discriminate].
  intros [= <-]. eauto.
Qed.

(** A file below 2 GiB is mapped whole. *)
Lemma mapped_db_all w :
  Z.of_nat (List.length (regdb w)) <= INT_MAX ->
  st_size_int w = Z.of_nat (List.length (regdb w)) /\ mapped_db w = regdb w.
Proof.
  intros H. unfold INT_MAX in H.
  assert (E : st_size_int w = Z.of_nat (List.length (regdb w))).
  { unfold st_size_int. apply to_int_id.
    unfold is_int, INT_MIN, INT_MAX. lia. }
  split; [exact E|].
  unfold mapped_db. rewrite E, to_size_t_nonneg by lia.
  rewrite Nat2Z.id. apply firstn_all.
Qed.

(** ** Runs *)

Lemma run_eta {A} (m : run A) : m = Run (trace m) (result m).
Proof. now destruct m. Qed.

Lemma bind_ret_l {A B} (a : A) (f : A -> run B) : bind (ret a) f = f a.
Proof. unfold bind, ret; simpl. now destruct (f a). Qed.

Lemma bind_cont {A B} (m : run A) (f : A -> run B) t a :
  m = Run t (Cont a) -> bind m f = Run (t ++ trace (f a)) (result (f a)).
Proof. intros ->. reflexivity. Qed.

Lemma bind_emit {B} (e : event) (f : unit -> run B) :
  bind (emit e) f = Run (e :: trace (f tt)) (result (f tt)).
Proof. reflexivity. Qed.

Lemma bind_nil_cont {A B} (a : A) (f : A -> run B) :
  bind (Run [] (Cont a)) f = f a.
Proof. unfold bind; simpl. now destruct (f a). Qed.

(** A bind continues exactly when its first part does. *)
Lemma bind_Cont_inv {A B} (m : run A) (f : A -> run B) t b :
  bind m f = Run t (Cont b) ->
  exists a t1 t2, m = Run t1 (Cont a) /\ f a = Run t2 (Cont b) /\ t = t1 ++ t2.
Proof.
  destruct m as [t1 [a| | |]]; unfold bind; simpl; intros H; try discriminate.
  exists a, t1, (trace (f a)). inversion H; subst.
  repeat split. rewrite (run_eta (f a)) at 1. now f_equal.
Qed.

Lemma bind_result_Cont {A B} (m : run A) (f : A -> run B) b :
  result (bind m f) = Cont b ->
  exists a, result m = Cont a /\ result (f a) = Cont b.
Proof.
  destruct m as [t1 [a| | |]]; unfold bind; simpl; intros H; try discriminate.
  eauto.
Qed.

(** An event of a bind comes from one of its two parts. *)
Lemma bind_trace_In {A B} (m : run A) (f : A -> run B) e :
  In e (trace (bind m f)) ->
  In e (trace m) \/ exists a, result m = Cont a /\ In e (trace (f a)).
Proof.
  destruct m as [t1 [a| | |]]; unfold bind; simpl; auto.
  intros H. apply in_app_or in H as [H|H]; eauto.
Qed.

Lemma bind_result_Exit {A B} (m : run A) (f : A -> run B) c :
  result (bind m f) = Exit c ->
  result m = Exit c \/ exists a, result m = Cont a /\ result (f a) = Exit c.
Proof.
  destruct m as [t1 [a| | |]]; unfold bind; simpl; intros H;
    try discriminate; [right; exists a; auto | left; now inversion H].
Qed.

Lemma result_Cont_eta {A} (m : run A) a :
  result m = Cont a -> m = Run (trace m) (Cont a).
Proof. destruct m; simpl; now intros ->. Qed.

Lemma of_load_Cont {A} (o : option A) t v :
  of_load o = Run t (Cont v) -> o = Some v /\ t = [].
Proof. destruct o; simpl; intros H; inversion H; auto. Qed.

Lemma load_be32_some db off v :
  Mem.load_be32 db off = Some v -> load_be32 db off = Run [] (Cont v).
Proof. unfold load_be32. now intros ->. Qed.

Lemma field_load_be32 db off x :
  field db off = Some x ->
  exists v, load_be32 db off = Run [] (Cont v) /\ ntohl v = x.
Proof.
  intros H. apply field_some in H as (v & Hv & E).
  exists v. split; [now apply load_be32_some | exact E].
Qed.

Lemma load_be32_Cont db off t v :
  load_be32 db off = Run t (Cont v) -> field db off = Some (ntohl v) /\ t = [].
Proof.
  unfold load_be32, field. intros H. apply of_load_Cont in H as [-> ->]. auto.
Qed.

(** ** The bounded pointer resolver *)

(** [get_file_ptr] has two ways to end: it hands back the offset, or it
    prints its diagnostic and exits with status 3. *)
Lemma get_file_ptr_cases db dblen structlen ptr :
  (to_u32 (to_int (dblen - structlen)) < ntohl ptr /\
   get_file_ptr db dblen structlen ptr = Run [bad_pointer] (Exit 3))
  \/
  (ntohl ptr <= to_u32 (to_int (dblen - structlen)) /\
   get_file_ptr db dblen structlen ptr = Run [] (Cont (ntohl ptr))).
Proof.
  unfold get_file_ptr.
  destruct (to_u32 (to_int (dblen - structlen)) <? ntohl ptr) eqn:E.
  - left. apply Z.ltb_lt in E. split; [exact E | reflexivity].
  - right. apply Z.ltb_ge in E. split; [exact E | reflexivity].
Qed.

Lemma get_file_ptr_Cont db dblen structlen ptr t p :
  get_file_ptr db dblen structlen ptr = Run t (Cont p) ->
  t = [] /\ p = ntohl ptr /\ ntohl ptr <= to_u32 (to_int (dblen - structlen)).
Proof.
  destruct (get_file_ptr_cases db dblen structlen ptr) as [[_ ->]|[H ->]];
    intros E; inversion E; auto.
Qed.

(** With a record size between 0 and the usable length the check is the
    intended one: it fails exactly when the record would end after the
    usable length, and otherwise the [structlen] bytes at the offset are
    inside every file at least [dblen] long. *)
Lemma get_file_ptr_in_range db dblen structlen ptr :
  0 <= structlen <= dblen -> dblen <= INT_MAX ->
  (dblen < ntohl ptr + structlen ->
   get_file_ptr db dblen structlen ptr = Run [bad_pointer] (Exit 3))
  /\
  (ntohl ptr + structlen <= dblen ->
   get_file_ptr db dblen structlen ptr = Run [] (Cont (ntohl ptr)) /\
   (dblen <= Z.of_nat (List.length db) ->
    exists view, Mem.load_bytes db (ntohl ptr) structlen = Some view /\
                 Z.of_nat (List.length view) = structlen)).
Proof.
  intros Hs Hd. unfold INT_MAX in Hd.
  assert (E : to_u32 (to_int (dblen - structlen)) = dblen - structlen).
  { rewrite to_int_id by (unfold is_int, INT_MIN, INT_MAX; lia).
    apply to_u32_nonneg. lia. }
  pose proof (ntohl_range ptr) as Hp.
  destruct (get_file_ptr_cases db dblen structlen ptr) as [[H ->]|[H ->]];
    rewrite E in H; split; intros H'; try lia; try reflexivity.
  split; [reflexivity|]. intros Hlen.
  destruct (load_bytes_in_bounds db (ntohl ptr) structlen) as [v Hv]; try lia.
  exists v. split; [exact Hv|]. eapply load_bytes_length; eauto.
Qed.

(** Past the intended range: a record size above the usable length is
    accepted for every offset up to [2^32 - (structlen - dblen)]. *)
Lemma get_file_ptr_oversized db dblen structlen ptr :
  0 <= dblen < structlen -> structlen <= INT_MAX ->
  ntohl ptr <= 2 ^ 32 - (structlen - dblen) ->
  get_file_ptr db dblen structlen ptr = Run [] (Cont (ntohl ptr)).
Proof.
  unfold INT_MAX. intros Hd Hs Hp.
  destruct (get_file_ptr_cases db dblen structlen ptr) as [[H _]|[_ ->]];
    [|reflexivity].
  rewrite to_int_id in H by (unfold is_int, INT_MIN, INT_MAX; lia).
  rewrite to_u32_neg in H by lia. lia.
Qed.

Lemma resolve_some usable_len size offset p :
  resolve usable_len size offset = Some p ->
  p = offset /\ offset + size <= usable_len.
Proof.
  unfold resolve. destruct (Z.leb_spec (offset + size) usable_len);
    [|discriminate].
  intros [= <-]. auto.
Qed.

(** What the resolver of the specification grants, [get_file_ptr] grants,
    for a usable length and a record size in the range of [int]. *)
Lemma resolve_get_file_ptr db dblen size ptr p :
  0 <= size -> dblen <= INT_MAX ->
  resolve dblen size (ntohl ptr) = Some p ->
  get_file_ptr db dblen size ptr = Run [] (Cont p).
Proof.
  unfold resolve. intros Hs Hd.
  destruct (Z.leb_spec (ntohl ptr + size) dblen) as [Hle|]; [|discriminate].
  intros [= <-]. pose proof (ntohl_range ptr).
  apply get_file_ptr_in_range; lia.
Qed.

Ltac inv_option H :=
  match type of H with
  | match ?x with _ => _ end = Some _ =>
      let E := fresh "E" in destruct x eqn:E; [|discriminate H]
  end.

(** C1.  A record size larger than the usable length is not refused: with
    a usable length of 10, a record size of 20 and offset 0 (the header
    lookup of [main] on a 10-byte file), [dblen - structlen] is -10, which
    the comparison reads as the unsigned 4294967286, and [get_file_ptr]
    returns the pointer instead of printing its diagnostic and exiting. *)
Theorem get_file_ptr_oversized_record_accepted :
  forall db : list byte,
    to_u32 (to_int (10 - 20)) = 4294967286 /\
    get_file_ptr db 10 20 be32_zero = Run [] (Cont 0).
Proof.
  intros db. split; reflexivity.
Qed.

(** The same on a file: [main] on a 10-byte file with a good magic and
    version takes the header pointer, and reads the signature length past
    the end of the mapping. *)
Lemma ten_byte_file_read_past_end :
  main Fixtures.hdrs (USE_OPENSSL [Fixtures.key_a])
       (Fixtures.world_of "US" Fixtures.db_10_bytes Fixtures.key_a) =
  Run (Fixtures.calls_before_open ++
       [Call "open"; Call "fstat"; CallLen "mmap" 10])
      Fault.
Proof.
  vm_compute. reflexivity.
Qed.

(** ** Tactics that take a completed run apart *)

(** Splits a bind that continued into its two parts. *)
Tactic Notation "inv_bind" hyp(H) "as" ident(a) ident(Hm) :=
  let t1 := fresh "t" in
  let t2 := fresh "t" in
  let Ht := fresh "Ht" in
  apply bind_Cont_inv in H as (a & t1 & t2 & Hm & H & Ht).

Ltac inv_load H v Hv :=
  let Hm := fresh "Hm" in
  inv_bind H as v Hm; apply load_be32_Cont in Hm as [Hv _].

Ltac inv_get H p :=
  let Hm := fresh "Hm" in
  inv_bind H as p Hm; apply get_file_ptr_Cont in Hm as (_ & -> & _).

Ltac put_ok H w :=
  match type of H with
  | context [nla_room w ?m] => destruct (nla_room w m); [|inversion H]
  end.

(** ** The requested country code *)

Lemma isalpha_upper_true letter :
  c_true (isalpha_upper letter) = true <-> 65 <= letter <= 90.
Proof.
  unfold isalpha_upper, c_true.
  destruct (65 <=? letter) eqn:E1; destruct (letter <=? 90) eqn:E2; simpl;
    try apply Z.leb_le in E1; try apply Z.leb_le in E2;
    try apply Z.leb_gt in E1; try apply Z.leb_gt in E2;
    split; intros H; try discriminate; try reflexivity; lia.
Qed.

Lemma is_alpha2_true s :
  c_true (is_alpha2 s) = true <-> first_two_upper s.
Proof.
  unfold is_alpha2, first_two_upper.
  rewrite <- !isalpha_upper_true.
  destruct (c_true (isalpha_upper (char_at s 0)));
    destruct (c_true (isalpha_upper (char_at s 1))); simpl;
    split; intros H; try discriminate; try reflexivity; auto;
    destruct H; discriminate.
Qed.

Lemma is_world_regdom_true s :
  c_true (is_world_regdom s) = true <-> first_two_zero s.
Proof.
  unfold is_world_regdom, first_two_zero.
  destruct (Z.eqb_spec (char_at s 0) 48) as [E1|E1];
    destruct (Z.eqb_spec (char_at s 1) 48) as [E2|E2]; simpl;
    split; intros H; try discriminate; try reflexivity; auto;
    destruct H; congruence.
Qed.

Lemma bool_not_true (b : bool) (P : Prop) : (b = true <-> P) -> ~ P -> b = false.
Proof. destruct b; intros [H1 H2] HP; [exfalso; auto | reflexivity]. Qed.

(** C8 (as amended).  A [COUNTRY] whose first two characters are neither
    both uppercase letters nor both '0' makes [main] print its diagnostic
    and return [-EINVAL]; nothing else happens before, apart from the
    version check of libgcrypt in a build that uses it: no netlink setup,
    no open of the database, no verification, no decoding. *)
Theorem invalid_prefix_rejected_before_open :
  forall h crypto w s,
    argc w = 1 ->
    getenv_COUNTRY w = Some s ->
    ~ first_two_upper s ->
    ~ first_two_zero s ->
    main h crypto w = (main_declarations crypto ;; invalid_alpha2).
Proof.
  intros h crypto w s Hargc Henv Hup Hz.
  unfold main. rewrite Hargc, Henv. simpl.
  rewrite (bool_not_true _ _ (is_alpha2_true s) Hup).
  rewrite (bool_not_true _ _ (is_world_regdom_true s) Hz).
  reflexivity.
Qed.

Lemma invalid_prefix_rejected_before_open_witness :
  ~ first_two_upper "us" /\ ~ first_two_zero "us" /\
  main Fixtures.hdrs (USE_OPENSSL [Fixtures.key_a])
       (Fixtures.world_of "us" Fixtures.db_us Fixtures.key_a)
  = (main_declarations (USE_OPENSSL [Fixtures.key_a]) ;; invalid_alpha2).
Proof.
  assert (H1 : ~ first_two_upper "us").
  { unfold first_two_upper, char_at. simpl. lia. }
  assert (H2 : ~ first_two_zero "us").
  { unfold first_two_zero, char_at. simpl. lia. }
  split; [exact H1 | split; [exact H2 |]].
  apply (invalid_prefix_rejected_before_open _ _ _ "us"%string);
    [reflexivity | reflexivity | exact H1 | exact H2].
Defined.

(** The three-letter "USA" is neither a 2-letter code nor "00", and yet
    [main] does not stop at the validation: the database is opened and the
    rules of "US" are sent. *)
Lemma usa_is_not_rejected :
  ~ alpha2_or_world "USA" /\
  In (Call "open")
     (trace (main Fixtures.hdrs (USE_OPENSSL [Fixtures.key_a])
                  (Fixtures.world_of "USA" Fixtures.db_us Fixtures.key_a))) /\
  result (main Fixtures.hdrs (USE_OPENSSL [Fixtures.key_a])
               (Fixtures.world_of "USA" Fixtures.db_us Fixtures.key_a)) = Return 0.
Proof.
  split; [| split].
  - intros [(c0 & c1 & H & _) | H]; discriminate.
  - vm_compute. tauto.
  - vm_compute. reflexivity.
Qed.

(** C9.  Only the first two characters of [COUNTRY] are looked at: when
    they are uppercase letters, or both '0', [main] goes on to set up
    netlink and to load the database whatever follows them, and the code it
    looks up is made of these two characters alone. *)
Theorem validation_reads_first_two_chars :
  forall h crypto w c0 c1 rest,
    argc w = 1 ->
    getenv_COUNTRY w = Some (String c0 (String c1 rest)) ->
    (upper_letter c0 /\ upper_letter c1) \/ (c0 = "0"%char /\ c1 = "0"%char) ->
    main h crypto w =
      (main_declarations crypto ;;
       r <- nl80211_init w ;;
       if c_true r then c_return (- EIO)
       else main_db h crypto w [char_byte c0; char_byte c1]).
Proof.
  intros h crypto w c0 c1 rest Hargc Henv Hok.
  unfold main. rewrite Hargc, Henv. simpl Z.eqb. cbv iota. simpl negb. cbv iota.
  assert (E : negb (c_true (is_alpha2 (String c0 (String c1 rest))))
              && negb (c_true (is_world_regdom (String c0 (String c1 rest)))) = false).
  { destruct Hok as [[H0 H1]|[-> ->]].
    - assert (Hup : c_true (is_alpha2 (String c0 (String c1 rest))) = true).
      { apply is_alpha2_true. split; assumption. }
      now rewrite Hup.
    - reflexivity. }
  rewrite E. reflexivity.
Qed.

Lemma validation_reads_first_two_chars_witness :
  main Fixtures.hdrs (USE_OPENSSL [Fixtures.key_a])
       (Fixtures.world_of "USA" Fixtures.db_us Fixtures.key_a) =
  (main_declarations (USE_OPENSSL [Fixtures.key_a]) ;;
   r <- nl80211_init (Fixtures.world_of "USA" Fixtures.db_us Fixtures.key_a) ;;
   if c_true r then c_return (- EIO)
   else main_db Fixtures.hdrs (USE_OPENSSL [Fixtures.key_a])
                (Fixtures.world_of "USA" Fixtures.db_us Fixtures.key_a)
                [char_byte "U"; char_byte "S"]).
Proof.
  apply (validation_reads_first_two_chars _ _ _ "U"%char "S"%char "A"%string);
    [reflexivity | reflexivity |].
  left. unfold upper_letter. simpl. lia.
Defined.

(** ** The header and the signature length *)

(** What [load_header] hands on: the mapped file, and a usable length that
    the check of the signature length let through. *)
Lemma load_header_Cont h w t db dblen siglen header :
  load_header h w = Run t (Cont (db, dblen, siglen, header)) ->
  db = mapped_db w /\ header = 0 /\
  field db off_signature_length = Some (to_u32 siglen) /\
  dblen = to_int (st_size_int w - siglen) /\
  sizeof_header < to_size_t dblen.
Proof.
  unfold load_header. intros H.
  inv_bind H as u1 Hopen. destruct (negb (open_ok w)).
  { apply bind_Cont_inv in H as (? & ? & ? & _ & H & _).
    apply bind_Cont_inv in H as (? & ? & ? & _ & H & _). inversion H. }
  inv_bind H as u2 Hfstat. destruct (negb (fstat_ok w)).
  { apply bind_Cont_inv in H as (? & ? & ? & _ & H & _).
    apply bind_Cont_inv in H as (? & ? & ? & _ & H & _). inversion H. }
  inv_bind H as u3 Hmmap. destruct (negb (mmap_ok w)).
  { apply bind_Cont_inv in H as (? & ? & ? & _ & H & _).
    apply bind_Cont_inv in H as (? & ? & ? & _ & H & _). inversion H. }
  inv_get H hdr. change (ntohl be32_zero) with 0 in H.
  inv_load H magic Hmagic.
  destruct (negb (ntohl magic =? to_u32 (REGDB_MAGIC h))).
  { apply bind_Cont_inv in H as (? & ? & ? & _ & H & _).
    apply bind_Cont_inv in H as (? & ? & ? & _ & H & _). inversion H. }
  inv_load H version Hversion.
  destruct (negb (ntohl version =? to_u32 (REGDB_VERSION h))).
  { apply bind_Cont_inv in H as (? & ? & ? & _ & H & _).
    apply bind_Cont_inv in H as (? & ? & ? & _ & H & _). inversion H. }
  inv_load H sl Hsl.
  match type of H with
  | (if ?c then _ else _) = _ => destruct c eqn:Hchk
  end.
  { apply bind_Cont_inv in H as (? & ? & ? & _ & H & _).
    apply bind_Cont_inv in H as (? & ? & ? & _ & H & _). inversion H. }
  inversion H; subst. apply Z.leb_gt in Hchk.
  repeat split; try assumption.
  change (0 + off_signature_length) with off_signature_length in Hsl.
  rewrite Hsl. f_equal. unfold to_u32, to_int.
  pose proof (ntohl_range sl) as Hr.
  rewrite Zminus_mod_idemp_l.
  replace (ntohl sl + 2 ^ 31 - 2 ^ 31) with (ntohl sl) by lia.
  symmetry. apply Z.mod_small. lia.
Qed.

(** The check of the signature length does what it is meant to when the
    declared length is at most the length of the file: a signed part no
    longer than the header is refused before anything is verified. *)
Lemma signature_length_check_in_range h w sl :
  open_ok w = true -> fstat_ok w = true -> mmap_ok w = true ->
  Z.of_nat (List.length (regdb w)) <= INT_MAX ->
  field (regdb w) off_magic = Some (to_u32 (REGDB_MAGIC h)) ->
  field (regdb w) off_version = Some (to_u32 (REGDB_VERSION h)) ->
  field (regdb w) off_signature_length = Some sl ->
  0 <= Z.of_nat (List.length (regdb w)) - sl <= sizeof_header ->
  load_header h w =
    Run [Call "open"; Call "fstat";
         CallLen "mmap" (Z.of_nat (List.length (regdb w)));
         Stderr "Invalid signature length %d" [sl];
         Call "genl_family_put"; Call "nl_cache_free"; Call "nl_handle_destroy"]
        (Return (- EINVAL)).
Proof.
  intros Hopen Hfstat Hmmap Hmax Hmagic Hversion Hsl Hdiff.
  destruct (mapped_db_all w Hmax) as [Hsize Hmap].
  apply field_some in Hmagic as (vm & Hvm & Em).
  apply field_some in Hversion as (vv & Hvv & Ev).
  apply field_some in Hsl as (vs & Hvs & Es).
  pose proof (ntohl_range vs) as Hr. unfold INT_MAX, sizeof_header in *.
  assert (Esl : to_int (ntohl vs) = sl).
  { rewrite Es. apply to_int_id. unfold is_int, INT_MIN, INT_MAX. lia. }
  unfold load_header. rewrite Hopen, Hfstat, Hmmap, Hmap, Hsize.
  cbn [negb].
  assert (Hget : get_file_ptr (regdb w) (Z.of_nat (List.length (regdb w)))
                   (to_int sizeof_header) be32_zero = Run [] (Cont 0)).
  { unfold get_file_ptr. change (ntohl be32_zero) with 0.
    destruct (Z.ltb_spec (to_u32 (to_int (Z.of_nat (List.length (regdb w))
                                          - to_int sizeof_header))) 0) as [Hlt|_];
      [|reflexivity].
    unfold to_u32 in Hlt.
    pose proof (Z.mod_pos_bound
                  (to_int (Z.of_nat (List.length (regdb w)) - to_int sizeof_header))
                  (2 ^ 32) ltac:(lia)). lia. }
  rewrite !bind_emit, Hget, bind_nil_cont.
  change (0 + off_magic) with off_magic.
  change (0 + off_version) with off_version.
  change (0 + off_signature_length) with off_signature_length.
  unfold load_be32. rewrite Hvm. unfold of_load, ret.
  rewrite bind_nil_cont, Em, Z.eqb_refl. cbn [negb].
  rewrite Hvv, bind_nil_cont, Ev, Z.eqb_refl. cbn [negb].
  rewrite Hvs, bind_nil_cont, Esl.
  assert (Hchk : (to_size_t (to_int (Z.of_nat (List.length (regdb w)) - sl))
                  <=? 20) = true).
  { apply Z.leb_le. rewrite to_int_id by (unfold is_int, INT_MIN, INT_MAX; lia).
    rewrite to_size_t_nonneg by lia. lia. }
  unfold sizeof_header. rewrite Hchk.
  reflexivity.
Qed.

(** C3.  A 24-byte file with a good magic and version whose header declares
    a signature of 100 bytes: 24 - 100 is at most the size of the header,
    but [dblen] becomes the [int] -76, which the comparison with the size of
    the header reads as a [size_t]; the check passes and the digest is asked over
    [(size_t) -76] bytes of a 24-byte mapping. *)
Theorem short_file_reaches_digest :
  Z.of_nat (List.length Fixtures.db_siglen_100) - 100 <= sizeof_header /\
  main Fixtures.hdrs (USE_OPENSSL [Fixtures.key_a])
       (Fixtures.world_of "US" Fixtures.db_siglen_100 Fixtures.key_a) =
  Run (Fixtures.calls_before_open ++
       [Call "open"; Call "fstat"; CallLen "mmap" 24;
        Call "RSA_new"; CallLen "SHA1" (-76)])
      Fault.
Proof.
  split; [vm_compute; discriminate | vm_compute; reflexivity].
Qed.

(** ** The signature and the key table *)

(** The OpenSSL loop: [RSA_verify] is run on the keys whose size is the
    signature length, in table order, until one verifies; the result tells
    whether one did. *)
Lemma openssl_try_keys_spec w db dblen siglen hash sig keys :
  Mem.load_bytes db dblen (to_u32 siglen) = Some sig ->
  openssl_try_keys w db dblen siglen hash keys =
    Run (map (CallKey "RSA_verify")
           (keys_tried (fun k => RSA_size w k =? siglen)
                       (fun k => RSA_verify w k hash sig) keys))
        (Cont (existsb (fun k => (RSA_size w k =? siglen) && RSA_verify w k hash sig)
                       keys)).
Proof.
  intros Hsig. induction keys as [|k keys IH]; cbn [openssl_try_keys keys_tried existsb map].
  - reflexivity.
  - destruct (RSA_size w k =? siglen); cbn [negb andb orb].
    + rewrite bind_emit, Hsig. unfold of_load, ret. rewrite bind_nil_cont.
      destruct (RSA_verify w k hash sig); cbn [orb].
      * reflexivity.
      * rewrite IH. reflexivity.
    + exact IH.
Qed.

(** With an [RSA_verify] that, like the library's, refuses a signature
    whose length is not the size of the key, the guard on the size changes
    nothing: the OpenSSL loop accepts exactly when some key of the table
    verifies the signature. *)
Lemma openssl_try_keys_accepts w db dblen siglen hash sig keys :
  Mem.load_bytes db dblen (to_u32 siglen) = Some sig ->
  (forall k, RSA_verify w k hash sig = true -> RSA_size w k = siglen) ->
  result (openssl_try_keys w db dblen siglen hash keys)
  = Cont (existsb (fun k => RSA_verify w k hash sig) keys).
Proof.
  intros Hsig Hlen. rewrite (openssl_try_keys_spec w db dblen siglen hash sig keys Hsig).
  cbn [result]. f_equal.
  induction keys as [|k keys IH]; cbn [existsb]; [reflexivity|].
  rewrite IH. f_equal.
  destruct (RSA_verify w k hash sig) eqn:E.
  - rewrite (Hlen k E), Z.eqb_refl. reflexivity.
  - apply andb_false_r.
Qed.

(** The libgcrypt loop: whatever the table holds, every call it makes is
    about [keys[0]]. *)
Lemma gcrypt_try_keys_only_first_key w key0 data signature iter fn k :
  In (CallKey fn k) (trace (gcrypt_try_keys w key0 data signature iter)) ->
  k = key0.
Proof.
  induction iter as [|k' iter IH]; cbn [gcrypt_try_keys].
  - intros [].
  - rewrite bind_emit. cbn [trace]. intros [H|H]; [now inversion H|].
    revert H. destruct (negb (gcry_mpi_scan_ok w key0)).
    { cbn. intros [H|[]]. discriminate. }
    rewrite bind_emit. cbn [trace]. intros [H|H]; [now inversion H|].
    revert H. destruct (negb (gcry_sexp_build_key_ok w key0)).
    { cbn. intros [H|[]]. discriminate. }
    rewrite bind_emit. cbn [trace]. intros [H|H]; [now inversion H|].
    revert H. destruct (gcry_pk_verify w key0 data signature).
    { intros []. }
    exact IH.
Qed.

(** The libgcrypt loop accepts only what [keys[0]] verifies. *)
Lemma gcrypt_try_keys_accepts w key0 data signature iter :
  result (gcrypt_try_keys w key0 data signature iter) = Cont true ->
  gcry_pk_verify w key0 data signature = true.
Proof.
  induction iter as [|k' iter IH]; cbn [gcrypt_try_keys].
  - discriminate.
  - rewrite bind_emit. cbn [result].
    destruct (negb (gcry_mpi_scan_ok w key0)); [discriminate|].
    rewrite bind_emit. cbn [result].
    destruct (negb (gcry_sexp_build_key_ok w key0)); [discriminate|].
    rewrite bind_emit. cbn [result].
    destruct (gcry_pk_verify w key0 data signature); [reflexivity|].
    exact IH.
Qed.

(** C4.  Built with libgcrypt, the loop over the key table converts
    [keys[0]] at every iteration: with two keys of which the second signed
    the file, the first key is checked twice and the signature is refused;
    built with OpenSSL, the same file is accepted by the second key. *)
Theorem gcrypt_checks_only_first_key :
  verify_signature (USE_GCRYPT [Fixtures.key_a; Fixtures.key_b])
       (Fixtures.world_of "US" Fixtures.db_us Fixtures.key_b) Fixtures.db_us 68 4 =
  Run [Call "gcry_check_version";
       CallLen "gcry_md_hash_buffer" 68; Call "gcry_sexp_build data";
       Call "gcry_sexp_build sig-val";
       CallKey "gcry_mpi_scan" Fixtures.key_a; CallKey "gcry_sexp_build" Fixtures.key_a;
       CallKey "gcry_pk_verify" Fixtures.key_a;
       CallKey "gcry_mpi_scan" Fixtures.key_a; CallKey "gcry_sexp_build" Fixtures.key_a;
       CallKey "gcry_pk_verify" Fixtures.key_a;
       Stderr "Database signature wrong" []]
      (Return 2)
  /\
  verify_signature (USE_OPENSSL [Fixtures.key_a; Fixtures.key_b])
       (Fixtures.world_of "US" Fixtures.db_us Fixtures.key_b) Fixtures.db_us 68 4 =
  Run [Call "RSA_new"; CallLen "SHA1" 68;
       CallKey "RSA_verify" Fixtures.key_a; CallKey "RSA_verify" Fixtures.key_b;
       Call "RSA_free"; CallKey "BN_print_fp" Fixtures.key_a]
      (Cont tt).
Proof.
  split; vm_compute; reflexivity.
Qed.

(** ** The country table *)

Lemma alpha2_eqb_eq a b : alpha2_eqb a b = true <-> a = b.
Proof.
  revert b. induction a as [|x a IH]; intros [|y b]; simpl;
    try (split; [discriminate | discriminate]); try tauto.
  rewrite andb_true_iff, IH. split.
  - intros [H ->]. apply Byte.byte_dec_bl in H. now subst.
  - intros [= -> ->]. split; [now apply Byte.byte_dec_lb | reflexivity].
Qed.

Lemma alpha2_eqb_neq a b : a <> b -> alpha2_eqb a b = false.
Proof.
  intros H. destruct (alpha2_eqb a b) eqn:E; [|reflexivity].
  apply alpha2_eqb_eq in E. contradiction.
Qed.

(** The size of a table of [n] records as [find_country] computes it. *)
Lemma country_table_size n :
  0 <= n -> sizeof_reg_country * n <= INT_MAX ->
  to_int (to_size_t (sizeof_reg_country * to_size_t n)) = sizeof_reg_country * n.
Proof.
  unfold sizeof_reg_country, INT_MAX. intros H0 H1.
  rewrite (to_size_t_nonneg n) by lia.
  rewrite to_size_t_nonneg by lia.
  apply to_int_id. unfold is_int, INT_MIN, INT_MAX. lia.
Qed.

(** The scan from record [i0] over [n] readable records: it stops at the
    first record equal to [alpha2], or reaches the end. *)
Lemma scan_countries_spec db countries alpha2 (n : nat) :
  forall i0,
    (forall k, i0 <= k < i0 + Z.of_nat n ->
               exists c, country_code db countries k = Some c) ->
    (forall i, i0 <= i < i0 + Z.of_nat n ->
       country_code db countries i = Some alpha2 ->
       (forall k, i0 <= k < i -> country_code db countries k <> Some alpha2) ->
       scan_countries db countries alpha2 n i0 = Run [] (Cont (Some i)))
    /\
    ((forall k, i0 <= k < i0 + Z.of_nat n ->
        country_code db countries k <> Some alpha2) ->
     scan_countries db countries alpha2 n i0 = Run [] (Cont None)).
Proof.
  induction n as [|n IH]; intros i0 Hread.
  - split; [intros i Hi; lia | reflexivity].
  - destruct (Hread i0 ltac:(lia)) as [c Hc].
    destruct (IH (i0 + 1)) as [IH1 IH2].
    { intros k Hk. apply Hread. lia. }
    cbn [scan_countries]. unfold country_code in Hc. rewrite Hc.
    unfold of_load, ret. rewrite bind_nil_cont.
    split.
    + intros i Hi Hcode Hfirst.
      destruct (Z.eq_dec i i0) as [->|Hne].
      * unfold country_code in Hcode. rewrite Hc in Hcode. injection Hcode as ->.
        rewrite (proj2 (alpha2_eqb_eq alpha2 alpha2) eq_refl). reflexivity.
      * rewrite alpha2_eqb_neq.
        -- apply IH1; [lia | exact Hcode |]. intros k Hk. apply Hfirst. lia.
        -- intros ->. apply (Hfirst i0); [lia | exact Hc].
    + intros Hnone. rewrite alpha2_eqb_neq.
      * apply IH2. intros k Hk. apply Hnone. lia.
      * intros ->. apply (Hnone i0); [lia | exact Hc].
Qed.

(** C6.  With the table of [n] records inside the usable part of the
    file, [find_country] returns the index and the pointer of the first
    record whose two bytes equal the requested code, whatever the records
    after it hold; when no record has the code, [main] prints that no
    country matched and returns -1. *)
Theorem find_country_first_match :
  forall db dblen header alpha2 num ptr,
    Mem.load_be32 db (header + off_reg_country_num) = Some num ->
    Mem.load_be32 db (header + off_reg_country_ptr) = Some ptr ->
    0 <= to_int (ntohl num) ->
    ntohl ptr + sizeof_reg_country * to_int (ntohl num) <= dblen ->
    dblen <= Z.of_nat (List.length db) ->
    dblen <= INT_MAX ->
    (forall i,
       first_match db (ntohl ptr) alpha2 (to_int (ntohl num)) i ->
       find_country db dblen header alpha2 =
         Run [] (Cont (i, ntohl ptr + sizeof_reg_country * i)))
    /\
    (no_match db (ntohl ptr) alpha2 (to_int (ntohl num)) ->
     find_country db dblen header alpha2 = country_not_found).
Proof.
  intros db dblen header alpha2 num ptr Hnum Hptr Hn Hfit Hlen Hmax.
  pose proof (ntohl_range ptr) as Hp.
  set (n := to_int (ntohl num)) in *.
  assert (Hsize : to_int (to_size_t (sizeof_reg_country * to_size_t n))
                  = sizeof_reg_country * n).
  { apply country_table_size; [exact Hn | lia]. }
  assert (Hget : get_file_ptr db dblen (sizeof_reg_country * n) ptr
                 = Run [] (Cont (ntohl ptr))).
  { apply get_file_ptr_in_range; unfold sizeof_reg_country in *; lia. }
  assert (Hread : forall k, 0 <= k < 0 + Z.of_nat (Z.to_nat n) ->
                            exists c, country_code db (ntohl ptr) k = Some c).
  { intros k Hk. unfold country_code.
    apply load_bytes_in_bounds; unfold sizeof_reg_country, off_alpha2 in *; lia. }
  destruct (scan_countries_spec db (ntohl ptr) alpha2 (Z.to_nat n) 0 Hread)
    as [Hfound Hnone].
  assert (Hprefix : forall k : run (Z * Z) -> Prop,
            k (found <- scan_countries db (ntohl ptr) alpha2 (Z.to_nat n) 0 ;;
               match found with
               | None =>
                   fprintf_stderr
                     "failed to find a country match in regulatory database" [] ;;
                   c_return (-1)
               | Some i => ret (i, ntohl ptr + sizeof_reg_country * i)
               end) ->
            k (find_country db dblen header alpha2)).
  { intros k Hk. unfold find_country.
    rewrite (load_be32_some _ _ _ Hnum), bind_nil_cont.
    rewrite (load_be32_some _ _ _ Hptr), bind_nil_cont.
    fold n. rewrite Hsize, Hget, bind_nil_cont. exact Hk. }
  split.
  - intros i (Hi & Hcode & Hfirst). apply Hprefix.
    rewrite (Hfound i); [| lia | exact Hcode | intros k Hk; apply Hfirst; lia].
    rewrite bind_nil_cont. reflexivity.
  - intros Hno. apply Hprefix.
    rewrite Hnone; [| intros k Hk; apply Hno; lia].
    rewrite bind_nil_cont. reflexivity.
Qed.

Lemma find_country_first_match_witness :
  find_country Fixtures.db_duplicate_us 116 0 (Fixtures.chars "US")
  = Run [] (Cont (1, 28)).
Proof.
  destruct (find_country_first_match Fixtures.db_duplicate_us 116 0
              (Fixtures.chars "US") (htonl 3) (htonl 20)) as [Hfirst _].
  - reflexivity.
  - reflexivity.
  - vm_compute. discriminate.
  - vm_compute. discriminate.
  - vm_compute. discriminate.
  - vm_compute. discriminate.
  - apply (Hfirst 1). repeat split.
    + vm_compute. discriminate.
    + intros k Hk. assert (k = 0) as -> by lia. vm_compute. discriminate.
Defined.

(** The size of a rule collection wraps as well: a collection that
    declares [2^30] rules is checked for 4 bytes. *)
Lemma rule_collection_size_wraps :
  to_int (to_size_t (sizeof_rcoll + to_size_t (to_int (2 ^ 30)) * sizeof_be32)) = 4.
Proof. reflexivity. Qed.

(** C5.  A header that declares 1000 countries in a file with 28 usable
    bytes: the size passed to [get_file_ptr] is 8000, [dblen - structlen]
    is negative and compares as 4294959324, the table pointer 20 is
    accepted, and the scan for "US" runs off the end of the file. *)
Theorem inflated_country_count_reads_past_end :
  to_int (to_size_t (sizeof_reg_country * to_size_t 1000)) = 8000 /\
  to_u32 (to_int (28 - 8000)) = 4294959324 /\
  main Fixtures.hdrs (USE_OPENSSL [Fixtures.key_a])
       (Fixtures.world_of "US" Fixtures.db_count_1000 Fixtures.key_a) =
  Run (Fixtures.calls_before_open ++
       [Call "open"; Call "fstat"; CallLen "mmap" 32;
        Call "RSA_new"; CallLen "SHA1" 28; CallKey "RSA_verify" Fixtures.key_a;
        Call "RSA_free"; CallKey "BN_print_fp" Fixtures.key_a])
      Fault.
Proof.
  repeat split; vm_compute; reflexivity.
Qed.

(** ** The attribute tree *)

Lemma nla_append_open a fam cmd attrs t body rest :
  nla_append a (NlMsg fam cmd attrs ((t, body) :: rest))
  = NlMsg fam cmd attrs ((t, body ++ [a]) :: rest).
Proof. reflexivity. Qed.

Lemma fold_append_open attrs fam cmd top t body rest :
  fold_left (fun m a => nla_append a m) attrs
    (NlMsg fam cmd top ((t, body) :: rest))
  = NlMsg fam cmd top ((t, body ++ attrs) :: rest).
Proof.
  revert body. induction attrs as [|a attrs IH]; intros body; cbn [fold_left].
  - now rewrite app_nil_r.
  - rewrite nla_append_open, IH, <- app_assoc. reflexivity.
Qed.

(** [put_reg_rule] returning 0: the rule and its two sub-records were
    read from the file, and their six values were appended in order. *)
Lemma put_reg_rule_ok h w db dblen ruleptr msg t msg' :
  put_reg_rule h w db dblen ruleptr msg = Run t (Cont (0, msg')) ->
  exists rule,
    rule_at db (ntohl ruleptr) = Some rule /\
    msg' = fold_left (fun m a => nla_append a m) (rule_attrs h rule) msg.
Proof.
  unfold put_reg_rule, NLA_PUT_U32, nla_put. intros H.
  inv_get H rule.
  inv_load H freq_ptr Hfreq. inv_get H freq.
  inv_load H power_ptr Hpower. inv_get H power.
  inv_load H flags Hflags. put_ok H w.
  inv_load H start_freq Hstart. put_ok H w.
  inv_load H end_freq Hend. put_ok H w.
  inv_load H max_bw Hbw. put_ok H w.
  inv_load H gain Hgain. put_ok H w.
  inv_load H eirp Heirp. put_ok H w.
  inversion H; subst.
  eexists. split.
  - unfold rule_at. rewrite Hflags, Hfreq, Hpower, Hstart, Hend, Hbw, Hgain, Heirp.
    reflexivity.
  - unfold rule_attrs.
    cbn [fold_left rr_flags rr_start_freq rr_end_freq rr_max_bandwidth
           rr_max_antenna_gain rr_max_eirp].
    reflexivity.
Qed.

Lemma put_reg_rule_result h w db dblen ruleptr msg t r msg' :
  put_reg_rule h w db dblen ruleptr msg = Run t (Cont (r, msg')) ->
  c_true r = false -> r = 0.
Proof.
  intros _. unfold c_true. destruct (Z.eqb_spec r 0); [auto | discriminate].
Qed.

(** The loop over the rules, when it completes inside an open container:
    one container of attribute type [i] was appended per rule, in the
    order of the collection, holding the values of that rule. *)
Lemma rules_loop_Cont h w db dblen i rcoll n :
  forall j r fam cmd top ty body rest t r' msg',
    rules_loop h w db dblen i rcoll n j r
      (NlMsg fam cmd top ((ty, body) :: rest)) = Run t (Cont (r', msg')) ->
    exists rules,
      decode_rules db rcoll n j = Some rules /\
      msg' = NlMsg fam cmd top
               ((ty, body ++ map (fun rule => NlaNested i (rule_attrs h rule)) rules)
                  :: rest).
Proof.
  induction n as [|n IH]; intros j r fam cmd top ty body rest t r' msg' H.
  - cbn in H. inversion H; subst. exists []. simpl. now rewrite app_nil_r.
  - cbn [rules_loop] in H. unfold nla_nest_start in H.
    destruct (nla_room w _); [|inversion H].
    inv_load H ruleptr Hptr.
    inv_bind H as rm Hput. destruct rm as [r1 m1]. cbn [fst snd] in H.
    destruct (c_true r1) eqn:Hr1; [inversion H|].
    assert (r1 = 0) as -> by (eapply put_reg_rule_result; eauto).
    apply put_reg_rule_ok in Hput as (rule & Hrule & ->).
    unfold nest_open in H. cbn [nm_family nm_cmd nm_attrs nm_open] in H.
    rewrite fold_append_open in H.
    unfold nla_nest_end in H. cbn [nm_family nm_cmd nm_attrs nm_open] in H.
    rewrite nla_append_open in H.
    apply IH in H as (rules & Hrules & ->).
    exists (rule :: rules). split.
    + cbn [decode_rules]. rewrite Hptr, Hrule, Hrules. reflexivity.
    + rewrite <- app_assoc. reflexivity.
Qed.

(** The message [build_message] completes: the country code, then one
    container holding one nested container of attribute type [i] per rule
    of the collection, in the order of the collection's pointers. *)
Lemma build_message_Cont h w db dblen i country r t r' msg :
  build_message h w db dblen i country r = Run t (Cont (r', msg)) ->
  exists alpha2 rcoll num_rules rules,
    Mem.load_strz db (country + off_alpha2) = Some alpha2 /\
    field db (country + off_reg_collection_ptr) = Some rcoll /\
    field db (rcoll + off_reg_rule_num) = Some num_rules /\
    decode_rules db rcoll (Z.to_nat (to_int num_rules)) 0 = Some rules /\
    List.length rules = Z.to_nat (to_int num_rules) /\
    nm_attrs msg =
      [NlaString (NL80211_ATTR_REG_ALPHA2 h) alpha2;
       NlaNested (NL80211_ATTR_REG_RULES h)
         (map (fun rule => NlaNested i (rule_attrs h rule)) rules)] /\
    nm_open msg = [].
Proof.
  intros H.
  unfold build_message in H.
  inv_bind H as u Halloc.
  destruct (negb (nlmsg_alloc_ok w)).
  { apply bind_Cont_inv in H as (? & ? & ? & _ & H & _). inversion H. }
  inv_bind H as u' Hput.
  inv_load H coll_ptr Hcoll. inv_get H rcoll.
  inv_load H num Hnum.
  inv_load H coll_ptr' Hcoll'. inv_get H rcoll'.
  inv_bind H as alpha2 Hstr. apply of_load_Cont in Hstr as [Hstr _].
  unfold nla_put in H. destruct (nla_room w _); [|inversion H].
  unfold nla_nest_start in H. destruct (nla_room w _); [|inversion H].
  inv_bind H as rm Hloop. inversion H; subst; clear H.
  destruct rm as [r1 m1]. cbn [fst snd].
  unfold genlmsg_put, nlmsg_empty, nla_append, nest_open in Hloop.
  cbn [nm_family nm_cmd nm_attrs nm_open app] in Hloop.
  assert (E : ntohl coll_ptr' = ntohl coll_ptr) by congruence.
  rewrite E in Hloop.
  apply rules_loop_Cont in Hloop as (rules & Hrules & ->).
  exists alpha2, (ntohl coll_ptr), (ntohl num), rules.
  repeat split; try assumption.
  clear - Hrules. revert Hrules. generalize 0.
  generalize (Z.to_nat (to_int (ntohl num))) as n. intros n. revert rules.
  induction n as [|n IH]; intros rules j; cbn [decode_rules].
  - now intros [= <-].
  - destruct (field db _); [|discriminate].
    destruct (rule_at db z); [|discriminate].
    destruct (decode_rules db (ntohl coll_ptr) n (j + 1)) as [rs|] eqn:E; [|discriminate].
    intros [= <-]. simpl. f_equal. eapply IH; eauto.
Qed.

(** [put_reg_rule] on a rule that the specification's decoder accepts,
    when the message has room: 0 is returned and the six values are
    appended. *)
Lemma put_reg_rule_decoded h w db dblen ruleptr msg rule :
  dblen <= INT_MAX ->
  (forall m, nla_room w m = true) ->
  decode_rule db dblen (ntohl ruleptr) = Some rule ->
  put_reg_rule h w db dblen ruleptr msg =
    Run [] (Cont (0, fold_left (fun m a => nla_append a m) (rule_attrs h rule) msg)).
Proof.
  intros Hd Hroom H. unfold decode_rule in H.
  inv_option H. rename z into r0, E into Er.
  inv_option H. rename z into fp, E into Efp.
  inv_option H. rename z into fr, E into Efr.
  inv_option H. rename z into pp, E into Epp.
  inv_option H. rename z into pw, E into Epw.
  apply field_load_be32 in Efp as (vfp & Lfp & <-).
  apply field_load_be32 in Epp as (vpp & Lpp & <-).
  assert (Hr0 : r0 = ntohl ruleptr).
  { unfold resolve in Er. destruct (_ <=? _); now inversion Er. }
  assert (Hfr : fr = ntohl vfp).
  { unfold resolve in Efr. destruct (_ <=? _); now inversion Efr. }
  assert (Hpw : pw = ntohl vpp).
  { unfold resolve in Epw. destruct (_ <=? _); now inversion Epw. }
  unfold rule_at in H.
  inv_option H. rename z into flags, E into Eflags.
  rewrite Hr0 in *. clear Hr0.
  destruct (field db (ntohl ruleptr + off_freq_range_ptr)) as [fp'|] eqn:Efp';
    [|discriminate].
  destruct (field db (ntohl ruleptr + off_power_rule_ptr)) as [pp'|] eqn:Epp';
    [|discriminate].
  assert (fp' = ntohl vfp) as ->.
  { unfold field in Efp'. unfold load_be32 in Lfp.
    destruct (Mem.load_be32 db (ntohl ruleptr + off_freq_range_ptr));
      simpl in *; inversion Lfp; inversion Efp'; subst; reflexivity. }
  assert (pp' = ntohl vpp) as ->.
  { unfold field in Epp'. unfold load_be32 in Lpp.
    destruct (Mem.load_be32 db (ntohl ruleptr + off_power_rule_ptr));
      simpl in *; inversion Lpp; inversion Epp'; subst; reflexivity. }
  inv_option H. rename z into start, E into Estart.
  inv_option H. rename z into stop, E into Estop.
  inv_option H. rename z into bw, E into Ebw.
  inv_option H. rename z into gain, E into Egain.
  inv_option H. rename z into eirp, E into Eeirp.
  injection H as <-.
  apply field_load_be32 in Eflags as (vflags & Lflags & <-).
  apply field_load_be32 in Estart as (vstart & Lstart & <-).
  apply field_load_be32 in Estop as (vstop & Lstop & <-).
  apply field_load_be32 in Ebw as (vbw & Lbw & <-).
  apply field_load_be32 in Egain as (vgain & Lgain & <-).
  apply field_load_be32 in Eeirp as (veirp & Leirp & <-).
  subst fr pw.
  unfold put_reg_rule, NLA_PUT_U32, nla_put.
  rewrite (resolve_get_file_ptr db dblen sizeof_reg_rule ruleptr _
             ltac:(unfold sizeof_reg_rule; lia) Hd Er), bind_nil_cont.
  rewrite Lfp, bind_nil_cont.
  rewrite (resolve_get_file_ptr db dblen sizeof_freq_range vfp _
             ltac:(unfold sizeof_freq_range; lia) Hd Efr), bind_nil_cont.
  rewrite Lpp, bind_nil_cont.
  rewrite (resolve_get_file_ptr db dblen sizeof_power_rule vpp _
             ltac:(unfold sizeof_power_rule; lia) Hd Epw), bind_nil_cont.
  rewrite Lflags, bind_nil_cont, Hroom.
  rewrite Lstart, bind_nil_cont, Hroom.
  rewrite Lstop, bind_nil_cont, Hroom.
  rewrite Lbw, bind_nil_cont, Hroom.
  rewrite Lgain, bind_nil_cont, Hroom.
  rewrite Leirp, bind_nil_cont, Hroom.
  unfold rule_attrs.
  cbn [fold_left rr_flags rr_start_freq rr_end_freq rr_max_bandwidth
         rr_max_antenna_gain rr_max_eirp].
  reflexivity.
Qed.

Lemma rules_loop_decoded h w db dblen i rcoll n :
  forall j r fam cmd top ty body rest rules,
    dblen <= INT_MAX ->
    (forall m, nla_room w m = true) ->
    decode_rule_list db dblen rcoll n j = Some rules ->
    rules_loop h w db dblen i rcoll n j r (NlMsg fam cmd top ((ty, body) :: rest)) =
      Run [] (Cont (match rules with [] => r | _ :: _ => 0 end,
                    NlMsg fam cmd top
                      ((ty, body ++ map (fun rule => NlaNested i (rule_attrs h rule)) rules)
                         :: rest))).
Proof.
  induction n as [|n IH]; intros j r fam cmd top ty body rest rules Hd Hroom H.
  - cbn in H. injection H as <-. cbn. now rewrite app_nil_r.
  - cbn [decode_rule_list] in H.
    inv_option H. rename z into rp, E into Erp.
    destruct (decode_rule db dblen rp) as [rule|] eqn:Erule; [|discriminate].
    destruct (decode_rule_list db dblen rcoll n (j + 1)) as [rs|] eqn:Ers;
      [|discriminate].
    injection H as <-.
    apply field_load_be32 in Erp as (vrp & Lrp & <-).
    cbn [rules_loop]. unfold nla_nest_start. rewrite Hroom.
    rewrite Lrp, bind_nil_cont.
    rewrite (put_reg_rule_decoded h w db dblen vrp _ rule Hd Hroom Erule),
      bind_nil_cont.
    cbn [fst snd]. change (c_true 0) with false. cbv iota.
    unfold nest_open. cbn [nm_family nm_cmd nm_attrs nm_open].
    rewrite fold_append_open.
    unfold nla_nest_end. cbn [nm_family nm_cmd nm_attrs nm_open].
    rewrite nla_append_open.
    rewrite (IH (j + 1) 0 fam cmd top ty _ rest rs Hd Hroom Ers).
    cbn [map app]. rewrite <- app_assoc. cbn [app].
    destruct rs; reflexivity.
Qed.

(** C7.  For a country record whose rule collection the decoder of the
    specification decodes to [rules], in a usable length that an [int]
    holds, and a message with room for the attributes, [build_message]
    completes with the attribute tree of these rules: the country code, and
    one nested container per rule, in the order of the decoded list, with
    the rule's flags, start and end frequency, maximum bandwidth, maximum
    antenna gain and maximum EIRP as stored in the file and converted with
    [ntohl]. *)
Theorem build_message_encodes_decoded_rules :
  forall h w db dblen i country r alpha2 rules,
    dblen <= INT_MAX ->
    nlmsg_alloc_ok w = true ->
    (forall m, nla_room w m = true) ->
    Mem.load_strz db (country + off_alpha2) = Some alpha2 ->
    decode_collection db dblen country = Some rules ->
    build_message h w db dblen i country r =
      Run [Call "nlmsg_alloc"; Call "genlmsg_put"]
          (Cont (match rules with [] => r | _ :: _ => 0 end,
                 NlMsg (genl_family_get_id w) (NL80211_CMD_SET_REG h)
                       (attribute_tree h i alpha2 rules) [])).
Proof.
  intros h w db dblen i country r alpha2 rules Hd Halloc Hroom Hstr H.
  unfold decode_collection in H.
  inv_option H. rename z into ptr, E into Eptr.
  inv_option H. rename z into rcoll, E into Ercoll.
  inv_option H. rename z into count, E into Ecount.
  inv_option H. rename z into rcoll', E into Ercoll'.
  pose proof Eptr as Eptr2.
  apply field_load_be32 in Eptr as (vptr & Lptr & <-).
  pose proof (ntohl_range vptr) as Hptr.
  destruct (resolve_some _ _ _ _ Ercoll) as [-> Hfit].
  destruct (resolve_some _ _ _ _ Ercoll') as [-> Hfit'].
  apply field_load_be32 in Ecount as (vcount & Lcount & <-).
  pose proof (ntohl_range vcount) as Hcount.
  unfold INT_MAX, sizeof_rcoll, sizeof_be32 in *.
  assert (Enum : to_int (ntohl vcount) = ntohl vcount).
  { apply to_int_id. unfold is_int, INT_MIN, INT_MAX. lia. }
  assert (Esize : to_int (to_size_t (4 + to_size_t (ntohl vcount) * 4))
                  = 4 + ntohl vcount * 4).
  { rewrite (to_size_t_nonneg (ntohl vcount)) by lia.
    rewrite to_size_t_nonneg by lia.
    apply to_int_id. unfold is_int, INT_MIN, INT_MAX. lia. }
  unfold build_message.
  rewrite Halloc. cbn [negb]. rewrite !bind_emit.
  rewrite Lptr, !bind_nil_cont.
  change (to_int sizeof_rcoll) with 4.
  rewrite (resolve_get_file_ptr db dblen 4 vptr _ ltac:(lia) Hd Ercoll), bind_nil_cont.
  rewrite Lcount, bind_nil_cont.
  cbv zeta. rewrite bind_nil_cont.
  rewrite Enum. unfold sizeof_rcoll, sizeof_be32. rewrite Esize.
  rewrite (resolve_get_file_ptr db dblen (4 + ntohl vcount * 4) vptr _
             ltac:(lia) Hd Ercoll'), bind_nil_cont.
  rewrite Hstr. unfold of_load, ret. rewrite bind_nil_cont.
  unfold nla_put, nla_nest_start. rewrite !Hroom.
  unfold genlmsg_put, nlmsg_empty, nla_append, nest_open.
  cbn [nm_family nm_cmd nm_attrs nm_open app].
  rewrite (rules_loop_decoded h w db dblen i (ntohl vptr) _ 0 r _ _ _ _ [] [] rules
             Hd Hroom H), bind_nil_cont.
  reflexivity.
Qed.

Lemma build_message_encodes_decoded_rules_witness :
  build_message Fixtures.hdrs
    (Fixtures.world_of "US" Fixtures.db_duplicate_us Fixtures.key_a)
    Fixtures.db_duplicate_us 116 1 28 0
  = Run [Call "nlmsg_alloc"; Call "genlmsg_put"]
        (Cont (0, Fixtures.msg_duplicate_us)).
Proof.
  apply (build_message_encodes_decoded_rules Fixtures.hdrs
           (Fixtures.world_of "US" Fixtures.db_duplicate_us Fixtures.key_a)
           Fixtures.db_duplicate_us 116 1 28 0 (Fixtures.chars "US")
           rules_duplicate_us).
  - vm_compute. discriminate.
  - reflexivity.
  - intros m. reflexivity.
  - reflexivity.
  - reflexivity.
Defined.

(** ** The messages that are sent *)

Lemma quiet_bind {A B} (m : run A) (f : A -> run B) :
  quiet m -> (forall a, quiet (f a)) -> quiet (bind m f).
Proof.
  intros Hm Hf msg H. apply bind_trace_In in H as [H | (a & _ & H)].
  - exact (Hm msg H).
  - exact (Hf a msg H).
Qed.

Lemma quiet_nil {A} (o : outcome A) : quiet (Run [] o).
Proof. intros msg []. Qed.

Lemma quiet_one {A} (e : event) (o : outcome A) :
  (forall msg, e <> Send msg) -> quiet (Run [e] o).
Proof. intros He msg [H | []]. exact (He msg H). Qed.

Lemma quiet_get_file_ptr db dblen structlen ptr :
  quiet (get_file_ptr db dblen structlen ptr).
Proof.
  destruct (get_file_ptr_cases db dblen structlen ptr) as [[_ ->]|[_ ->]].
  - apply quiet_one. discriminate.
  - apply quiet_nil.
Qed.

Lemma quiet_of_load {A} (o : option A) : quiet (of_load o).
Proof. destruct o; apply quiet_nil. Qed.

Lemma quiet_load_be32 db off : quiet (load_be32 db off).
Proof. apply quiet_of_load. Qed.

Create HintDb quiet.
#[local] Hint Resolve quiet_nil quiet_get_file_ptr quiet_of_load quiet_load_be32 : quiet.
#[local] Hint Extern 1 (quiet (Run [_] _)) => apply quiet_one; discriminate : quiet.
#[local] Hint Extern 1 (quiet (emit _)) => apply quiet_one; discriminate : quiet.
#[local] Hint Extern 1 (quiet (fprintf_stderr _ _)) => apply quiet_one; discriminate : quiet.
#[local] Hint Extern 1 (quiet (perror _)) => apply quiet_one; discriminate : quiet.
#[local] Hint Extern 1 (quiet (ret _)) => apply quiet_nil : quiet.
#[local] Hint Extern 1 (quiet (c_return _)) => apply quiet_nil : quiet.
#[local] Hint Extern 1 (quiet (c_exit _)) => apply quiet_nil : quiet.
#[local] Hint Extern 1 (quiet fault) => apply quiet_nil : quiet.

(** Walks through the binds and the branches of a run. *)
Ltac quiet_step :=
  match goal with
  | |- quiet (bind _ _) => apply quiet_bind; [| intros ?]
  | |- quiet (if ?b then _ else _) => destruct b
  | |- quiet (match ?x with _ => _ end) => destruct x
  | |- quiet (let _ := _ in _) => cbv zeta
  | |- quiet _ => solve [auto with quiet]
  end.

Ltac quiet_run := repeat quiet_step.

Lemma quiet_nl80211_init w : quiet (nl80211_init w).
Proof. unfold nl80211_init. quiet_run. Qed.

Lemma quiet_goto_out {A} r : quiet (@goto_out A r).
Proof. unfold goto_out, nl80211_cleanup. quiet_run. Qed.
#[local] Hint Resolve quiet_nl80211_init quiet_goto_out : quiet.

Lemma quiet_goto_nla_put_failure {A} r : quiet (@goto_nla_put_failure A r).
Proof. unfold goto_nla_put_failure. quiet_run. Qed.
#[local] Hint Resolve quiet_goto_nla_put_failure : quiet.

Lemma quiet_main_declarations crypto : quiet (main_declarations crypto).
Proof. unfold main_declarations. quiet_run. Qed.

Lemma quiet_load_header h w : quiet (load_header h w).
Proof. unfold load_header. quiet_run. Qed.

Lemma quiet_openssl_try_keys w db dblen siglen hash keys :
  quiet (openssl_try_keys w db dblen siglen hash keys).
Proof.
  induction keys as [|k keys IH]; cbn [openssl_try_keys]; quiet_run.
Qed.

Lemma quiet_gcrypt_try_keys w key0 data signature iter :
  quiet (gcrypt_try_keys w key0 data signature iter).
Proof.
  induction iter as [|k iter IH]; cbn [gcrypt_try_keys]; quiet_run.
Qed.
#[local] Hint Resolve quiet_openssl_try_keys quiet_gcrypt_try_keys : quiet.

Lemma quiet_verify_signature crypto w db dblen siglen :
  quiet (verify_signature crypto w db dblen siglen).
Proof.
  unfold verify_signature, verify_openssl, verify_gcrypt. quiet_run.
Qed.

Lemma quiet_scan_countries db countries alpha2 n :
  forall i, quiet (scan_countries db countries alpha2 n i).
Proof.
  induction n as [|n IH]; intros i; cbn [scan_countries]; quiet_run.
Qed.
#[local] Hint Resolve quiet_scan_countries : quiet.

Lemma quiet_find_country db dblen header alpha2 :
  quiet (find_country db dblen header alpha2).
Proof. unfold find_country. quiet_run. Qed.

Lemma quiet_put_reg_rule h w db dblen ruleptr msg :
  quiet (put_reg_rule h w db dblen ruleptr msg).
Proof. unfold put_reg_rule, NLA_PUT_U32. quiet_run. Qed.
#[local] Hint Resolve quiet_put_reg_rule : quiet.

Lemma quiet_rules_loop h w db dblen i rcoll n :
  forall j r msg, quiet (rules_loop h w db dblen i rcoll n j r msg).
Proof.
  induction n as [|n IH]; intros j r msg; cbn [rules_loop]; quiet_run.
Qed.
#[local] Hint Resolve quiet_rules_loop : quiet.

Lemma quiet_build_message h w db dblen i country r :
  quiet (build_message h w db dblen i country r).
Proof. unfold build_message. quiet_run. Qed.

Lemma main_send_sends w msg r msg' :
  In (Send msg') (trace (main_send w msg r)) -> msg' = msg.
Proof.
  unfold main_send, goto_cb_out, goto_nla_put_failure, goto_out,
    nl80211_cleanup, error_handler.
  destruct (nl_cb_alloc_ok w); cbn.
  - destruct (nl_send_auto_complete w msg <? 0); cbn.
    + intros H. repeat (destruct H as [H|H]; try discriminate).
      * now inversion H.
      * destruct H.
    + destruct (nl_wait_for_ack w) as [r'|e]; cbn.
      * destruct (r' <? 0); cbn; intros H;
          repeat (destruct H as [H|H]; try discriminate);
          try (now inversion H); destruct H.
      * intros H. repeat (destruct H as [H|H]; try discriminate).
        -- now inversion H.
        -- destruct H.
  - intros H. repeat (destruct H as [H|H]; try discriminate). destruct H.
Qed.

(** A message leaves [main] only after the header was loaded, the
    signature accepted, the country found and the message built. *)
Lemma main_send_inv h crypto w msg :
  In (Send msg) (trace (main h crypto w)) ->
  exists env_country t1 db dblen siglen header t2 i country t3 r,
    getenv_COUNTRY w = Some env_country /\
    load_header h w = Run t1 (Cont (db, dblen, siglen, header)) /\
    result (verify_signature crypto w db dblen siglen) = Cont tt /\
    find_country db dblen header (memcpy2 env_country) = Run t2 (Cont (i, country)) /\
    build_message h w db dblen i country 0 = Run t3 (Cont (r, msg)).
Proof.
  unfold main. intros H.
  apply bind_trace_In in H as [H | (u & _ & H)].
  { exfalso. exact (quiet_main_declarations crypto msg H). }
  revert H.
  destruct (negb (argc w =? 1)).
  { cbn. intros [H|[]]. discriminate. }
  destruct (getenv_COUNTRY w) as [env_country|].
  2:{ cbn. intros [H|[]]. discriminate. }
  destruct (negb (c_true (is_alpha2 env_country))
            && negb (c_true (is_world_regdom env_country))).
  { cbn. intros [H|[]]. discriminate. }
  intros H. apply bind_trace_In in H as [H | (r0 & _ & H)].
  { exfalso. exact (quiet_nl80211_init w msg H). }
  destruct (c_true r0).
  { destruct H. }
  unfold main_db in H.
  apply bind_trace_In in H as [H | ([[[db dblen] siglen] header] & Hhd & H)].
  { exfalso. exact (quiet_load_header h w msg H). }
  apply bind_trace_In in H as [H | ([] & Hver & H)].
  { exfalso. exact (quiet_verify_signature crypto w db dblen siglen msg H). }
  apply bind_trace_In in H as [H | ([i country] & Hfind & H)].
  { exfalso. exact (quiet_find_country db dblen header _ msg H). }
  apply bind_trace_In in H as [H | ([r msg'] & Hbuild & H)].
  { exfalso. exact (quiet_build_message h w db dblen _ _ _ msg H). }
  apply main_send_sends in H. simpl in H, Hbuild. subst msg'.
  exists env_country, (trace (load_header h w)), db, dblen, siglen, header.
  exists (trace (find_country db dblen header (memcpy2 env_country))), i, country.
  exists (trace (build_message h w db dblen i country 0)), r.
  split; [reflexivity|].
  split; [now apply result_Cont_eta|].
  split; [exact Hver|].
  split; now apply result_Cont_eta.
Qed.

(** C10.  In a message that [main] sends, every nested container of the
    rules container has the same attribute type: the index [i] at which
    [find_country] found the requested code in the country table.  The
    position of the rule in its collection does not appear. *)
Theorem rule_containers_carry_country_index :
  forall h crypto w msg,
    In (Send msg) (trace (main h crypto w)) ->
    exists env_country dblen header t i country alpha2 bodies,
      getenv_COUNTRY w = Some env_country /\
      find_country (mapped_db w) dblen header (memcpy2 env_country)
        = Run t (Cont (i, country)) /\
      nm_attrs msg =
        [NlaString (NL80211_ATTR_REG_ALPHA2 h) alpha2;
         NlaNested (NL80211_ATTR_REG_RULES h) (map (NlaNested i) bodies)].
Proof.
  intros h crypto w msg H.
  apply main_send_inv in H
    as (env & t1 & db & dblen & siglen & header & t2 & i & country & t3 & r
        & Henv & Hhd & _ & Hfind & Hbuild).
  apply load_header_Cont in Hhd as (-> & _).
  apply build_message_Cont in Hbuild
    as (alpha2 & rcoll & num & rules & _ & _ & _ & _ & _ & Hattrs & _).
  exists env, dblen, header, t2, i, country, alpha2, (map (rule_attrs h) rules).
  repeat split; try assumption.
  rewrite Hattrs, map_map. reflexivity.
Qed.

Lemma duplicate_us_sent :
  In (Send Fixtures.msg_duplicate_us)
     (trace (main Fixtures.hdrs (USE_OPENSSL [Fixtures.key_a])
                  (Fixtures.world_of "US" Fixtures.db_duplicate_us Fixtures.key_a))).
Proof.
  vm_compute. repeat (try (left; reflexivity); right).
Defined.

Lemma rule_containers_carry_country_index_witness :
  exists env_country dblen header t i country alpha2 bodies,
    Some "US"%string = Some env_country /\
    find_country Fixtures.db_duplicate_us dblen header (memcpy2 env_country)
      = Run t (Cont (i, country)) /\
    nm_attrs Fixtures.msg_duplicate_us =
      [NlaString 33 alpha2; NlaNested 34 (map (NlaNested i) bodies)].
Proof.
  exact (rule_containers_carry_country_index Fixtures.hdrs
           (USE_OPENSSL [Fixtures.key_a])
           (Fixtures.world_of "US" Fixtures.db_duplicate_us Fixtures.key_a)
           Fixtures.msg_duplicate_us duplicate_us_sent).
Defined.

(** ** Where the process is terminated *)

Lemma exit_origin_bind w {A B} (m : run A) (f : A -> run B) :
  exit_origin w m -> (forall a, exit_origin w (f a)) -> exit_origin w (bind m f).
Proof.
  intros Hm Hf status H.
  destruct m as [t1 [a| | |]]; unfold bind in *; cbn in *; try discriminate.
  - destruct (Hf a status H) as [[-> [t Ht]]|[Hack [t Ht]]]; [left|right];
      (split; [auto|]); exists (t1 ++ t); rewrite Ht, app_assoc; reflexivity.
  - injection H as <-. exact (Hm status0 eq_refl).
Qed.

Lemma exit_origin_no_exit w {A} t (o : outcome A) :
  (forall status, o <> Exit status) -> exit_origin w (Run t o).
Proof. intros Ho status H. exfalso. exact (Ho status H). Qed.

Lemma exit_origin_get_file_ptr w db dblen structlen ptr :
  exit_origin w (get_file_ptr db dblen structlen ptr).
Proof.
  destruct (get_file_ptr_cases db dblen structlen ptr) as [[_ ->]|[_ ->]].
  - intros status [= <-]. left. split; [reflexivity|]. now exists [].
  - apply exit_origin_no_exit. discriminate.
Qed.

Lemma exit_origin_of_load w {A} (o : option A) : exit_origin w (of_load o).
Proof. destruct o; apply exit_origin_no_exit; discriminate. Qed.

Lemma exit_origin_load_be32 w db off : exit_origin w (load_be32 db off).
Proof. apply exit_origin_of_load. Qed.

Lemma exit_origin_error_handler w {A} e :
  nl_wait_for_ack w = AckError e -> exit_origin w (@error_handler A e).
Proof.
  intros Hack status [= <-]. right. split; [exact Hack|]. now exists [].
Qed.

Create HintDb exits.
#[local] Hint Resolve exit_origin_get_file_ptr exit_origin_of_load
  exit_origin_load_be32 exit_origin_error_handler : exits.
#[local] Hint Extern 1 (exit_origin _ (Run _ _)) =>
  apply exit_origin_no_exit; discriminate : exits.
#[local] Hint Extern 1 (exit_origin _ (emit _)) =>
  apply exit_origin_no_exit; discriminate : exits.
#[local] Hint Extern 1 (exit_origin _ (fprintf_stderr _ _)) =>
  apply exit_origin_no_exit; discriminate : exits.
#[local] Hint Extern 1 (exit_origin _ (perror _)) =>
  apply exit_origin_no_exit; discriminate : exits.
#[local] Hint Extern 1 (exit_origin _ (ret _)) =>
  apply exit_origin_no_exit; discriminate : exits.
#[local] Hint Extern 1 (exit_origin _ (c_return _)) =>
  apply exit_origin_no_exit; discriminate : exits.
#[local] Hint Extern 1 (exit_origin _ fault) =>
  apply exit_origin_no_exit; discriminate : exits.

Ltac exit_step :=
  match goal with
  | |- exit_origin _ (bind _ _) => apply exit_origin_bind; [| intros ?]
  | |- exit_origin _ (if ?b then _ else _) => destruct b
  | |- exit_origin _ (match ?x with _ => _ end) => destruct x eqn:?
  | |- exit_origin _ (let _ := _ in _) => cbv zeta
  | |- exit_origin _ _ => solve [auto with exits]
  end.

Ltac exit_run := repeat exit_step.

Lemma exit_origin_nl80211_init w : exit_origin w (nl80211_init w).
Proof. unfold nl80211_init. exit_run. Qed.

Lemma exit_origin_goto_out w {A} r : exit_origin w (@goto_out A r).
Proof. unfold goto_out, nl80211_cleanup. exit_run. Qed.
#[local] Hint Resolve exit_origin_nl80211_init exit_origin_goto_out : exits.

Lemma exit_origin_goto_nla_put_failure w {A} r :
  exit_origin w (@goto_nla_put_failure A r).
Proof. unfold goto_nla_put_failure. exit_run. Qed.
#[local] Hint Resolve exit_origin_goto_nla_put_failure : exits.

Lemma exit_origin_goto_cb_out w {A} r : exit_origin w (@goto_cb_out A r).
Proof. unfold goto_cb_out. exit_run. Qed.
#[local] Hint Resolve exit_origin_goto_cb_out : exits.

Lemma exit_origin_main_declarations w crypto :
  exit_origin w (main_declarations crypto).
Proof. unfold main_declarations. exit_run. Qed.
#[local] Hint Resolve exit_origin_main_declarations : exits.

Lemma exit_origin_load_header h w : exit_origin w (load_header h w).
Proof. unfold load_header. exit_run. Qed.

Lemma exit_origin_openssl_try_keys w db dblen siglen hash keys :
  exit_origin w (openssl_try_keys w db dblen siglen hash keys).
Proof.
  induction keys as [|k keys IH]; cbn [openssl_try_keys]; exit_run.
Qed.

Lemma exit_origin_gcrypt_try_keys w key0 data signature iter :
  exit_origin w (gcrypt_try_keys w key0 data signature iter).
Proof.
  induction iter as [|k iter IH]; cbn [gcrypt_try_keys]; exit_run.
Qed.
#[local] Hint Resolve exit_origin_openssl_try_keys exit_origin_gcrypt_try_keys : exits.

Lemma exit_origin_verify_signature crypto w db dblen siglen :
  exit_origin w (verify_signature crypto w db dblen siglen).
Proof.
  unfold verify_signature, verify_openssl, verify_gcrypt. exit_run.
Qed.

Lemma exit_origin_scan_countries w db countries alpha2 n :
  forall i, exit_origin w (scan_countries db countries alpha2 n i).
Proof.
  induction n as [|n IH]; intros i; cbn [scan_countries]; exit_run.
Qed.
#[local] Hint Resolve exit_origin_scan_countries : exits.

Lemma exit_origin_find_country w db dblen header alpha2 :
  exit_origin w (find_country db dblen header alpha2).
Proof. unfold find_country. exit_run. Qed.

Lemma exit_origin_put_reg_rule h w db dblen ruleptr msg :
  exit_origin w (put_reg_rule h w db dblen ruleptr msg).
Proof. unfold put_reg_rule, NLA_PUT_U32. exit_run. Qed.
#[local] Hint Resolve exit_origin_put_reg_rule : exits.

Lemma exit_origin_rules_loop h w db dblen i rcoll n :
  forall j r msg, exit_origin w (rules_loop h w db dblen i rcoll n j r msg).
Proof.
  induction n as [|n IH]; intros j r msg; cbn [rules_loop]; exit_run.
Qed.
#[local] Hint Resolve exit_origin_rules_loop : exits.

Lemma exit_origin_build_message h w db dblen i country r :
  exit_origin w (build_message h w db dblen i country r).
Proof. unfold build_message. exit_run. Qed.

Lemma exit_origin_main_send w msg r : exit_origin w (main_send w msg r).
Proof. unfold main_send. exit_run. Qed.
#[local] Hint Resolve exit_origin_load_header exit_origin_verify_signature
  exit_origin_find_country exit_origin_build_message exit_origin_main_send : exits.

(** *** Failures that end with [main] returning *)

Lemma returns_on_failure_bind {A B} (m : run A) (f : A -> run B) :
  returns_on_failure m -> (forall a, returns_on_failure (f a)) ->
  returns_on_failure (bind m f).
Proof.
  intros Hm Hf e He Hin.
  apply bind_trace_In in Hin as [Hin | (a & Ha & Hin)].
  - destruct (Hm e He Hin) as [r Hr]. exists r.
    unfold bind. rewrite Hr. reflexivity.
  - destruct (Hf a e He Hin) as [r Hr]. exists r.
    unfold bind. rewrite Ha. exact Hr.
Qed.

Lemma returns_on_failure_of_returns {A} (m : run A) :
  (exists r, result m = Return r) -> returns_on_failure m.
Proof. intros H e _ _. exact H. Qed.

Lemma returns_on_failure_nil {A} (o : outcome A) : returns_on_failure (Run [] o).
Proof. intros e _ []. Qed.

Lemma returns_on_failure_one {A} e (o : outcome A) :
  failure_mark e = false -> returns_on_failure (Run [e] o).
Proof.
  intros He e' He' [<-|[]]. rewrite He in He'. discriminate.
Qed.

Lemma returns_on_failure_get_file_ptr db dblen structlen ptr :
  returns_on_failure (get_file_ptr db dblen structlen ptr).
Proof.
  destruct (get_file_ptr_cases db dblen structlen ptr) as [[_ ->]|[_ ->]].
  - apply returns_on_failure_one. reflexivity.
  - apply returns_on_failure_nil.
Qed.

Lemma returns_on_failure_of_load {A} (o : option A) :
  returns_on_failure (of_load o).
Proof. destruct o; apply returns_on_failure_nil. Qed.

Lemma returns_on_failure_load_be32 db off : returns_on_failure (load_be32 db off).
Proof. apply returns_on_failure_of_load. Qed.

Lemma returns_on_failure_error_handler {A} e :
  returns_on_failure (@error_handler A e).
Proof.
  intros e' He' [<-|[]]. discriminate He'.
Qed.

Lemma returns_on_failure_goto_out {A} r : returns_on_failure (@goto_out A r).
Proof. apply returns_on_failure_of_returns. now exists r. Qed.

Lemma returns_on_failure_goto_nla_put_failure {A} r :
  returns_on_failure (@goto_nla_put_failure A r).
Proof. apply returns_on_failure_of_returns. now exists r. Qed.

Lemma returns_on_failure_goto_cb_out {A} r :
  returns_on_failure (@goto_cb_out A r).
Proof. apply returns_on_failure_of_returns. now exists r. Qed.

Create HintDb returns.
#[local] Hint Resolve returns_on_failure_get_file_ptr returns_on_failure_of_load
  returns_on_failure_load_be32 returns_on_failure_error_handler
  returns_on_failure_goto_out returns_on_failure_goto_nla_put_failure
  returns_on_failure_goto_cb_out : returns.
#[local] Hint Extern 1 (returns_on_failure (emit _)) =>
  apply returns_on_failure_one; reflexivity : returns.
#[local] Hint Extern 1 (returns_on_failure (ret _)) =>
  apply returns_on_failure_nil : returns.
#[local] Hint Extern 1 (returns_on_failure (c_return _)) =>
  apply returns_on_failure_nil : returns.
#[local] Hint Extern 1 (returns_on_failure fault) =>
  apply returns_on_failure_nil : returns.
#[local] Hint Extern 1 (returns_on_failure (Run [] _)) =>
  apply returns_on_failure_nil : returns.

(** A diagnostic is followed by statements that lead to [return]: the
    outcome of the branch is read off by evaluation. *)
Ltac returns_now :=
  solve [apply returns_on_failure_of_returns; eexists; reflexivity].

Ltac returns_step :=
  match goal with
  | |- returns_on_failure (if ?b then _ else _) => destruct b
  | |- returns_on_failure (match ?x with _ => _ end) => destruct x eqn:?
  | |- returns_on_failure (let _ := _ in _) => cbv zeta
  | |- returns_on_failure (bind (nl80211_init _) _) => fail 1
  | |- returns_on_failure (bind (fprintf_stderr _ _) _) => returns_now
  | |- returns_on_failure (bind (perror _) _) => returns_now
  | |- returns_on_failure (bind _ _) =>
      apply returns_on_failure_bind; [| intros ?]
  | |- returns_on_failure _ => solve [auto with returns]
  end.

Ltac returns_run := repeat returns_step.

(** [nl80211_init] reports its failures to [main]: after one of its
    diagnostics it hands back a code that is not 0. *)
Lemma nl80211_init_failure_code w e :
  failure_mark e = true -> In e (trace (nl80211_init w)) ->
  exists r, result (nl80211_init w) = Cont r /\ c_true r = true.
Proof.
  unfold nl80211_init. intros He.
  destruct (nl_handle_alloc_ok w); cbn.
  2:{ intros _. eexists. split; reflexivity. }
  destruct (genl_connect_ok w); cbn.
  2:{ intros _. eexists. split; reflexivity. }
  destruct (genl_ctrl_alloc_cache_ok w); cbn.
  2:{ intros _. eexists. split; reflexivity. }
  destruct (genl_ctrl_search_by_name_ok w); cbn.
  2:{ intros _. eexists. split; reflexivity. }
  intros H. repeat (destruct H as [<-|H]; [discriminate He|]). destruct H.
Qed.

Lemma returns_on_failure_main_declarations crypto :
  returns_on_failure (main_declarations crypto).
Proof. unfold main_declarations. returns_run. Qed.

Lemma returns_on_failure_load_header h w : returns_on_failure (load_header h w).
Proof. unfold load_header. returns_run. Qed.

Lemma returns_on_failure_openssl_try_keys w db dblen siglen hash keys :
  returns_on_failure (openssl_try_keys w db dblen siglen hash keys).
Proof.
  induction keys as [|k keys IH]; cbn [openssl_try_keys]; returns_run;
    exact IH.
Qed.

Lemma returns_on_failure_gcrypt_try_keys w key0 data signature iter :
  returns_on_failure (gcrypt_try_keys w key0 data signature iter).
Proof.
  induction iter as [|k iter IH]; cbn [gcrypt_try_keys]; returns_run;
    exact IH.
Qed.
#[local] Hint Resolve returns_on_failure_openssl_try_keys
  returns_on_failure_gcrypt_try_keys : returns.

Lemma returns_on_failure_verify_signature crypto w db dblen siglen :
  returns_on_failure (verify_signature crypto w db dblen siglen).
Proof.
  unfold verify_signature, verify_openssl, verify_gcrypt. returns_run.
Qed.

Lemma returns_on_failure_scan_countries db countries alpha2 n :
  forall i, returns_on_failure (scan_countries db countries alpha2 n i).
Proof.
  induction n as [|n IH]; intros i; cbn [scan_countries]; returns_run;
    apply IH.
Qed.
#[local] Hint Resolve returns_on_failure_scan_countries : returns.

Lemma returns_on_failure_find_country db dblen header alpha2 :
  returns_on_failure (find_country db dblen header alpha2).
Proof. unfold find_country. returns_run. Qed.

Lemma returns_on_failure_put_reg_rule h w db dblen ruleptr msg :
  returns_on_failure (put_reg_rule h w db dblen ruleptr msg).
Proof. unfold put_reg_rule, NLA_PUT_U32. returns_run. Qed.
#[local] Hint Resolve returns_on_failure_put_reg_rule : returns.

Lemma returns_on_failure_rules_loop h w db dblen i rcoll n :
  forall j r msg, returns_on_failure (rules_loop h w db dblen i rcoll n j r msg).
Proof.
  induction n as [|n IH]; intros j r msg; cbn [rules_loop]; returns_run;
    apply IH.
Qed.
#[local] Hint Resolve returns_on_failure_rules_loop : returns.

Lemma returns_on_failure_build_message h w db dblen i country r :
  returns_on_failure (build_message h w db dblen i country r).
Proof. unfold build_message. returns_run. Qed.

Lemma returns_on_failure_main_send w msg r :
  returns_on_failure (main_send w msg r).
Proof. unfold main_send. returns_run. Qed.
#[local] Hint Resolve returns_on_failure_main_declarations
  returns_on_failure_load_header returns_on_failure_verify_signature
  returns_on_failure_find_country returns_on_failure_build_message
  returns_on_failure_main_send : returns.

Lemma returns_on_failure_main_db h crypto w alpha2 :
  returns_on_failure (main_db h crypto w alpha2).
Proof. unfold main_db. returns_run. Qed.

Lemma returns_on_failure_main h crypto w :
  returns_on_failure (main h crypto w).
Proof.
  unfold main. returns_run.
  intros e He Hin.
  apply bind_trace_In in Hin as [Hin | (r & Hr & Hin)].
  - destruct (nl80211_init_failure_code w e He Hin) as (r & Hr & Hc).
    exists (- EIO). unfold bind. rewrite Hr. cbv zeta. rewrite Hc. reflexivity.
  - destruct (c_true r) eqn:Hc; [destruct Hin|].
    destruct (returns_on_failure_main_db h crypto w _ e He Hin) as [r' Hr'].
    exists r'. unfold bind. rewrite Hr. cbv zeta. rewrite Hc. exact Hr'.
Qed.

(** *** What a failed attribute put changes *)

Lemma returned_unsent_bind_l {A B} (m : run A) (f : A -> run B) :
  returned_unsent m -> returned_unsent (bind m f).
Proof.
  intros [[r Hr] Hq]. destruct m as [t o]. cbn in Hr. subst o.
  unfold bind. cbn. split; [now exists r | exact Hq].
Qed.

(** Past a part that does not depend on the puts, two runs agree when
    their continuations do. *)
Lemma room_bind {A B} (m : run A) (f g : A -> run B) :
  quiet m ->
  (forall a, f a = g a \/ returned_unsent (f a)) ->
  bind m f = bind m g \/ returned_unsent (bind m f).
Proof.
  intros Hq H. destruct m as [t [a| | |]]; try (left; reflexivity).
  destruct (H a) as [E | [[r Hr] Hq']].
  - left. unfold bind. cbn. rewrite E. reflexivity.
  - right. split.
    + exists r. unfold bind. cbn. exact Hr.
    + intros msg Hin. unfold bind in Hin. cbn in Hin.
      apply in_app_or in Hin as [Hin|Hin]; [exact (Hq msg Hin) | exact (Hq' msg Hin)].
Qed.

Lemma put_bind {A} (m : run A) (f g : A -> run (Z * nl_msg)) :
  (forall a, f a = g a \/ exists t msg, f a = Run t (Cont (-1, msg))) ->
  bind m f = bind m g \/ exists t msg, bind m f = Run t (Cont (-1, msg)).
Proof.
  intros H. destruct m as [t [a| | |]]; try (left; reflexivity).
  destruct (H a) as [E | (t' & msg & E)].
  - left. unfold bind. cbn. rewrite E. reflexivity.
  - right. exists (t ++ t'), msg. unfold bind. cbn. rewrite E. reflexivity.
Qed.

(** [put_reg_rule] with a put that fails hands -1 back to its caller;
    otherwise it runs as if every put found room. *)
Lemma put_reg_rule_room h w db dblen ruleptr msg :
  put_reg_rule h w db dblen ruleptr msg
    = put_reg_rule h (all_room w) db dblen ruleptr msg
  \/ exists t msg',
       put_reg_rule h w db dblen ruleptr msg = Run t (Cont (-1, msg')).
Proof.
  unfold put_reg_rule, NLA_PUT_U32, nla_put. cbn [nla_room all_room].
  apply put_bind; intros rule.
  apply put_bind; intros freq_ptr.
  apply put_bind; intros freq.
  apply put_bind; intros power_ptr.
  apply put_bind; intros power.
  apply put_bind; intros flags.
  destruct (nla_room w _); [|right; eexists _, _; reflexivity].
  apply put_bind; intros start_freq.
  destruct (nla_room w _); [|right; eexists _, _; reflexivity].
  apply put_bind; intros end_freq.
  destruct (nla_room w _); [|right; eexists _, _; reflexivity].
  apply put_bind; intros max_bandwidth.
  destruct (nla_room w _); [|right; eexists _, _; reflexivity].
  apply put_bind; intros max_antenna_gain.
  destruct (nla_room w _); [|right; eexists _, _; reflexivity].
  apply put_bind; intros max_eirp.
  destruct (nla_room w _); [|right; eexists _, _; reflexivity].
  left. reflexivity.
Qed.

Lemma rules_loop_room h w db dblen i rcoll n :
  forall j r msg,
    rules_loop h w db dblen i rcoll n j r msg
      = rules_loop h (all_room w) db dblen i rcoll n j r msg
    \/ returned_unsent (rules_loop h w db dblen i rcoll n j r msg).
Proof.
  induction n as [|n IH]; intros j r msg; cbn [rules_loop].
  - left. reflexivity.
  - unfold nla_nest_start. cbn [nla_room all_room].
    destruct (nla_room w msg).
    2:{ right. split; [now exists r | apply quiet_goto_nla_put_failure]. }
    apply room_bind; [apply quiet_load_be32|]. intros ruleptr.
    destruct (put_reg_rule_room h w db dblen ruleptr (nest_open i msg))
      as [E | (t & msg' & E)].
    + rewrite E. apply room_bind; [apply quiet_put_reg_rule|]. intros rm.
      cbv zeta. destruct (c_true (fst rm)); [left; reflexivity | apply IH].
    + right. pose proof (quiet_put_reg_rule h w db dblen ruleptr (nest_open i msg)) as Hq.
      rewrite E in *. split.
      * exists (-1). reflexivity.
      * intros m Hin. unfold bind in Hin. cbn in Hin.
        apply in_app_or in Hin as [Hin|Hin]; [exact (Hq m Hin)|].
        exact (quiet_goto_nla_put_failure (A := Z * nl_msg) (-1) m Hin).
Qed.

Lemma build_message_room h w db dblen i country r :
  build_message h w db dblen i country r
    = build_message h (all_room w) db dblen i country r
  \/ returned_unsent (build_message h w db dblen i country r).
Proof.
  unfold build_message, nla_put, nla_nest_start.
  cbn [nla_room nlmsg_alloc_ok genl_family_get_id all_room].
  apply room_bind; [auto with quiet|]. intros _.
  destruct (negb (nlmsg_alloc_ok w)); [left; reflexivity|].
  apply room_bind; [auto with quiet|]. intros _. cbv zeta.
  apply room_bind; [auto with quiet|]. intros reg_collection_ptr.
  apply room_bind; [auto with quiet|]. intros rcoll.
  apply room_bind; [auto with quiet|]. intros reg_rule_num.
  apply room_bind; [auto with quiet|]. intros reg_collection_ptr'.
  apply room_bind; [auto with quiet|]. intros rcoll'.
  apply room_bind; [auto with quiet|]. intros alpha2.
  destruct (nla_room w _).
  2:{ right. split; [now exists r | apply quiet_goto_nla_put_failure]. }
  destruct (nla_room w _).
  2:{ right. split; [now exists (-1) | apply quiet_goto_nla_put_failure]. }
  match goal with
  | |- bind (rules_loop h w ?db ?dblen ?i ?rc ?n ?j ?r ?m) _ = _ \/ _ =>
      destruct (rules_loop_room h w db dblen i rc n j r m) as [E | Hr]
  end.
  - rewrite E. left. reflexivity.
  - right. now apply returned_unsent_bind_l.
Qed.

(** [main] with a put that fails sends nothing and returns; otherwise it
    runs as if every put found room. *)
Lemma main_room h crypto w :
  main h crypto w = main h crypto (all_room w)
  \/ returned_unsent (main h crypto w).
Proof.
  unfold main. cbn [argc getenv_COUNTRY all_room].
  apply room_bind; [apply quiet_main_declarations|]. intros _.
  destruct (negb (argc w =? 1)); [left; reflexivity|].
  destruct (getenv_COUNTRY w) as [env_country|]; [|left; reflexivity].
  destruct (negb (c_true (is_alpha2 env_country))
            && negb (c_true (is_world_regdom env_country)));
    [left; reflexivity|].
  cbv zeta.
  change (nl80211_init (all_room w)) with (nl80211_init w).
  apply room_bind; [apply quiet_nl80211_init|]. intros r0.
  destruct (c_true r0); [left; reflexivity|].
  unfold main_db.
  change (load_header h (all_room w)) with (load_header h w).
  apply room_bind; [apply quiet_load_header|].
  intros [[[db dblen] siglen] header].
  change (verify_signature crypto (all_room w) db dblen siglen)
    with (verify_signature crypto w db dblen siglen).
  apply room_bind; [apply quiet_verify_signature|]. intros _.
  apply room_bind; [apply quiet_find_country|]. intros ic.
  destruct (build_message_room h w db dblen (fst ic) (snd ic) 0) as [E | Hr].
  - rewrite E. left. reflexivity.
  - right. now apply returned_unsent_bind_l.
Qed.




(** * Further properties of the program *)

(** ** The bounded pointer resolver, in and out of its range *)

(** Inside its range the check of [get_file_ptr] is exact: for a record
    size between 0 and a usable length that an [int] holds, the process is
    ended with status 3 exactly when the record would end after the usable
    length, the offset is returned exactly when it ends inside, and then
    the record's bytes are inside every file at least that long. *)
Theorem get_file_ptr_exact_in_range db dblen structlen ptr :
  0 <= structlen <= dblen -> dblen <= INT_MAX ->
  (get_file_ptr db dblen structlen ptr = Run [bad_pointer] (Exit 3)
   <-> dblen < ntohl ptr + structlen)
  /\
  (get_file_ptr db dblen structlen ptr = Run [] (Cont (ntohl ptr))
   <-> ntohl ptr + structlen <= dblen)
  /\
  (ntohl ptr + structlen <= dblen ->
   dblen <= Z.of_nat (List.length db) ->
   exists view, Mem.load_bytes db (ntohl ptr) structlen = Some view /\
                Z.of_nat (List.length view) = structlen).
Proof.
  intros Hs Hd.
  destruct (get_file_ptr_in_range db dblen structlen ptr Hs Hd) as [Hfail Hok].
  split; [|split].
  - split; [|exact Hfail]. intros E.
    destruct (Z_lt_le_dec dblen (ntohl ptr + structlen)) as [|Hle]; [assumption|].
    destruct (Hok Hle) as [E' _]. rewrite E' in E. discriminate.
  - split; [|intros Hle; exact (proj1 (Hok Hle))]. intros E.
    destruct (Z_lt_le_dec dblen (ntohl ptr + structlen)) as [Hlt|]; [|assumption].
    rewrite (Hfail Hlt) in E. discriminate.
  - intros Hle Hlen. exact (proj2 (Hok Hle) Hlen).
Qed.

Lemma get_file_ptr_exact_in_range_witness :
  (get_file_ptr Fixtures.db_us 68 12 (htonl 60) = Run [bad_pointer] (Exit 3)
   <-> 68 < ntohl (htonl 60) + 12)
  /\
  (get_file_ptr Fixtures.db_us 68 12 (htonl 60)
   = Run [] (Cont (ntohl (htonl 60)))
   <-> ntohl (htonl 60) + 12 <= 68)
  /\
  (ntohl (htonl 60) + 12 <= 68 ->
   68 <= Z.of_nat (List.length Fixtures.db_us) ->
   exists view, Mem.load_bytes Fixtures.db_us (ntohl (htonl 60)) 12 = Some view /\
                Z.of_nat (List.length view) = 12).
Proof.
  apply get_file_ptr_exact_in_range.
  - lia.
  - vm_compute. discriminate.
Defined.

Lemma get_file_ptr_oversized_witness :
  get_file_ptr Fixtures.db_10_bytes 10 20 (htonl 7) = Run [] (Cont (ntohl (htonl 7))).
Proof.
  apply get_file_ptr_oversized.
  - lia.
  - vm_compute. discriminate.
  - vm_compute. discriminate.
Defined.

(** What [get_file_ptr] hands back when the record size is in range: an
    offset at which the whole record lies inside the usable length. *)
Lemma get_file_ptr_granted db dblen structlen ptr t p :
  0 <= structlen <= dblen -> dblen <= INT_MAX ->
  get_file_ptr db dblen structlen ptr = Run t (Cont p) ->
  0 <= p /\ p + structlen <= dblen.
Proof.
  intros Hs Hd H. apply get_file_ptr_Cont in H as (_ & -> & Hle).
  pose proof (ntohl_range ptr). unfold INT_MAX in Hd.
  rewrite to_int_id in Hle by (unfold is_int, INT_MIN, INT_MAX; lia).
  rewrite to_u32_nonneg in Hle by lia. lia.
Qed.

(** ** Reads that stay inside the file *)

Lemma load_be32_in_bounds db off :
  0 <= off -> off + 4 <= Z.of_nat (List.length db) ->
  exists v, Mem.load_be32 db off = Some v.
Proof.
  intros H0 H1. unfold Mem.load_be32.
  destruct (load_bytes_in_bounds db off 4 H0 ltac:(lia) H1) as [v Hv].
  rewrite Hv. apply load_bytes_length in Hv.
  destruct v as [|a [|b [|c [|d [|e v]]]]]; cbn in Hv; try lia. eauto.
Qed.

Lemma no_fault_bind {A B} (m : run A) (f : A -> run B) :
  no_fault m -> (forall a, result m = Cont a -> no_fault (f a)) ->
  no_fault (bind m f).
Proof.
  unfold no_fault, bind. destruct m as [t [a| | |]]; cbn; intros Hm Hf;
    try discriminate; [apply Hf; reflexivity | contradiction].
Qed.

Lemma no_fault_get_file_ptr db dblen structlen ptr :
  no_fault (get_file_ptr db dblen structlen ptr).
Proof.
  unfold no_fault.
  destruct (get_file_ptr_cases db dblen structlen ptr) as [[_ ->]|[_ ->]];
    discriminate.
Qed.

Lemma no_fault_load_be32 db off :
  0 <= off -> off + 4 <= Z.of_nat (List.length db) ->
  no_fault (load_be32 db off).
Proof.
  intros H0 H1. destruct (load_be32_in_bounds db off H0 H1) as [v Hv].
  unfold no_fault, load_be32. rewrite Hv. discriminate.
Qed.

Lemma result_get_file_ptr_Cont db dblen structlen ptr p :
  0 <= structlen <= dblen -> dblen <= INT_MAX ->
  result (get_file_ptr db dblen structlen ptr) = Cont p ->
  0 <= p /\ p + structlen <= dblen.
Proof.
  intros Hs Hd H. apply result_Cont_eta in H.
  eapply get_file_ptr_granted; eauto.
Qed.

(** [put_reg_rule] is memory safe: in a usable length that holds a rule
    record and does not exceed the file, whatever the rule pointer and the
    pointers stored in the rule are, no read leaves the file. *)
Lemma put_reg_rule_no_fault h w db dblen ruleptr msg :
  sizeof_reg_rule <= dblen ->
  dblen <= Z.of_nat (List.length db) ->
  dblen <= INT_MAX ->
  no_fault (put_reg_rule h w db dblen ruleptr msg).
Proof.
  unfold sizeof_reg_rule. intros Hmin Hlen Hmax.
  unfold put_reg_rule.
  apply no_fault_bind; [apply no_fault_get_file_ptr|]. intros rule Hrule.
  apply result_get_file_ptr_Cont in Hrule;
    [| unfold sizeof_reg_rule; lia | exact Hmax].
  unfold sizeof_reg_rule in Hrule.
  apply no_fault_bind;
    [apply no_fault_load_be32; unfold off_freq_range_ptr; lia|].
  intros freq_ptr _.
  apply no_fault_bind; [apply no_fault_get_file_ptr|]. intros freq Hfreq.
  apply result_get_file_ptr_Cont in Hfreq;
    [| unfold sizeof_freq_range; lia | exact Hmax].
  unfold sizeof_freq_range in Hfreq.
  apply no_fault_bind;
    [apply no_fault_load_be32; unfold off_power_rule_ptr; lia|].
  intros power_ptr _.
  apply no_fault_bind; [apply no_fault_get_file_ptr|]. intros power Hpower.
  apply result_get_file_ptr_Cont in Hpower;
    [| unfold sizeof_power_rule; lia | exact Hmax].
  unfold sizeof_power_rule in Hpower.
  apply no_fault_bind; [apply no_fault_load_be32; unfold off_flags; lia|].
  intros flags _.
  unfold NLA_PUT_U32, nla_put.
  destruct (nla_room w _); [|discriminate].
  apply no_fault_bind; [apply no_fault_load_be32; unfold off_start_freq; lia|].
  intros start_freq _.
  destruct (nla_room w _); [|discriminate].
  apply no_fault_bind; [apply no_fault_load_be32; unfold off_end_freq; lia|].
  intros end_freq _.
  destruct (nla_room w _); [|discriminate].
  apply no_fault_bind; [apply no_fault_load_be32; unfold off_max_bandwidth; lia|].
  intros max_bw _.
  destruct (nla_room w _); [|discriminate].
  apply no_fault_bind;
    [apply no_fault_load_be32; unfold off_max_antenna_gain; lia|].
  intros gain _.
  destruct (nla_room w _); [|discriminate].
  apply no_fault_bind; [apply no_fault_load_be32; unfold off_max_eirp; lia|].
  intros eirp _.
  destruct (nla_room w _); discriminate.
Qed.

Lemma put_reg_rule_no_fault_witness :
  no_fault (put_reg_rule Fixtures.hdrs
              (Fixtures.world_of "US" Fixtures.db_bad_rule_ptr Fixtures.key_a)
              Fixtures.db_bad_rule_ptr 68 (htonl 4096) nlmsg_empty).
Proof.
  apply put_reg_rule_no_fault.
  - vm_compute. discriminate.
  - vm_compute. discriminate.
  - vm_compute. discriminate.
Defined.

(** ** The header *)

Lemma no_fault_emit_bind {B} (e : event) (f : unit -> run B) :
  no_fault (f tt) -> no_fault (bind (emit e) f).
Proof.
  intros H. apply no_fault_bind; [discriminate|]. intros []. exact (fun _ => H).
Qed.

Lemma no_fault_goto_out {A} r : no_fault (@goto_out A r).
Proof. discriminate. Qed.

(** Checking the header of a file at least as long as a header, and
    shorter than 2 GiB, reads nothing outside the file. *)
Lemma load_header_no_fault h w :
  sizeof_header <= Z.of_nat (List.length (regdb w)) ->
  Z.of_nat (List.length (regdb w)) <= INT_MAX ->
  no_fault (load_header h w).
Proof.
  unfold sizeof_header. intros Hmin Hmax.
  destruct (mapped_db_all w Hmax) as [Hsize Hmap].
  unfold load_header. rewrite Hmap, Hsize.
  apply no_fault_emit_bind.
  destruct (negb (open_ok w)).
  { apply no_fault_emit_bind. apply no_fault_goto_out. }
  apply no_fault_emit_bind.
  destruct (negb (fstat_ok w)).
  { apply no_fault_emit_bind. apply no_fault_goto_out. }
  apply no_fault_emit_bind.
  destruct (negb (mmap_ok w)).
  { apply no_fault_emit_bind. apply no_fault_goto_out. }
  apply no_fault_bind; [apply no_fault_get_file_ptr|]. intros header Hh.
  apply result_Cont_eta, get_file_ptr_Cont in Hh as (_ & -> & _).
  change (ntohl be32_zero) with 0.
  apply no_fault_bind; [apply no_fault_load_be32; unfold off_magic; lia|].
  intros magic _.
  destruct (negb (ntohl magic =? to_u32 (REGDB_MAGIC h))).
  { apply no_fault_emit_bind. apply no_fault_goto_out. }
  apply no_fault_bind; [apply no_fault_load_be32; unfold off_version; lia|].
  intros version _.
  destruct (negb (ntohl version =? to_u32 (REGDB_VERSION h))).
  { apply no_fault_emit_bind. apply no_fault_goto_out. }
  apply no_fault_bind;
    [apply no_fault_load_be32; unfold off_signature_length; lia|].
  intros sl _. cbv zeta.
  destruct (_ <=? _).
  { apply no_fault_emit_bind. apply no_fault_goto_out. }
  discriminate.
Qed.

Lemma load_header_no_fault_witness :
  no_fault (load_header Fixtures.hdrs
              (Fixtures.world_of "US" Fixtures.db_siglen_100 Fixtures.key_a)).
Proof.
  apply load_header_no_fault.
  - vm_compute. discriminate.
  - vm_compute. discriminate.
Defined.

Lemma load_header_Cont_valid h w t db dblen siglen header :
  load_header h w = Run t (Cont (db, dblen, siglen, header)) ->
  open_ok w = true /\ fstat_ok w = true /\ mmap_ok w = true /\
  t = [Call "open"; Call "fstat"; CallLen "mmap" (st_size_int w)] /\
  field (mapped_db w) off_magic = Some (to_u32 (REGDB_MAGIC h)) /\
  field (mapped_db w) off_version = Some (to_u32 (REGDB_VERSION h)).
Proof.
  unfold load_header. intros H.
  inv_bind H as u1 Hopen. destruct (open_ok w); cbn [negb] in H.
  2:{ apply bind_Cont_inv in H as (? & ? & ? & _ & H & _).
      apply bind_Cont_inv in H as (? & ? & ? & _ & H & _). inversion H. }
  inv_bind H as u2 Hfstat. destruct (fstat_ok w); cbn [negb] in H.
  2:{ apply bind_Cont_inv in H as (? & ? & ? & _ & H & _).
      apply bind_Cont_inv in H as (? & ? & ? & _ & H & _). inversion H. }
  inv_bind H as u3 Hmmap. destruct (mmap_ok w); cbn [negb] in H.
  2:{ apply bind_Cont_inv in H as (? & ? & ? & _ & H & _).
      apply bind_Cont_inv in H as (? & ? & ? & _ & H & _). inversion H. }
  inv_bind H as hdr Hget. apply get_file_ptr_Cont in Hget as (-> & -> & _).
  change (ntohl be32_zero) with 0 in H.
  inv_bind H as magic Hm. apply load_be32_Cont in Hm as [Hmagic ->].
  destruct (Z.eqb_spec (ntohl magic) (to_u32 (REGDB_MAGIC h))) as [Em|];
    cbn [negb] in H.
  2:{ apply bind_Cont_inv in H as (? & ? & ? & _ & H & _).
      apply bind_Cont_inv in H as (? & ? & ? & _ & H & _). inversion H. }
  inv_bind H as version Hv. apply load_be32_Cont in Hv as [Hversion ->].
  destruct (Z.eqb_spec (ntohl version) (to_u32 (REGDB_VERSION h))) as [Ev|];
    cbn [negb] in H.
  2:{ apply bind_Cont_inv in H as (? & ? & ? & _ & H & _).
      apply bind_Cont_inv in H as (? & ? & ? & _ & H & _). inversion H. }
  inv_bind H as sl Hs. apply load_be32_Cont in Hs as [Hsl ->].
  match type of H with
  | (if ?c then _ else _) = _ => destruct c
  end.
  { apply bind_Cont_inv in H as (? & ? & ? & _ & H & _).
    apply bind_Cont_inv in H as (? & ? & ? & _ & H & _). inversion H. }
  inversion H; subst.
  inversion Hopen; inversion Hfstat; inversion Hmmap; subst.
  rewrite <- Em, <- Ev.
  repeat split; assumption.
Qed.

(** [load_header] lets a file through only after the three system calls
    succeeded and the magic and the version of the header were found
    equal to the expected constants; nothing is printed on that path. *)
Theorem load_header_accepts_only_valid_header h w t db dblen siglen header :
  load_header h w = Run t (Cont (db, dblen, siglen, header)) ->
  open_ok w = true /\ fstat_ok w = true /\ mmap_ok w = true /\
  t = [Call "open"; Call "fstat"; CallLen "mmap" (st_size_int w)] /\
  field (mapped_db w) off_magic = Some (to_u32 (REGDB_MAGIC h)) /\
  field (mapped_db w) off_version = Some (to_u32 (REGDB_VERSION h)).
Proof. exact (load_header_Cont_valid h w t db dblen siglen header). Qed.

Lemma load_header_accepts_only_valid_header_witness :
  open_ok (Fixtures.world_of "US" Fixtures.db_us Fixtures.key_a) = true /\
  fstat_ok (Fixtures.world_of "US" Fixtures.db_us Fixtures.key_a) = true /\
  mmap_ok (Fixtures.world_of "US" Fixtures.db_us Fixtures.key_a) = true /\
  [Call "open"; Call "fstat"; CallLen "mmap" 72] =
  [Call "open"; Call "fstat";
   CallLen "mmap" (st_size_int (Fixtures.world_of "US" Fixtures.db_us Fixtures.key_a))] /\
  field (mapped_db (Fixtures.world_of "US" Fixtures.db_us Fixtures.key_a)) off_magic
  = Some (to_u32 (REGDB_MAGIC Fixtures.hdrs)) /\
  field (mapped_db (Fixtures.world_of "US" Fixtures.db_us Fixtures.key_a)) off_version
  = Some (to_u32 (REGDB_VERSION Fixtures.hdrs)).
Proof.
  apply (load_header_accepts_only_valid_header Fixtures.hdrs
           (Fixtures.world_of "US" Fixtures.db_us Fixtures.key_a)
           [Call "open"; Call "fstat"; CallLen "mmap" 72]
           Fixtures.db_us 68 4 0).
  vm_compute. reflexivity.
Defined.

Lemma signature_length_check_in_range_witness :
  load_header Fixtures.hdrs
    (Fixtures.world_of "US" Fixtures.db_header_only Fixtures.key_a) =
  Run [Call "open"; Call "fstat"; CallLen "mmap" 24;
       Stderr "Invalid signature length %d" [4];
       Call "genl_family_put"; Call "nl_cache_free"; Call "nl_handle_destroy"]
      (Return (- EINVAL)).
Proof.
  apply (signature_length_check_in_range Fixtures.hdrs
           (Fixtures.world_of "US" Fixtures.db_header_only Fixtures.key_a) 4).
  - reflexivity.
  - reflexivity.
  - reflexivity.
  - vm_compute. discriminate.
  - reflexivity.
  - reflexivity.
  - reflexivity.
  - vm_compute. split; discriminate.
Defined.

(** ** The signature verifier *)

Lemma load_bytes_value db off n :
  0 <= off -> 0 <= n -> off + n <= Z.of_nat (List.length db) ->
  Mem.load_bytes db off n = Some (firstn (Z.to_nat n) (skipn (Z.to_nat off) db)).
Proof.
  intros H1 H2 H3. unfold Mem.load_bytes.
  apply Z.leb_le in H1, H2, H3. now rewrite H1, H2, H3.
Qed.

(** The OpenSSL verifier, for a signed part and a signature that fill the
    file: the digest is taken over the first [dblen] bytes exactly, the
    signature is the [siglen] bytes that follow, and the file is accepted
    exactly when a key of the table has the size of the signature and
    verifies it; otherwise [main] returns [-EINVAL] through [out]. *)
Lemma verify_openssl_result w db dblen siglen keys :
  RSA_new_ok w = true -> SHA1_ok w = true ->
  0 <= dblen -> 0 <= siglen ->
  dblen + siglen <= Z.of_nat (List.length db) ->
  Z.of_nat (List.length db) <= INT_MAX ->
  let signed := firstn (Z.to_nat dblen) db in
  let sig := firstn (Z.to_nat siglen) (skipn (Z.to_nat dblen) db) in
  result (verify_openssl w db dblen siglen keys) =
    if existsb (fun k => (RSA_size w k =? siglen)
                         && RSA_verify w k (SHA1 w signed) sig) keys
    then Cont tt else Return (- EINVAL).
Proof.
  intros Hnew Hsha Hd Hs Hfit Hmax signed sig. unfold INT_MAX in Hmax.
  assert (Hsigned : Mem.load_bytes db 0 (to_size_t dblen) = Some signed).
  { rewrite to_size_t_nonneg by lia. rewrite load_bytes_value by lia.
    reflexivity. }
  assert (Hsig : Mem.load_bytes db dblen (to_u32 siglen) = Some sig).
  { rewrite to_u32_nonneg by lia. now rewrite load_bytes_value by lia. }
  unfold verify_openssl. rewrite Hnew, Hsha. cbn [negb].
  rewrite !bind_emit. cbn [result].
  rewrite Hsigned. unfold of_load, ret. rewrite bind_nil_cont.
  rewrite (openssl_try_keys_spec w db dblen siglen (SHA1 w signed) sig keys Hsig).
  destruct (existsb _ keys); cbn [negb]; [|reflexivity].
  destruct keys; reflexivity.
Qed.

Lemma verify_openssl_result_witness :
  result (verify_openssl (Fixtures.world_of "US" Fixtures.db_us Fixtures.key_b)
            Fixtures.db_us 68 4 [Fixtures.key_a; Fixtures.key_b]) =
  if existsb
       (fun k =>
          (RSA_size (Fixtures.world_of "US" Fixtures.db_us Fixtures.key_b) k =? 4)
          && RSA_verify (Fixtures.world_of "US" Fixtures.db_us Fixtures.key_b) k
               (SHA1 (Fixtures.world_of "US" Fixtures.db_us Fixtures.key_b)
                  (firstn (Z.to_nat 68) Fixtures.db_us))
               (firstn (Z.to_nat 4) (skipn (Z.to_nat 68) Fixtures.db_us)))
       [Fixtures.key_a; Fixtures.key_b]
  then Cont tt else Return (- EINVAL).
Proof.
  apply verify_openssl_result.
  - reflexivity.
  - reflexivity.
  - lia.
  - lia.
  - vm_compute. discriminate.
  - vm_compute. discriminate.
Defined.

Lemma gcrypt_try_keys_result w key0 data signature iter :
  gcry_mpi_scan_ok w key0 = true ->
  gcry_sexp_build_key_ok w key0 = true ->
  result (gcrypt_try_keys w key0 data signature iter) =
    Cont (match iter with
          | [] => false
          | _ :: _ => gcry_pk_verify w key0 data signature
          end).
Proof.
  intros Hscan Hbuild.
  induction iter as [|k iter IH]; cbn [gcrypt_try_keys]; [reflexivity|].
  rewrite Hscan, Hbuild. cbn [negb]. rewrite !bind_emit. cbn [result].
  destruct (gcry_pk_verify w key0 data signature) eqn:E; [reflexivity|].
  rewrite IH. destruct iter; reflexivity.
Qed.

(** The libgcrypt verifier, when the library builds its expressions: the
    outcome is decided by the first key of the table alone; the keys after
    it play no part, and a refusal makes [main] return 2. *)
Lemma verify_gcrypt_result w db dblen siglen key0 rest :
  gcry_sexp_build_data_ok w = true -> gcry_sexp_build_sig_ok w = true ->
  gcry_mpi_scan_ok w key0 = true -> gcry_sexp_build_key_ok w key0 = true ->
  0 <= dblen -> 0 <= siglen ->
  dblen + siglen <= Z.of_nat (List.length db) ->
  Z.of_nat (List.length db) <= INT_MAX ->
  let signed := firstn (Z.to_nat dblen) db in
  let sig := firstn (Z.to_nat siglen) (skipn (Z.to_nat dblen) db) in
  result (verify_gcrypt w db dblen siglen (key0 :: rest)) =
    if gcry_pk_verify w key0 (gcry_md_hash_buffer w signed) sig
    then Cont tt else Return 2.
Proof.
  intros Hdata Hsigok Hscan Hbuild Hd Hs Hfit Hmax signed sig.
  unfold INT_MAX in Hmax.
  assert (Hsigned : Mem.load_bytes db 0 (to_size_t dblen) = Some signed).
  { rewrite to_size_t_nonneg by lia. rewrite load_bytes_value by lia.
    reflexivity. }
  assert (Hsig : Mem.load_bytes db dblen (to_size_t siglen) = Some sig).
  { rewrite to_size_t_nonneg by lia. now rewrite load_bytes_value by lia. }
  unfold verify_gcrypt. rewrite !bind_emit. cbn [result].
  rewrite Hsigned. unfold of_load, ret. rewrite bind_nil_cont.
  cbv zeta. rewrite Hdata. cbn [negb]. rewrite !bind_emit. cbn [result].
  rewrite Hsig, bind_nil_cont, Hsigok. cbn [negb hd].
  pose proof (gcrypt_try_keys_result w key0 (gcry_md_hash_buffer w signed) sig
                (key0 :: rest) Hscan Hbuild) as Hres.
  destruct (gcrypt_try_keys w key0 (gcry_md_hash_buffer w signed) sig (key0 :: rest))
    as [t o]. cbn [result] in Hres. subst o.
  unfold bind. cbn [result trace].
  destruct (gcry_pk_verify w key0 (gcry_md_hash_buffer w signed) sig); reflexivity.
Qed.

Lemma verify_gcrypt_result_witness :
  result (verify_gcrypt (Fixtures.world_of "US" Fixtures.db_us Fixtures.key_b)
            Fixtures.db_us 68 4 [Fixtures.key_a; Fixtures.key_b]) =
  if gcry_pk_verify (Fixtures.world_of "US" Fixtures.db_us Fixtures.key_b)
       Fixtures.key_a
       (gcry_md_hash_buffer (Fixtures.world_of "US" Fixtures.db_us Fixtures.key_b)
          (firstn (Z.to_nat 68) Fixtures.db_us))
       (firstn (Z.to_nat 4) (skipn (Z.to_nat 68) Fixtures.db_us))
  then Cont tt else Return 2.
Proof.
  apply verify_gcrypt_result.
  - reflexivity.
  - reflexivity.
  - reflexivity.
  - reflexivity.
  - lia.
  - lia.
  - vm_compute. discriminate.
  - vm_compute. discriminate.
Defined.

(** A run of the OpenSSL loop that ends with [ok] set found its key: a
    key of the table, of the size of the signature, under which
    [RSA_verify] accepted the signature bytes read from the file. *)
Lemma openssl_try_keys_true w db dblen siglen hash keys :
  result (openssl_try_keys w db dblen siglen hash keys) = Cont true ->
  exists k sig,
    In k keys /\ RSA_size w k = siglen /\
    Mem.load_bytes db dblen (to_u32 siglen) = Some sig /\
    RSA_verify w k hash sig = true.
Proof.
  induction keys as [|k keys IH]; cbn [openssl_try_keys].
  - discriminate.
  - destruct (Z.eqb_spec (RSA_size w k) siglen) as [Esize|_]; cbn [negb].
    + rewrite bind_emit. cbn [result]. intros H.
      apply bind_result_Cont in H as (sig & Hsig & H).
      apply result_Cont_eta, of_load_Cont in Hsig as [Hsig _].
      destruct (RSA_verify w k hash sig) eqn:Everify.
      * exists k, sig. repeat split; auto. now left.
      * destruct (IH H) as (k' & sig' & Hin & ?). exists k', sig'.
        split; [now right | assumption].
    + intros H. destruct (IH H) as (k' & sig' & Hin & ?). exists k', sig'.
      split; [now right | assumption].
Qed.

(** In a build with OpenSSL, the verifier lets [main] go on only when the
    digest was computed over the first [dblen] bytes of the file and a key
    of the table verified the signature stored after them. *)
Lemma verify_openssl_accepts_only_verified w db dblen siglen keys :
  result (verify_signature (USE_OPENSSL keys) w db dblen siglen) = Cont tt ->
  exists signed k sig,
    Mem.load_bytes db 0 (to_size_t dblen) = Some signed /\
    Mem.load_bytes db dblen (to_u32 siglen) = Some sig /\
    In k keys /\ RSA_size w k = siglen /\
    RSA_verify w k (SHA1 w signed) sig = true.
Proof.
  cbn [verify_signature]. unfold verify_openssl.
  rewrite bind_emit. cbn [result].
  destruct (negb (RSA_new_ok w)); [discriminate|].
  rewrite bind_emit. cbn [result]. intros H.
  apply bind_result_Cont in H as (signed & Hsigned & H).
  apply result_Cont_eta, of_load_Cont in Hsigned as [Hsigned _].
  destruct (negb (SHA1_ok w)); [discriminate|].
  cbv zeta in H.
  apply bind_result_Cont in H as (ok & Hok & H).
  destruct ok; cbn [negb] in H; [|discriminate].
  apply openssl_try_keys_true in Hok as (k & sig & Hin & Hsize & Hsig & Hv).
  exists signed, k, sig. auto.
Qed.

Lemma verify_openssl_accepts_only_verified_witness :
  exists signed k sig,
    Mem.load_bytes Fixtures.db_us 0 (to_size_t 68) = Some signed /\
    Mem.load_bytes Fixtures.db_us 68 (to_u32 4) = Some sig /\
    In k [Fixtures.key_a; Fixtures.key_b] /\
    RSA_size (Fixtures.world_of "US" Fixtures.db_us Fixtures.key_b) k = 4 /\
    RSA_verify (Fixtures.world_of "US" Fixtures.db_us Fixtures.key_b) k
      (SHA1 (Fixtures.world_of "US" Fixtures.db_us Fixtures.key_b) signed) sig = true.
Proof.
  apply verify_openssl_accepts_only_verified.
  vm_compute. reflexivity.
Defined.

(** ** The scan of the country table *)

Lemma scan_countries_found db countries alpha2 (n : nat) :
  forall i0 i,
    i0 <= i < i0 + Z.of_nat n ->
    (forall k, i0 <= k < i -> exists c, country_code db countries k = Some c) ->
    country_code db countries i = Some alpha2 ->
    (forall k, i0 <= k < i -> country_code db countries k <> Some alpha2) ->
    scan_countries db countries alpha2 n i0 = Run [] (Cont (Some i)).
Proof.
  induction n as [|n IH]; intros i0 i Hi Hread Hcode Hfirst; [lia|].
  cbn [scan_countries].
  destruct (Z.eq_dec i i0) as [->|Hne].
  - unfold country_code in Hcode. rewrite Hcode. unfold of_load, ret.
    rewrite bind_nil_cont.
    rewrite (proj2 (alpha2_eqb_eq alpha2 alpha2) eq_refl). reflexivity.
  - destruct (Hread i0 ltac:(lia)) as [c Hc].
    pose proof (Hfirst i0 ltac:(lia)) as Hnot.
    unfold country_code in Hc. rewrite Hc. unfold of_load, ret.
    rewrite bind_nil_cont, alpha2_eqb_neq.
    + apply IH; [lia | | exact Hcode |]; intros k Hk;
        [apply Hread | apply Hfirst]; lia.
    + intros ->. apply Hnot. exact Hc.
Qed.

(** The scan stops at the first match: once the table pointer is accepted,
    a record equal to the requested code is found whenever the records
    before it can be read and differ from the code; the records after it
    are not read, whether they lie inside the file or not. *)
Lemma find_country_stops_at_first_match db dblen header alpha2 num ptr i :
  Mem.load_be32 db (header + off_reg_country_num) = Some num ->
  Mem.load_be32 db (header + off_reg_country_ptr) = Some ptr ->
  ntohl ptr <=
    to_u32 (to_int (dblen - to_int (to_size_t (sizeof_reg_country
                                               * to_size_t (to_int (ntohl num)))))) ->
  first_match db (ntohl ptr) alpha2 (to_int (ntohl num)) i ->
  (forall k, 0 <= k < i -> exists c, country_code db (ntohl ptr) k = Some c) ->
  find_country db dblen header alpha2 =
    Run [] (Cont (i, ntohl ptr + sizeof_reg_country * i)).
Proof.
  intros Hnum Hptr Hacc (Hi & Hcode & Hfirst) Hread.
  unfold find_country.
  rewrite (load_be32_some _ _ _ Hnum), bind_nil_cont.
  rewrite (load_be32_some _ _ _ Hptr), bind_nil_cont.
  cbv zeta.
  destruct (get_file_ptr_cases db dblen
              (to_int (to_size_t (sizeof_reg_country * to_size_t (to_int (ntohl num)))))
              ptr) as [[Hlt _]|[_ ->]]; [lia|].
  rewrite bind_nil_cont.
  rewrite (scan_countries_found db (ntohl ptr) alpha2 _ 0 i);
    [| lia | intros k Hk; apply Hread; lia | exact Hcode
     | intros k Hk; apply Hfirst; lia].
  rewrite bind_nil_cont. reflexivity.
Qed.

Lemma find_country_stops_at_first_match_witness :
  find_country Fixtures.db_count_1000 28 0 (Fixtures.chars "DE") =
  Run [] (Cont (0, ntohl (htonl 20) + sizeof_reg_country * 0)).
Proof.
  apply (find_country_stops_at_first_match Fixtures.db_count_1000 28 0
           (Fixtures.chars "DE") (htonl 1000) (htonl 20) 0).
  - reflexivity.
  - reflexivity.
  - vm_compute. discriminate.
  - repeat split.
    + vm_compute. discriminate.
    + intros k Hk. lia.
  - intros k Hk. lia.
Defined.

Lemma scan_countries_sound db countries alpha2 (n : nat) :
  forall i0 t i,
    scan_countries db countries alpha2 n i0 = Run t (Cont (Some i)) ->
    t = [] /\ i0 <= i < i0 + Z.of_nat n /\
    country_code db countries i = Some alpha2 /\
    (forall k, i0 <= k < i -> country_code db countries k <> Some alpha2).
Proof.
  induction n as [|n IH]; intros i0 t i H.
  - cbn in H. inversion H.
  - cbn [scan_countries] in H.
    inv_bind H as code Hcode. apply of_load_Cont in Hcode as [Hcode ->].
    destruct (alpha2_eqb code alpha2) eqn:E.
    + apply alpha2_eqb_eq in E. subst code. inversion H; subst.
      split; [reflexivity|]. split; [lia|]. split; [exact Hcode|].
      intros k Hk. lia.
    + apply IH in H as (-> & Hi & Hc & Hfirst). subst.
      split; [reflexivity|]. split; [lia|]. split; [exact Hc|].
      intros k Hk. destruct (Z.eq_dec k i0) as [->|Hne].
      * unfold country_code. rewrite Hcode. intros [= ->].
        rewrite (proj2 (alpha2_eqb_eq alpha2 alpha2) eq_refl) in E. discriminate.
      * apply Hfirst. lia.
Qed.

Lemma find_country_Cont db dblen header alpha2 t i country :
  find_country db dblen header alpha2 = Run t (Cont (i, country)) ->
  exists num ptr,
    Mem.load_be32 db (header + off_reg_country_num) = Some num /\
    Mem.load_be32 db (header + off_reg_country_ptr) = Some ptr /\
    t = [] /\
    country = ntohl ptr + sizeof_reg_country * i /\
    first_match db (ntohl ptr) alpha2 (to_int (ntohl num)) i.
Proof.
  unfold find_country. intros H.
  inv_bind H as num Hnum. apply of_load_Cont in Hnum as [Hnum ->].
  inv_bind H as ptr Hptr. apply of_load_Cont in Hptr as [Hptr ->].
  inv_bind H as countries Hget. apply get_file_ptr_Cont in Hget as (-> & -> & _).
  inv_bind H as found Hscan.
  destruct found as [j|].
  2:{ apply bind_Cont_inv in H as (? & ? & ? & _ & H & _). inversion H. }
  inversion H; subst.
  apply scan_countries_sound in Hscan as (-> & Hi & Hcode & Hfirst).
  exists num, ptr.
  split; [exact Hnum|]. split; [exact Hptr|]. split; [reflexivity|].
  split; [reflexivity|].
  split; [lia|]. split; [exact Hcode|].
  intros k Hk. apply Hfirst. lia.
Qed.

(** Whatever the file holds, a country that [find_country] returns is a
    match: its index is below the count read as an [int], the two bytes of
    its record are the requested code, no record before it has the code,
    and the pointer is that of the record at this index. *)
Theorem find_country_sound db dblen header alpha2 t i country :
  find_country db dblen header alpha2 = Run t (Cont (i, country)) ->
  exists num ptr,
    Mem.load_be32 db (header + off_reg_country_num) = Some num /\
    Mem.load_be32 db (header + off_reg_country_ptr) = Some ptr /\
    t = [] /\
    country = ntohl ptr + sizeof_reg_country * i /\
    first_match db (ntohl ptr) alpha2 (to_int (ntohl num)) i.
Proof. exact (find_country_Cont db dblen header alpha2 t i country). Qed.

Lemma find_country_sound_witness :
  exists num ptr,
    Mem.load_be32 Fixtures.db_duplicate_us (0 + off_reg_country_num) = Some num /\
    Mem.load_be32 Fixtures.db_duplicate_us (0 + off_reg_country_ptr) = Some ptr /\
    @nil event = [] /\
    28 = ntohl ptr + sizeof_reg_country * 1 /\
    first_match Fixtures.db_duplicate_us (ntohl ptr) (Fixtures.chars "US")
      (to_int (ntohl num)) 1.
Proof.
  apply (find_country_sound Fixtures.db_duplicate_us 116 0 (Fixtures.chars "US")).
  vm_compute. reflexivity.
Defined.

(** ** The request and the netlink set-up *)

(** Whatever [main] does beyond printing a diagnostic (and beyond the
    version check of libgcrypt) happens for a valid request only: one
    argument-less invocation with a [COUNTRY] whose first two characters
    are uppercase letters or both '0'. *)
Lemma main_event_after_validation h crypto w e :
  In e (trace (main h crypto w)) ->
  (forall fmt args, e <> Stderr fmt args) ->
  e <> Call "gcry_check_version" ->
  argc w = 1 /\
  exists s, getenv_COUNTRY w = Some s /\ (first_two_upper s \/ first_two_zero s).
Proof.
  unfold main. intros H Hnot Hgcry.
  apply bind_trace_In in H as [H | (u & _ & H)].
  { exfalso. unfold main_declarations in H.
    destruct crypto; cbn in H; try contradiction.
    destruct H as [H|[]]. now apply Hgcry. }
  revert H. destruct (Z.eqb_spec (argc w) 1) as [Hargc|_]; cbn [negb].
  2:{ cbn. intros [H|[]]. exfalso. eapply Hnot. symmetry. exact H. }
  destruct (getenv_COUNTRY w) as [s|].
  2:{ cbn. intros [H|[]]. exfalso. eapply Hnot. symmetry. exact H. }
  destruct (c_true (is_alpha2 s)) eqn:Ea; cbn [negb andb].
  { intros _. split; [exact Hargc|]. exists s. split; [reflexivity|].
    left. now apply is_alpha2_true. }
  destruct (c_true (is_world_regdom s)) eqn:Ew; cbn [negb andb].
  { intros _. split; [exact Hargc|]. exists s. split; [reflexivity|].
    right. now apply is_world_regdom_true. }
  cbn. intros [H|[]]. exfalso. eapply Hnot. symmetry. exact H.
Qed.

(** Unless [argc] is 1 and [COUNTRY] is set with its first two characters
    both uppercase letters or both '0', [main] does this and nothing more:
    (in the libgcrypt build, the version check among its declarations,)
    one diagnostic on [stderr] -- the usage line, the missing variable or
    the invalid code -- and [return -EINVAL].  No netlink handle is
    allocated and no file is opened. *)
Theorem invalid_request_prints_and_returns h crypto w :
  ~ (argc w = 1 /\
     exists s, getenv_COUNTRY w = Some s /\
               (first_two_upper s \/ first_two_zero s)) ->
  exists fmt,
    In fmt ["Usage: %s"; "COUNTRY environment variable not set.";
            "Invalid alpha2 set in COUNTRY"]%string /\
    main h crypto w =
      (main_declarations crypto ;;
       fprintf_stderr fmt [] ;;
       c_return (- EINVAL)).
Proof.
  intros Hinv. unfold main.
  destruct (Z.eqb_spec (argc w) 1) as [Hargc|_]; cbn [negb].
  2:{ eexists. split; [left; reflexivity | reflexivity]. }
  destruct (getenv_COUNTRY w) as [s|].
  2:{ eexists. split; [right; left; reflexivity | reflexivity]. }
  destruct (c_true (is_alpha2 s)) eqn:Ea.
  { exfalso. apply Hinv. split; [exact Hargc|]. exists s.
    split; [reflexivity|]. left. now apply is_alpha2_true. }
  destruct (c_true (is_world_regdom s)) eqn:Ew.
  { exfalso. apply Hinv. split; [exact Hargc|]. exists s.
    split; [reflexivity|]. right. now apply is_world_regdom_true. }
  cbn [negb andb].
  eexists. split; [right; right; left; reflexivity | reflexivity].
Qed.

Lemma invalid_request_prints_and_returns_witness :
  exists fmt,
    In fmt ["Usage: %s"; "COUNTRY environment variable not set.";
            "Invalid alpha2 set in COUNTRY"]%string /\
    main Fixtures.hdrs (USE_GCRYPT [Fixtures.key_a])
         (Fixtures.with_argc 2
            (Fixtures.world_of "US" Fixtures.db_us Fixtures.key_a)) =
      (main_declarations (USE_GCRYPT [Fixtures.key_a]) ;;
       fprintf_stderr fmt [] ;;
       c_return (- EINVAL)).
Proof.
  apply invalid_request_prints_and_returns.
  intros [H _]. vm_compute in H. discriminate.
Defined.

(** A [COUNTRY] of fewer than two characters is refused: the character
    after the last is the terminating NUL, which is neither a letter nor
    '0'. *)
Lemma short_country_rejected h crypto w s :
  argc w = 1 ->
  getenv_COUNTRY w = Some s ->
  (String.length s < 2)%nat ->
  main h crypto w = (main_declarations crypto ;; invalid_alpha2).
Proof.
  intros Hargc Henv Hlen.
  assert (Hone : char_at s 1 = 0).
  { destruct s as [|c [|c' s']]; cbn in Hlen; try lia; reflexivity. }
  assert (Hup : ~ first_two_upper s).
  { unfold first_two_upper. rewrite Hone. lia. }
  assert (Hz : ~ first_two_zero s).
  { unfold first_two_zero. rewrite Hone. lia. }
  unfold main. rewrite Hargc, Henv. simpl.
  rewrite (bool_not_true _ _ (is_alpha2_true s) Hup).
  rewrite (bool_not_true _ _ (is_world_regdom_true s) Hz).
  reflexivity.
Qed.

Lemma short_country_rejected_witness :
  main Fixtures.hdrs (USE_OPENSSL [Fixtures.key_a])
       (Fixtures.world_of "U" Fixtures.db_us Fixtures.key_a)
  = (main_declarations (USE_OPENSSL [Fixtures.key_a]) ;; invalid_alpha2).
Proof.
  apply (short_country_rejected _ _ _ "U"%string).
  - reflexivity.
  - reflexivity.
  - simpl. lia.
Defined.

Lemma nl80211_init_cases w :
  exists t r,
    nl80211_init w = Run t (Cont r) /\
    (r = 0 <->
     nl_handle_alloc_ok w = true /\ genl_connect_ok w = true /\
     genl_ctrl_alloc_cache_ok w = true /\ genl_ctrl_search_by_name_ok w = true) /\
    (r = 0 \/ r = - ENOMEM \/ r = - ENOLINK \/ r = - ENOENT) /\
    (r <> 0 -> nl_handle_alloc_ok w = true -> In (Call "nl_handle_destroy") t) /\
    (r <> 0 -> nl_handle_alloc_ok w = true -> genl_connect_ok w = true ->
     genl_ctrl_alloc_cache_ok w = true -> In (Call "nl_cache_free") t) /\
    (r = 0 -> ~ In (Call "nl_handle_destroy") t /\ ~ In (Call "nl_cache_free") t) /\
    ~ In (Call "open") t.
Proof.
  unfold nl80211_init.
  destruct (nl_handle_alloc_ok w); cbn [negb].
  2:{ eexists _, _. split; [reflexivity|]. cbn.
      repeat split; try discriminate; try tauto; intuition discriminate. }
  destruct (genl_connect_ok w); cbn [negb].
  2:{ eexists _, _. split; [reflexivity|]. cbn.
      repeat split; try discriminate; try tauto; intuition discriminate. }
  destruct (genl_ctrl_alloc_cache_ok w); cbn [negb].
  2:{ eexists _, _. split; [reflexivity|]. cbn.
      repeat split; try discriminate; try tauto; intuition discriminate. }
  destruct (genl_ctrl_search_by_name_ok w); cbn [negb].
  2:{ eexists _, _. split; [reflexivity|]. cbn.
      repeat split; try discriminate; try tauto; intuition discriminate. }
  eexists _, _. split; [reflexivity|]. cbn.
  repeat split; try discriminate; try tauto; intuition discriminate.
Qed.

(** [nl80211_init] always comes back to its caller: with 0 exactly when
    the four libnl calls succeeded, and otherwise with [-ENOMEM],
    [-ENOLINK] or [-ENOENT] after destroying the handle it had allocated
    and freeing the cache it had allocated. *)
Theorem nl80211_init_result w :
  exists t r,
    nl80211_init w = Run t (Cont r) /\
    (r = 0 <->
     nl_handle_alloc_ok w = true /\ genl_connect_ok w = true /\
     genl_ctrl_alloc_cache_ok w = true /\ genl_ctrl_search_by_name_ok w = true) /\
    (r = 0 \/ r = - ENOMEM \/ r = - ENOLINK \/ r = - ENOENT) /\
    (r <> 0 -> nl_handle_alloc_ok w = true -> In (Call "nl_handle_destroy") t) /\
    (r <> 0 -> nl_handle_alloc_ok w = true -> genl_connect_ok w = true ->
     genl_ctrl_alloc_cache_ok w = true -> In (Call "nl_cache_free") t) /\
    (r = 0 -> ~ In (Call "nl_handle_destroy") t /\ ~ In (Call "nl_cache_free") t) /\
    ~ In (Call "open") t.
Proof. exact (nl80211_init_cases w). Qed.

(** The database file is opened only after netlink was set up: an [open]
    in a run of [main] means that the four libnl calls of [nl80211_init]
    succeeded. *)
Lemma database_opened_only_after_netlink_init h crypto w :
  In (Call "open") (trace (main h crypto w)) ->
  nl_handle_alloc_ok w = true /\ genl_connect_ok w = true /\
  genl_ctrl_alloc_cache_ok w = true /\ genl_ctrl_search_by_name_ok w = true.
Proof.
  unfold main. intros H.
  apply bind_trace_In in H as [H | (u & _ & H)].
  { exfalso. unfold main_declarations in H.
    destruct crypto; cbn in H; try contradiction.
    destruct H as [H|[]]. discriminate. }
  revert H. destruct (negb (argc w =? 1)).
  { cbn. intros [H|[]]. discriminate. }
  destruct (getenv_COUNTRY w) as [s|].
  2:{ cbn. intros [H|[]]. discriminate. }
  destruct (negb (c_true (is_alpha2 s)) && negb (c_true (is_world_regdom s))).
  { cbn. intros [H|[]]. discriminate. }
  destruct (nl80211_init_cases w) as (t & r & E & Hzero & _ & _ & _ & _ & Hopen).
  rewrite E. intros H.
  apply bind_trace_In in H as [H | (r0 & Hr0 & H)].
  { contradiction. }
  cbn in Hr0. injection Hr0 as <-.
  unfold c_true in H. destruct (Z.eqb_spec r 0) as [->|_]; cbn [negb] in H.
  - now apply Hzero.
  - destruct H.
Qed.

Lemma database_opened_only_after_netlink_init_witness :
  nl_handle_alloc_ok (Fixtures.world_of "US" Fixtures.db_us Fixtures.key_a) = true /\
  genl_connect_ok (Fixtures.world_of "US" Fixtures.db_us Fixtures.key_a) = true /\
  genl_ctrl_alloc_cache_ok (Fixtures.world_of "US" Fixtures.db_us Fixtures.key_a) = true /\
  genl_ctrl_search_by_name_ok (Fixtures.world_of "US" Fixtures.db_us Fixtures.key_a) = true.
Proof.
  apply (database_opened_only_after_netlink_init Fixtures.hdrs
           (USE_OPENSSL [Fixtures.key_a])).
  vm_compute. repeat (try (left; reflexivity); right).
Defined.

(** When netlink cannot be set up, a valid request ends with [-EIO]. *)
Lemma netlink_failure_returns_EIO h crypto w s :
  argc w = 1 ->
  getenv_COUNTRY w = Some s ->
  first_two_upper s \/ first_two_zero s ->
  ~ (nl_handle_alloc_ok w = true /\ genl_connect_ok w = true /\
     genl_ctrl_alloc_cache_ok w = true /\ genl_ctrl_search_by_name_ok w = true) ->
  result (main h crypto w) = Return (- EIO).
Proof.
  intros Hargc Henv Hvalid Hdown.
  assert (E : negb (c_true (is_alpha2 s)) && negb (c_true (is_world_regdom s)) = false).
  { destruct Hvalid as [H|H].
    - apply is_alpha2_true in H. now rewrite H.
    - apply is_world_regdom_true in H. rewrite H. apply andb_false_r. }
  unfold main. rewrite Hargc, Henv. cbn [Z.eqb Pos.eqb negb]. rewrite E.
  destruct (nl80211_init_cases w) as (t & r & Einit & Hzero & _).
  rewrite Einit.
  assert (Hr : c_true r = true).
  { unfold c_true. destruct (Z.eqb_spec r 0) as [->|]; [|reflexivity].
    exfalso. apply Hdown. now apply Hzero. }
  unfold main_declarations.
  destruct crypto; cbn; rewrite Hr; reflexivity.
Qed.

Lemma netlink_failure_returns_EIO_witness :
  result (main Fixtures.hdrs (USE_OPENSSL [Fixtures.key_a])
            (Fixtures.netlink_down
               (Fixtures.world_of "US" Fixtures.db_us Fixtures.key_a)))
  = Return (- EIO).
Proof.
  apply (netlink_failure_returns_EIO _ _ _ "US"%string).
  - reflexivity.
  - reflexivity.
  - left. unfold first_two_upper, char_at. simpl. lia.
  - simpl. intros (_ & H & _). discriminate.
Defined.

(** ** The country code and the rule count that are sent *)

Lemma byte_of_Z_nonzero z : 0 < z < 256 -> byte_of_Z z <> x00.
Proof.
  intros Hz. unfold byte_of_Z. rewrite Z.mod_small by lia.
  destruct (Byte.of_N (Z.to_N z)) as [b|] eqn:E.
  - intros ->. apply Byte.to_of_N in E. cbn in E. lia.
  - pose proof (Byte.to_of_N_option_map (Z.to_N z)) as H.
    rewrite E in H. cbn [option_map] in H.
    destruct (N.leb_spec (Z.to_N z) 255); [discriminate | lia].
Qed.

Lemma memcpy2_nonzero s :
  first_two_upper s \/ first_two_zero s ->
  exists a b, memcpy2 s = [a; b] /\ a <> x00 /\ b <> x00.
Proof.
  intros H. unfold memcpy2. eexists _, _. split; [reflexivity|].
  destruct H as [[H0 H1]|[H0 H1]]; split; apply byte_of_Z_nonzero; lia.
Qed.

(** A NUL-terminated string that starts with two bytes other than NUL
    starts with these two bytes. *)
Lemma load_strz_prefix db off a b s :
  Mem.load_bytes db off 2 = Some [a; b] ->
  a <> x00 -> b <> x00 ->
  Mem.load_strz db off = Some s ->
  exists rest, s = a :: b :: rest.
Proof.
  intros Hload Ha Hb Hs.
  pose proof (load_bytes_some _ _ _ _ Hload) as (H0 & _ & H2).
  unfold Mem.load_bytes in Hload.
  destruct ((0 <=? off) && (0 <=? 2) && (off + 2 <=? Z.of_nat (List.length db)));
    [|discriminate].
  injection Hload as Hload.
  unfold Mem.load_strz in Hs.
  destruct ((0 <=? off) && (off <=? Z.of_nat (List.length db))); [|discriminate].
  destruct (skipn (Z.to_nat off) db) as [|x [|y l]]; cbn in Hload;
    try discriminate.
  injection Hload as -> ->.
  cbn [Mem.strz] in Hs.
  destruct (Byte.eqb a x00) eqn:Ea; [apply Byte.byte_dec_bl in Ea; contradiction|].
  destruct (Byte.eqb b x00) eqn:Eb; [apply Byte.byte_dec_bl in Eb; contradiction|].
  destruct (Mem.strz l) as [rest|]; [|discriminate].
  injection Hs as <-. now exists rest.
Qed.

(** The country code of a message that [main] sends starts with the two
    characters that were requested; it goes on with whatever bytes follow
    them in the country record up to the first NUL. *)
Lemma sent_code_starts_with_request h crypto w msg :
  In (Send msg) (trace (main h crypto w)) ->
  exists s rest rules,
    getenv_COUNTRY w = Some s /\
    nm_attrs msg =
      [NlaString (NL80211_ATTR_REG_ALPHA2 h) (memcpy2 s ++ rest);
       NlaNested (NL80211_ATTR_REG_RULES h) rules].
Proof.
  intros H.
  destruct (main_event_after_validation h crypto w (Send msg) H)
    as (_ & s' & Henv' & Hvalid); [discriminate | discriminate |].
  apply main_send_inv in H
    as (s & t1 & db & dblen & siglen & header & t2 & i & country & t3 & r
        & Henv & _ & _ & Hfind & Hbuild).
  assert (s' = s) as -> by congruence.
  apply find_country_Cont in Hfind
    as (num & ptr & _ & _ & _ & -> & (_ & Hcode & _)).
  apply build_message_Cont in Hbuild
    as (alpha2 & rcoll & n & rules & Hstr & _ & _ & _ & _ & Hattrs & _).
  destruct (memcpy2_nonzero s Hvalid) as (a & b & Em & Ha & Hb).
  unfold country_code in Hcode. rewrite Em in Hcode.
  destruct (load_strz_prefix _ _ a b alpha2 Hcode Ha Hb Hstr) as [rest ->].
  exists s, rest, (map (fun rule => NlaNested i (rule_attrs h rule)) rules).
  split; [exact Henv|]. rewrite Hattrs, Em. reflexivity.
Qed.

Lemma sent_code_starts_with_request_witness :
  exists s rest rules,
    Some "US"%string = Some s /\
    nm_attrs Fixtures.msg_duplicate_us =
      [NlaString 33 (memcpy2 s ++ rest); NlaNested 34 rules].
Proof.
  exact (sent_code_starts_with_request Fixtures.hdrs (USE_OPENSSL [Fixtures.key_a])
           (Fixtures.world_of "US" Fixtures.db_duplicate_us Fixtures.key_a)
           Fixtures.msg_duplicate_us duplicate_us_sent).
Defined.

Lemma field_range db off x : field db off = Some x -> 0 <= x < 2 ^ 32.
Proof.
  intros H. apply field_some in H as (v & _ & <-). apply ntohl_range.
Qed.

(** A rule count with its top bit set is read as a negative [int]: when
    the message is built for such a collection, its rules container is
    empty. *)
Lemma top_bit_rule_count_sends_no_rules h w db dblen i country r t r' msg rcoll count :
  build_message h w db dblen i country r = Run t (Cont (r', msg)) ->
  field db (country + off_reg_collection_ptr) = Some rcoll ->
  field db (rcoll + off_reg_rule_num) = Some count ->
  2 ^ 31 <= count ->
  exists alpha2,
    nm_attrs msg =
      [NlaString (NL80211_ATTR_REG_ALPHA2 h) alpha2;
       NlaNested (NL80211_ATTR_REG_RULES h) []].
Proof.
  intros H Hrcoll Hcount Htop.
  apply build_message_Cont in H
    as (alpha2 & rcoll' & n & rules & _ & Hrcoll' & Hn & _ & Hlen & Hattrs & _).
  assert (rcoll' = rcoll) as -> by congruence.
  assert (n = count) as -> by congruence.
  pose proof (field_range _ _ _ Hcount) as Hrange.
  assert (Hneg : to_int count < 0).
  { unfold to_int.
    replace (count + 2 ^ 31) with (count - 2 ^ 31 + 1 * 2 ^ 32) by lia.
    rewrite Z.mod_add by lia. rewrite Z.mod_small by lia. lia. }
  assert (rules = []) as ->.
  { destruct rules; [reflexivity|]. cbn in Hlen. lia. }
  exists alpha2. exact Hattrs.
Qed.

Lemma top_bit_rule_count_sends_no_rules_witness :
  exists alpha2,
    nm_attrs Fixtures.msg_no_rules = [NlaString 33 alpha2; NlaNested 34 []].
Proof.
  apply (top_bit_rule_count_sends_no_rules Fixtures.hdrs
           (Fixtures.world_of "US" Fixtures.db_count_top_bit Fixtures.key_a)
           Fixtures.db_count_top_bit 68 0 20 0
           [Call "nlmsg_alloc"; Call "genlmsg_put"] 0 Fixtures.msg_no_rules
           28 4294967295).
  - vm_compute. reflexivity.
  - reflexivity.
  - reflexivity.
  - vm_compute. discriminate.
Defined.

(** ** What a sent message went through *)

(** In a build with OpenSSL, [main] sends a message only for a file with
    the expected magic and version whose signature one of the compiled-in
    keys verified, over the digest of the part of the file before the
    signature. *)
Lemma sent_only_after_verification h keys w msg :
  In (Send msg) (trace (main h (USE_OPENSSL keys) w)) ->
  field (mapped_db w) off_magic = Some (to_u32 (REGDB_MAGIC h)) /\
  field (mapped_db w) off_version = Some (to_u32 (REGDB_VERSION h)) /\
  exists siglen signed k sig,
    field (mapped_db w) off_signature_length = Some (to_u32 siglen) /\
    Mem.load_bytes (mapped_db w) 0 (to_size_t (to_int (st_size_int w - siglen)))
      = Some signed /\
    Mem.load_bytes (mapped_db w) (to_int (st_size_int w - siglen)) (to_u32 siglen)
      = Some sig /\
    In k keys /\ RSA_size w k = siglen /\
    RSA_verify w k (SHA1 w signed) sig = true.
Proof.
  intros H.
  apply main_send_inv in H
    as (s & t1 & db & dblen & siglen & header & t2 & i & country & t3 & r
        & _ & Hhd & Hver & _ & _).
  pose proof (load_header_Cont_valid _ _ _ _ _ _ _ Hhd)
    as (_ & _ & _ & _ & Hmagic & Hversion).
  apply load_header_Cont in Hhd as (-> & _ & Hsl & -> & _).
  apply verify_openssl_accepts_only_verified in Hver
    as (signed & k & sig & Hsigned & Hsig & Hin & Hsize & Hv).
  split; [exact Hmagic|]. split; [exact Hversion|].
  exists siglen, signed, k, sig. auto 10.
Qed.

Lemma sent_only_after_verification_witness :
  field (mapped_db (Fixtures.world_of "US" Fixtures.db_duplicate_us Fixtures.key_a))
    off_magic = Some (to_u32 (REGDB_MAGIC Fixtures.hdrs)) /\
  field (mapped_db (Fixtures.world_of "US" Fixtures.db_duplicate_us Fixtures.key_a))
    off_version = Some (to_u32 (REGDB_VERSION Fixtures.hdrs)) /\
  exists siglen signed k sig,
    field (mapped_db (Fixtures.world_of "US" Fixtures.db_duplicate_us Fixtures.key_a))
      off_signature_length = Some (to_u32 siglen) /\
    Mem.load_bytes
      (mapped_db (Fixtures.world_of "US" Fixtures.db_duplicate_us Fixtures.key_a)) 0
      (to_size_t
         (to_int
            (st_size_int (Fixtures.world_of "US" Fixtures.db_duplicate_us Fixtures.key_a)
             - siglen))) = Some signed /\
    Mem.load_bytes
      (mapped_db (Fixtures.world_of "US" Fixtures.db_duplicate_us Fixtures.key_a))
      (to_int
         (st_size_int (Fixtures.world_of "US" Fixtures.db_duplicate_us Fixtures.key_a)
          - siglen)) (to_u32 siglen) = Some sig /\
    In k [Fixtures.key_a] /\
    RSA_size (Fixtures.world_of "US" Fixtures.db_duplicate_us Fixtures.key_a) k = siglen /\
    RSA_verify (Fixtures.world_of "US" Fixtures.db_duplicate_us Fixtures.key_a) k
      (SHA1 (Fixtures.world_of "US" Fixtures.db_duplicate_us Fixtures.key_a) signed)
      sig = true.
Proof.
  exact (sent_only_after_verification Fixtures.hdrs [Fixtures.key_a]
           (Fixtures.world_of "US" Fixtures.db_duplicate_us Fixtures.key_a)
           Fixtures.msg_duplicate_us duplicate_us_sent).
Defined.



(** ** The message is released before [main] returns *)

Lemma avoids_bind {A B} e (m : run A) (f : A -> run B) :
  avoids e m -> (forall a, avoids e (f a)) -> avoids e (bind m f).
Proof.
  intros Hm Hf H. apply bind_trace_In in H as [H | (a & _ & H)].
  - exact (Hm H).
  - exact (Hf a H).
Qed.

Lemma avoids_nil {A} e (o : outcome A) : avoids e (Run [] o).
Proof. intros []. Qed.

Lemma avoids_one {A} e e' (o : outcome A) : e' <> e -> avoids e (Run [e'] o).
Proof. intros He [H | []]. exact (He H). Qed.

Lemma avoids_get_file_ptr db dblen structlen ptr :
  avoids (Call "genlmsg_put") (get_file_ptr db dblen structlen ptr).
Proof.
  destruct (get_file_ptr_cases db dblen structlen ptr) as [[_ ->]|[_ ->]].
  - apply avoids_one. discriminate.
  - apply avoids_nil.
Qed.

Lemma avoids_of_load {A} e (o : option A) : avoids e (of_load o).
Proof. destruct o; apply avoids_nil. Qed.

Lemma avoids_load_be32 e db off : avoids e (load_be32 db off).
Proof. apply avoids_of_load. Qed.

Create HintDb avoids.
#[local] Hint Resolve avoids_nil avoids_get_file_ptr avoids_of_load
  avoids_load_be32 : avoids.
#[local] Hint Extern 1 (avoids _ (Run [_] _)) =>
  apply avoids_one; discriminate : avoids.
#[local] Hint Extern 1 (avoids _ (emit _)) =>
  apply avoids_one; discriminate : avoids.
#[local] Hint Extern 1 (avoids _ (fprintf_stderr _ _)) =>
  apply avoids_one; discriminate : avoids.
#[local] Hint Extern 1 (avoids _ (perror _)) =>
  apply avoids_one; discriminate : avoids.
#[local] Hint Extern 1 (avoids _ (ret _)) => apply avoids_nil : avoids.
#[local] Hint Extern 1 (avoids _ (c_return _)) => apply avoids_nil : avoids.
#[local] Hint Extern 1 (avoids _ (c_exit _)) => apply avoids_nil : avoids.
#[local] Hint Extern 1 (avoids _ fault) => apply avoids_nil : avoids.

Ltac avoids_step :=
  match goal with
  | |- avoids _ (bind _ _) => apply avoids_bind; [| intros ?]
  | |- avoids _ (if ?b then _ else _) => destruct b
  | |- avoids _ (match ?x with _ => _ end) => destruct x
  | |- avoids _ (let _ := _ in _) => cbv zeta
  | |- avoids _ _ => solve [auto with avoids]
  end.

Ltac avoids_run := repeat avoids_step.

Lemma avoids_main_declarations crypto :
  avoids (Call "genlmsg_put") (main_declarations crypto).
Proof. unfold main_declarations. avoids_run. Qed.

Lemma avoids_nl80211_init w : avoids (Call "genlmsg_put") (nl80211_init w).
Proof. unfold nl80211_init. avoids_run. Qed.

Lemma avoids_goto_out {A} r : avoids (Call "genlmsg_put") (@goto_out A r).
Proof. unfold goto_out, nl80211_cleanup. avoids_run. Qed.
#[local] Hint Resolve avoids_goto_out : avoids.

Lemma avoids_load_header h w : avoids (Call "genlmsg_put") (load_header h w).
Proof. unfold load_header. avoids_run. Qed.

Lemma avoids_openssl_try_keys w db dblen siglen hash keys :
  avoids (Call "genlmsg_put") (openssl_try_keys w db dblen siglen hash keys).
Proof.
  induction keys as [|k keys IH]; cbn [openssl_try_keys]; avoids_run.
Qed.

Lemma avoids_gcrypt_try_keys w key0 data signature iter :
  avoids (Call "genlmsg_put") (gcrypt_try_keys w key0 data signature iter).
Proof.
  induction iter as [|k iter IH]; cbn [gcrypt_try_keys]; avoids_run.
Qed.
#[local] Hint Resolve avoids_openssl_try_keys avoids_gcrypt_try_keys : avoids.

Lemma avoids_verify_signature crypto w db dblen siglen :
  avoids (Call "genlmsg_put") (verify_signature crypto w db dblen siglen).
Proof.
  unfold verify_signature, verify_openssl, verify_gcrypt. avoids_run.
Qed.

Lemma avoids_scan_countries db countries alpha2 n :
  forall i, avoids (Call "genlmsg_put") (scan_countries db countries alpha2 n i).
Proof.
  induction n as [|n IH]; intros i; cbn [scan_countries]; avoids_run.
Qed.
#[local] Hint Resolve avoids_scan_countries : avoids.

Lemma avoids_find_country db dblen header alpha2 :
  avoids (Call "genlmsg_put") (find_country db dblen header alpha2).
Proof. unfold find_country. avoids_run. Qed.

Lemma released_bind {A B} (m : run A) (f : A -> run B) :
  released m -> (forall a, released (f a)) -> released (bind m f).
Proof.
  intros Hm Hf r H.
  destruct m as [t1 [a| | |]]; unfold bind in *; cbn in *; try discriminate.
  - destruct (Hf a r H) as [t Ht]. exists (t1 ++ t).
    rewrite Ht, app_assoc. reflexivity.
  - injection H as <-. exact (Hm r0 eq_refl).
Qed.

Lemma released_no_return {A} t (o : outcome A) :
  (forall r, o <> Return r) -> released (Run t o).
Proof. intros Ho r H. exfalso. exact (Ho r H). Qed.

Lemma released_get_file_ptr db dblen structlen ptr :
  released (get_file_ptr db dblen structlen ptr).
Proof.
  destruct (get_file_ptr_cases db dblen structlen ptr) as [[_ ->]|[_ ->]];
    apply released_no_return; discriminate.
Qed.

Lemma released_of_load {A} (o : option A) : released (of_load o).
Proof. destruct o; apply released_no_return; discriminate. Qed.

Lemma released_load_be32 db off : released (load_be32 db off).
Proof. apply released_of_load. Qed.

Lemma released_goto_nla_put_failure {A} r : released (@goto_nla_put_failure A r).
Proof. intros r' _. now exists []. Qed.

Lemma released_goto_cb_out {A} r : released (@goto_cb_out A r).
Proof. intros r' _. now exists [Call "nl_cb_put"]. Qed.

Lemma released_error_handler {A} e : released (@error_handler A e).
Proof. intros r H. discriminate. Qed.

Create HintDb released.
#[local] Hint Resolve released_get_file_ptr released_of_load released_load_be32
  released_goto_nla_put_failure released_goto_cb_out released_error_handler
  : released.
#[local] Hint Extern 1 (released (Run _ _)) =>
  apply released_no_return; discriminate : released.
#[local] Hint Extern 1 (released (emit _)) =>
  apply released_no_return; discriminate : released.
#[local] Hint Extern 1 (released (fprintf_stderr _ _)) =>
  apply released_no_return; discriminate : released.
#[local] Hint Extern 1 (released (ret _)) =>
  apply released_no_return; discriminate : released.

Ltac released_step :=
  match goal with
  | |- released (bind _ _) => apply released_bind; [| intros ?]
  | |- released (if ?b then _ else _) => destruct b
  | |- released (match ?x with _ => _ end) => destruct x
  | |- released (let _ := _ in _) => cbv zeta
  | |- released _ => solve [auto with released]
  end.

Ltac released_run := repeat released_step.

Lemma released_put_reg_rule h w db dblen ruleptr msg :
  released (put_reg_rule h w db dblen ruleptr msg).
Proof. unfold put_reg_rule, NLA_PUT_U32. released_run. Qed.
#[local] Hint Resolve released_put_reg_rule : released.

Lemma released_rules_loop h w db dblen i rcoll n :
  forall j r msg, released (rules_loop h w db dblen i rcoll n j r msg).
Proof.
  induction n as [|n IH]; intros j r msg; cbn [rules_loop]; released_run.
Qed.
#[local] Hint Resolve released_rules_loop : released.

Lemma released_main_send w msg r : released (main_send w msg r).
Proof. unfold main_send. released_run. Qed.

Lemma released_once_put_of_avoids {A} (m : run A) :
  avoids (Call "genlmsg_put") m -> released_once_put m.
Proof. intros Hm r _ H. contradiction. Qed.

Lemma released_once_put_of_released {A} (m : run A) :
  released m -> released_once_put m.
Proof. intros Hm r H _. exact (Hm r H). Qed.

Lemma released_once_put_bind_avoids {A B} (m : run A) (f : A -> run B) :
  avoids (Call "genlmsg_put") m ->
  (forall a, released_once_put (f a)) ->
  released_once_put (bind m f).
Proof.
  intros Hm Hf r Hr Hin.
  destruct m as [t1 [a| | |]]; unfold bind in *; cbn in *; try discriminate.
  - apply in_app_or in Hin as [Hin|Hin]; [contradiction|].
    destruct (Hf a r Hr Hin) as [t Ht]. exists (t1 ++ t).
    rewrite Ht, app_assoc. reflexivity.
  - contradiction.
Qed.

Lemma released_once_put_bind_released {A B} (m : run A) (f : A -> run B) :
  released_once_put m ->
  (forall a, released (f a)) ->
  released_once_put (bind m f).
Proof.
  intros Hm Hf r Hr Hin.
  destruct m as [t1 [a| | |]]; unfold bind in *; cbn in *; try discriminate.
  - destruct (Hf a r Hr) as [t Ht]. exists (t1 ++ t).
    rewrite Ht, app_assoc. reflexivity.
  - injection Hr as <-. exact (Hm r0 eq_refl Hin).
Qed.

Lemma released_once_put_build_message h w db dblen i country r :
  released_once_put (build_message h w db dblen i country r).
Proof.
  unfold build_message.
  apply released_once_put_bind_avoids; [auto with avoids|]. intros _.
  destruct (negb (nlmsg_alloc_ok w)).
  - apply released_once_put_of_avoids. avoids_run.
  - apply released_once_put_of_released. released_run.
Qed.

(** Once the netlink message has been set up, [main] does not return
    without freeing it and cleaning up netlink: a run of [main] that
    returns after [genlmsg_put] ends with [nlmsg_free] and the three calls
    of [nl80211_cleanup]. *)
Lemma message_released_before_return h crypto w r :
  result (main h crypto w) = Return r ->
  In (Call "genlmsg_put") (trace (main h crypto w)) ->
  exists t, trace (main h crypto w) = t ++ release_calls.
Proof.
  revert r. change (released_once_put (main h crypto w)).
  unfold main.
  apply released_once_put_bind_avoids; [apply avoids_main_declarations|].
  intros _.
  destruct (negb (argc w =? 1)).
  { apply released_once_put_of_avoids. avoids_run. }
  destruct (getenv_COUNTRY w) as [s|].
  2:{ apply released_once_put_of_avoids. avoids_run. }
  destruct (negb (c_true (is_alpha2 s)) && negb (c_true (is_world_regdom s))).
  { apply released_once_put_of_avoids. avoids_run. }
  apply released_once_put_bind_avoids; [apply avoids_nl80211_init|].
  intros r0. destruct (c_true r0).
  { apply released_once_put_of_avoids. avoids_run. }
  unfold main_db.
  apply released_once_put_bind_avoids; [apply avoids_load_header|].
  intros [[[db dblen] siglen] header].
  apply released_once_put_bind_avoids; [apply avoids_verify_signature|].
  intros _.
  apply released_once_put_bind_avoids; [apply avoids_find_country|].
  intros ic.
  apply released_once_put_bind_released.
  - apply released_once_put_build_message.
  - intros rm. apply released_main_send.
Qed.

Lemma message_released_before_return_witness :
  exists t,
    trace (main Fixtures.hdrs (USE_OPENSSL [Fixtures.key_a])
             (Fixtures.world_of "US" Fixtures.db_us Fixtures.key_a))
    = t ++ release_calls.
Proof.
  apply (message_released_before_return Fixtures.hdrs (USE_OPENSSL [Fixtures.key_a])
           (Fixtures.world_of "US" Fixtures.db_us Fixtures.key_a) 0).
  - vm_compute. reflexivity.
  - vm_compute. repeat (try (left; reflexivity); right).
Defined.

(** ** More on the key table, the country table and the end of [main] *)

(** The OpenSSL loop tries the keys in table order: with the signature
    stored in the file after the signed part, [RSA_verify] is called on
    the keys whose size is the signature length, one after the other as
    the table lists them, and on no key after the first that verifies. *)
Theorem openssl_keys_tried_in_table_order w db dblen siglen hash keys :
  0 <= dblen -> 0 <= siglen ->
  dblen + siglen <= Z.of_nat (List.length db) ->
  Z.of_nat (List.length db) <= INT_MAX ->
  let sig := firstn (Z.to_nat siglen) (skipn (Z.to_nat dblen) db) in
  trace (openssl_try_keys w db dblen siglen hash keys) =
    map (CallKey "RSA_verify")
      (keys_tried (fun k => RSA_size w k =? siglen)
                  (fun k => RSA_verify w k hash sig) keys).
Proof.
  intros Hd Hs Hfit Hmax sig. unfold INT_MAX in Hmax.
  assert (Hsig : Mem.load_bytes db dblen (to_u32 siglen) = Some sig).
  { rewrite to_u32_nonneg by lia. now rewrite load_bytes_value by lia. }
  rewrite (openssl_try_keys_spec w db dblen siglen hash sig keys Hsig).
  reflexivity.
Qed.

Lemma openssl_keys_tried_in_table_order_witness :
  trace (openssl_try_keys (Fixtures.world_of "US" Fixtures.db_us Fixtures.key_b)
           Fixtures.db_us 68 4 [] [Fixtures.key_a; Fixtures.key_b]) =
  map (CallKey "RSA_verify")
    (keys_tried
       (fun k => RSA_size (Fixtures.world_of "US" Fixtures.db_us Fixtures.key_b) k =? 4)
       (fun k => RSA_verify (Fixtures.world_of "US" Fixtures.db_us Fixtures.key_b) k []
                   (firstn (Z.to_nat 4) (skipn (Z.to_nat 68) Fixtures.db_us)))
       [Fixtures.key_a; Fixtures.key_b]).
Proof.
  apply openssl_keys_tried_in_table_order.
  - lia.
  - lia.
  - vm_compute. discriminate.
  - vm_compute. discriminate.
Defined.

(** A table without records: when the count is zero or, read as an [int],
    negative, and the table pointer is accepted, no record is read and
    [main] reports that no country matched and returns -1. *)
Lemma find_country_empty_table db dblen header alpha2 num ptr :
  Mem.load_be32 db (header + off_reg_country_num) = Some num ->
  Mem.load_be32 db (header + off_reg_country_ptr) = Some ptr ->
  to_int (ntohl num) <= 0 ->
  ntohl ptr <=
    to_u32 (to_int (dblen - to_int (to_size_t (sizeof_reg_country
                                               * to_size_t (to_int (ntohl num)))))) ->
  find_country db dblen header alpha2 = country_not_found.
Proof.
  intros Hnum Hptr Hn Hacc. unfold find_country.
  rewrite (load_be32_some _ _ _ Hnum), bind_nil_cont.
  rewrite (load_be32_some _ _ _ Hptr), bind_nil_cont.
  cbv zeta.
  destruct (get_file_ptr_cases db dblen
              (to_int (to_size_t (sizeof_reg_country * to_size_t (to_int (ntohl num)))))
              ptr) as [[Hlt _]|[_ ->]]; [lia|].
  rewrite bind_nil_cont.
  replace (Z.to_nat (to_int (ntohl num))) with O by lia.
  reflexivity.
Qed.

Lemma find_country_empty_table_witness :
  find_country Fixtures.db_header_only 20 0 (Fixtures.chars "US") = country_not_found.
Proof.
  apply (find_country_empty_table Fixtures.db_header_only 20 0 (Fixtures.chars "US")
           (htonl 0) (htonl 20)).
  - reflexivity.
  - reflexivity.
  - vm_compute. discriminate.
  - vm_compute. discriminate.
Defined.

Lemma bind_result_of_Cont {A B} (m : run A) (f : A -> run B) a :
  result m = Cont a -> result (bind m f) = result (f a).
Proof. destruct m as [t o]; cbn. intros ->. reflexivity. Qed.

Lemma main_send_result w msg r msg' :
  In (Send msg') (trace (main_send w msg r)) ->
  result (main_send w msg r) =
    if nl_send_auto_complete w msg <? 0
    then Return (nl_send_auto_complete w msg)
    else match nl_wait_for_ack w with
         | AckReturn a => Return a
         | AckError e => Exit e
         end.
Proof.
  unfold main_send, goto_cb_out, goto_nla_put_failure, goto_out,
    nl80211_cleanup, error_handler.
  destruct (nl_cb_alloc_ok w); cbn.
  - intros _. destruct (nl_send_auto_complete w msg <? 0); cbn; [reflexivity|].
    destruct (nl_wait_for_ack w) as [a|e]; cbn; [|reflexivity].
    destruct (a <? 0); reflexivity.
  - intros H. repeat (destruct H as [H|H]; try discriminate). destruct H.
Qed.

(** The status of a run that sent a message is the verdict of the
    transport: the negative code of a failed send, else what
    [nl_wait_for_ack] returned, or the exit of the error callback. *)
Lemma sent_result h crypto w msg :
  In (Send msg) (trace (main h crypto w)) ->
  result (main h crypto w) =
    if nl_send_auto_complete w msg <? 0
    then Return (nl_send_auto_complete w msg)
    else match nl_wait_for_ack w with
         | AckReturn a => Return a
         | AckError e => Exit e
         end.
Proof.
  unfold main. intros H.
  apply bind_trace_In in H as [H | (u & Hu & H)].
  { exfalso. exact (quiet_main_declarations crypto msg H). }
  rewrite (bind_result_of_Cont _ _ _ Hu).
  revert H.
  destruct (negb (argc w =? 1)).
  { cbn. intros [H|[]]. discriminate. }
  destruct (getenv_COUNTRY w) as [env_country|].
  2:{ cbn. intros [H|[]]. discriminate. }
  destruct (negb (c_true (is_alpha2 env_country))
            && negb (c_true (is_world_regdom env_country))).
  { cbn. intros [H|[]]. discriminate. }
  intros H. apply bind_trace_In in H as [H | (r0 & Hr0 & H)].
  { exfalso. exact (quiet_nl80211_init w msg H). }
  rewrite (bind_result_of_Cont _ _ _ Hr0).
  destruct (c_true r0).
  { destruct H. }
  unfold main_db in *.
  apply bind_trace_In in H as [H | ([[[db dblen] siglen] header] & Hhd & H)].
  { exfalso. exact (quiet_load_header h w msg H). }
  rewrite (bind_result_of_Cont _ _ _ Hhd).
  apply bind_trace_In in H as [H | ([] & Hver & H)].
  { exfalso. exact (quiet_verify_signature crypto w db dblen siglen msg H). }
  rewrite (bind_result_of_Cont _ _ _ Hver).
  apply bind_trace_In in H as [H | ([i country] & Hfind & H)].
  { exfalso. exact (quiet_find_country db dblen header _ msg H). }
  rewrite (bind_result_of_Cont _ _ _ Hfind).
  apply bind_trace_In in H as [H | ([r msg'] & Hbuild & H)].
  { exfalso. exact (quiet_build_message h w db dblen _ _ _ msg H). }
  rewrite (bind_result_of_Cont _ _ _ Hbuild).
  pose proof (main_send_sends _ _ _ _ H) as E. cbn [snd] in E. subst msg'.
  exact (main_send_result _ _ _ _ H).
Qed.

Lemma sent_result_witness :
  result (main Fixtures.hdrs (USE_OPENSSL [Fixtures.key_a])
            (Fixtures.world_of "US" Fixtures.db_duplicate_us Fixtures.key_a)) =
  if nl_send_auto_complete
       (Fixtures.world_of "US" Fixtures.db_duplicate_us Fixtures.key_a)
       Fixtures.msg_duplicate_us <? 0
  then Return (nl_send_auto_complete
                 (Fixtures.world_of "US" Fixtures.db_duplicate_us Fixtures.key_a)
                 Fixtures.msg_duplicate_us)
  else match nl_wait_for_ack
               (Fixtures.world_of "US" Fixtures.db_duplicate_us Fixtures.key_a) with
       | AckReturn a => Return a
       | AckError e => Exit e
       end.
Proof.
  exact (sent_result Fixtures.hdrs (USE_OPENSSL [Fixtures.key_a])
           (Fixtures.world_of "US" Fixtures.db_duplicate_us Fixtures.key_a)
           Fixtures.msg_duplicate_us duplicate_us_sent).
Defined.

(** ** What is sent comes from the signed part of the file *)

Lemma get_file_ptr_Cont_resolve db dblen size ptr t p :
  0 <= size <= dblen -> dblen <= INT_MAX ->
  get_file_ptr db dblen size ptr = Run t (Cont p) ->
  resolve dblen size (ntohl ptr) = Some p.
Proof.
  intros Hs Hd H.
  destruct (get_file_ptr_granted db dblen size ptr t p Hs Hd H) as [_ Hle].
  apply get_file_ptr_Cont in H as (_ & -> & _).
  unfold resolve. destruct (Z.leb_spec (ntohl ptr + size) dblen); [reflexivity | lia].
Qed.

(** [load_header] hands on the signature length read from the header as
    an [int], and the length of the file less that. *)
Lemma load_header_Cont_lengths h w t db dblen siglen header :
  load_header h w = Run t (Cont (db, dblen, siglen, header)) ->
  exists sl,
    field (mapped_db w) off_signature_length = Some sl /\
    siglen = to_int sl /\
    dblen = to_int (st_size_int w - siglen) /\
    sizeof_header < to_size_t dblen /\
    db = mapped_db w /\ header = 0.
Proof.
  unfold load_header. intros H.
  inv_bind H as u1 Hopen. destruct (negb (open_ok w)).
  { apply bind_Cont_inv in H as (? & ? & ? & _ & H & _).
    apply bind_Cont_inv in H as (? & ? & ? & _ & H & _). inversion H. }
  inv_bind H as u2 Hfstat. destruct (negb (fstat_ok w)).
  { apply bind_Cont_inv in H as (? & ? & ? & _ & H & _).
    apply bind_Cont_inv in H as (? & ? & ? & _ & H & _). inversion H. }
  inv_bind H as u3 Hmmap. destruct (negb (mmap_ok w)).
  { apply bind_Cont_inv in H as (? & ? & ? & _ & H & _).
    apply bind_Cont_inv in H as (? & ? & ? & _ & H & _). inversion H. }
  inv_get H hdr. change (ntohl be32_zero) with 0 in H.
  inv_load H magic Hmagic.
  destruct (negb (ntohl magic =? to_u32 (REGDB_MAGIC h))).
  { apply bind_Cont_inv in H as (? & ? & ? & _ & H & _).
    apply bind_Cont_inv in H as (? & ? & ? & _ & H & _). inversion H. }
  inv_load H version Hversion.
  destruct (negb (ntohl version =? to_u32 (REGDB_VERSION h))).
  { apply bind_Cont_inv in H as (? & ? & ? & _ & H & _).
    apply bind_Cont_inv in H as (? & ? & ? & _ & H & _). inversion H. }
  inv_load H sl Hsl.
  match type of H with
  | (if ?c then _ else _) = _ => destruct c eqn:Hchk
  end.
  { apply bind_Cont_inv in H as (? & ? & ? & _ & H & _).
    apply bind_Cont_inv in H as (? & ? & ? & _ & H & _). inversion H. }
  inversion H; subst. apply Z.leb_gt in Hchk.
  exists (ntohl sl).
  change (0 + off_signature_length) with off_signature_length in Hsl.
  repeat split; assumption.
Qed.

(** With a country table no larger than the usable length, the record
    that [find_country] returns lies inside the usable length. *)
Lemma find_country_in_table db dblen header alpha2 t i country num :
  dblen <= INT_MAX ->
  field db (header + off_reg_country_num) = Some num ->
  sizeof_reg_country * num <= dblen ->
  find_country db dblen header alpha2 = Run t (Cont (i, country)) ->
  0 <= i < num /\ 0 <= country /\ country + sizeof_reg_country <= dblen.
Proof.
  intros Hd Hnum Htab H. unfold find_country in H.
  inv_load H vnum Hvnum. rewrite Hnum in Hvnum. injection Hvnum as Hvnum.
  inv_load H vptr Hptr.
  inv_bind H as countries Hget.
  inv_bind H as found Hscan.
  destruct found as [j|].
  2:{ apply bind_Cont_inv in H as (? & ? & ? & _ & H & _). inversion H. }
  inversion H; subst. clear H.
  pose proof (field_range _ _ _ Hnum) as Hr.
  unfold INT_MAX in *. change sizeof_reg_country with 8 in *.
  assert (En : to_int (ntohl vnum) = ntohl vnum).
  { apply to_int_id. unfold is_int, INT_MIN, INT_MAX. lia. }
  rewrite En in *.
  assert (Es : to_int (to_size_t (8 * to_size_t (ntohl vnum))) = 8 * ntohl vnum).
  { rewrite (to_size_t_nonneg (ntohl vnum)) by lia.
    rewrite to_size_t_nonneg by lia.
    apply to_int_id. unfold is_int, INT_MIN, INT_MAX. lia. }
  rewrite Es in Hget.
  apply get_file_ptr_granted in Hget as [Hp Hfit]; [|lia|unfold INT_MAX; lia].
  apply scan_countries_sound in Hscan as (_ & Hi & _).
  rewrite Z2Nat.id in Hi by lia.
  change (0 <= i < ntohl vnum /\ 0 <= countries + 8 * i
          /\ countries + 8 * i + 8 <= dblen).
  lia.
Qed.

(** In a usable length that holds a rule, a rule that [put_reg_rule]
    encoded is one that the decoder of the specification accepts. *)
Lemma put_reg_rule_resolved h w db dblen ruleptr msg t msg' :
  sizeof_reg_rule <= dblen -> dblen <= INT_MAX ->
  put_reg_rule h w db dblen ruleptr msg = Run t (Cont (0, msg')) ->
  exists rule,
    decode_rule db dblen (ntohl ruleptr) = Some rule /\
    rule_at db (ntohl ruleptr) = Some rule.
Proof.
  intros Hlo Hhi H.
  destruct (put_reg_rule_ok _ _ _ _ _ _ _ _ H) as (rule & Hrule & _).
  exists rule. split; [|exact Hrule].
  unfold sizeof_reg_rule in Hlo.
  unfold put_reg_rule in H.
  inv_bind H as r0 Hr0.
  apply get_file_ptr_Cont_resolve in Hr0;
    [|unfold sizeof_reg_rule; lia|exact Hhi].
  inv_load H fp Hfp.
  inv_bind H as fr Hfr.
  apply get_file_ptr_Cont_resolve in Hfr;
    [|unfold sizeof_freq_range; lia|exact Hhi].
  inv_load H pp Hpp.
  inv_bind H as pw Hpw.
  apply get_file_ptr_Cont_resolve in Hpw;
    [|unfold sizeof_power_rule; lia|exact Hhi].
  clear H.
  destruct (resolve_some _ _ _ _ Hr0) as [-> _].
  unfold decode_rule. rewrite Hr0, Hfp, Hfr, Hpp, Hpw. exact Hrule.
Qed.

Lemma rules_loop_resolved h w db dblen i rcoll n :
  sizeof_reg_rule <= dblen -> dblen <= INT_MAX ->
  forall j r msg t r' msg',
    rules_loop h w db dblen i rcoll n j r msg = Run t (Cont (r', msg')) ->
    exists rules,
      decode_rule_list db dblen rcoll n j = Some rules /\
      decode_rules db rcoll n j = Some rules.
Proof.
  intros Hlo Hhi.
  induction n as [|n IH]; intros j r msg t r' msg' H.
  - exists []. split; reflexivity.
  - cbn [rules_loop] in H. unfold nla_nest_start in H.
    destruct (nla_room w msg); [|inversion H].
    inv_load H ruleptr Hptr.
    inv_bind H as rm Hput. destruct rm as [r1 m1]. cbn [fst snd] in H.
    destruct (c_true r1) eqn:Hr1; [inversion H|].
    assert (r1 = 0) as -> by (eapply put_reg_rule_result; eauto).
    apply put_reg_rule_resolved in Hput as (rule & Hdec & Hat);
      [|assumption|assumption].
    apply IH in H as (rules & Hl & Hr).
    exists (rule :: rules). cbn [decode_rule_list decode_rules].
    rewrite Hptr, Hdec, Hat, Hl, Hr. split; reflexivity.
Qed.

(** A rule collection that [build_message] encoded, when its declared
    size is within the usable length, is one that the decoder of the
    specification accepts, with the same rules. *)
Lemma build_message_resolved h w db dblen i country r t r' msg rcoll num_rules :
  sizeof_reg_rule <= dblen -> dblen <= INT_MAX ->
  build_message h w db dblen i country r = Run t (Cont (r', msg)) ->
  field db (country + off_reg_collection_ptr) = Some rcoll ->
  field db (rcoll + off_reg_rule_num) = Some num_rules ->
  sizeof_rcoll + num_rules * sizeof_be32 <= dblen ->
  exists rules,
    decode_collection db dblen country = Some rules /\
    decode_rules db rcoll (Z.to_nat (to_int num_rules)) 0 = Some rules.
Proof.
  intros Hlo Hhi H Hcoll Hnum Hfit.
  pose proof (field_range _ _ _ Hnum) as Hr.
  unfold sizeof_reg_rule, sizeof_rcoll, sizeof_be32, INT_MAX in *.
  assert (En : to_int num_rules = num_rules).
  { apply to_int_id. unfold is_int, INT_MIN, INT_MAX. lia. }
  assert (Es : to_int (to_size_t (4 + to_size_t num_rules * 4))
               = 4 + num_rules * 4).
  { rewrite (to_size_t_nonneg num_rules) by lia.
    rewrite to_size_t_nonneg by lia.
    apply to_int_id. unfold is_int, INT_MIN, INT_MAX. lia. }
  unfold build_message in H.
  inv_bind H as u Halloc.
  destruct (negb (nlmsg_alloc_ok w)).
  { apply bind_Cont_inv in H as (? & ? & ? & _ & H & _). inversion H. }
  inv_bind H as u' Hput.
  inv_load H cp Hcp. rewrite Hcoll in Hcp. injection Hcp as Hcp.
  inv_bind H as rc Hrc.
  change (to_int sizeof_rcoll) with 4 in Hrc.
  apply get_file_ptr_Cont_resolve in Hrc; [|lia|unfold INT_MAX; lia].
  rewrite <- Hcp in Hrc.
  destruct (resolve_some _ _ _ _ Hrc) as [-> _].
  inv_load H num Hn. rewrite Hnum in Hn. injection Hn as Hn.
  inv_load H cp' Hcp'. rewrite Hcoll in Hcp'. injection Hcp' as Hcp'.
  inv_bind H as rc' Hrc'.
  unfold sizeof_rcoll, sizeof_be32 in Hrc'.
  rewrite <- Hn, En, Es in Hrc'.
  apply get_file_ptr_Cont_resolve in Hrc'; [|lia|unfold INT_MAX; lia].
  rewrite <- Hcp' in Hrc'.
  destruct (resolve_some _ _ _ _ Hrc') as [-> _].
  inv_bind H as alpha2 Hstr.
  unfold nla_put in H. destruct (nla_room w _); [|inversion H].
  unfold nla_nest_start in H. destruct (nla_room w _); [|inversion H].
  inv_bind H as rm Hloop. destruct rm as [r1 m1].
  rewrite <- Hn, En in Hloop.
  apply rules_loop_resolved in Hloop as (rules & Hl & Hd);
    [|unfold sizeof_reg_rule; lia|unfold INT_MAX; lia].
  exists rules. rewrite En. split; [|exact Hd].
  unfold decode_collection, sizeof_rcoll, sizeof_be32.
  rewrite Hcoll, Hrc, Hnum, Hrc'. exact Hl.
Qed.


